(** * angular-data: [DS.defineResource]

    A shallow embedding of [src/datastore/sync_methods/defineResource.js]:
    the registration of a resource definition with the data store, and the
    closures that registration leaves on the definition ([getEndpoint], the
    cache's expiry handler, the shorthand methods, [DSCompute]).

    Conventions of the embedding.
    - A JavaScript string is a [string] whose characters are code units
      below 256; a number is an integer that a double holds ([Z]), printed
      as [Number.prototype.toString] prints it ([number_to_string]).
    - An object is the list of its own enumerable properties in enumeration
      order ([obj]); its keys are pairwise distinct ([nodup_keys]).  Property
      names are taken to differ from the members every object inherits from
      [Object.prototype], and the objects of a definition are data: they do
      not redefine built-in methods such as [toString], [slice] or [trim].
      A function value carries its source text and no further property.
    - The registry objects [DS.definitions] and [DS.store] are finite maps
      for their own properties; their keys are resource names, which the
      caller chooses, so a lookup by name also finds the members that the
      registry inherits from [Object.prototype] ([registry_has]).  The
      cache factory's registry is a finite map from cache ids to caches.
    - A closure that captured the variable [def] carries the registry key of
      that definition, and with it the scope of its registration: the
      variable [DS] of that scope is gone when the class of the resource is
      named [DS].
    - The file is not in strict mode: a direct [eval] declares in the scope
      of [defineResource], and an assignment to a property of a primitive
      is ignored.
    - [DS.$log] is a console sink and is not part of the state. *)

From stdpp Require Import gmap strings list fin_maps pretty.
From Stdlib Require Import ZArith Ascii String Lia.

Set Warnings "-register-all".

Open Scope string_scope.
Open Scope Z_scope.

(** ** Values *)

(** The closures that [defineResource] creates. *)
Inductive native : Type :=
| NGetEndpoint (ref : string)           (* def.getEndpoint *)
| NProxy (ref method : string)          (* args.unshift(def.name) *)
| NProxyBind (ref method : string)      (* args.splice(2, 0, def.name) *)
| NDSCompute (ref : string)             (* <class>.prototype.DSCompute *)
| NOnExpire (ref : string).             (* the cache option onExpire *)

Inductive value : Type :=
| VUndefined
| VNull
| VBool (b : bool)
| VNum (n : Z)
| VStr (s : string)
| VFun (id : nat) (source : string)     (* a caller-supplied function *)
| VNative (n : native)
| VClass (cls : string) (proto : list (string * value))
| VArr (elems : list value) (props : list (string * value))
| VObj (props : list (string * value)).

Abbreviation obj := (list (string * value)).

Inductive error : Type :=
| IllegalArgumentError (msg : string)
| RuntimeError (msg : string)
| TypeError
| SyntaxError
| CacheError (msg : string)
| Thrown (v : value).

Inductive outcome (A : Type) : Type :=
| Ret (a : A)
| Throw (e : error).
Arguments Ret {A} a.
Arguments Throw {A} e.

#[global] Instance outcome_ret : MRet outcome := @Ret.
#[global] Instance outcome_bind : MBind outcome := fun A B k m =>
  match m with
  | Ret a => k a
  | Throw e => Throw e
  end.

(** ** Own properties *)

Fixpoint own_get {A} (k : string) (o : list (string * A)) : option A :=
  match o with
  | [] => None
  | (k', v) :: o' => if String.eqb k k' then Some v else own_get k o'
  end.

Definition own_has {A} (k : string) (o : list (string * A)) : bool :=
  match own_get k o with Some _ => true | None => false end.

(** [o[k] = v]: an existing property keeps its place, a new one is added last. *)
Fixpoint own_set {A} (k : string) (v : A) (o : list (string * A)) : list (string * A) :=
  match o with
  | [] => [(k, v)]
  | (k', v') :: o' =>
      if String.eqb k k' then (k', v) :: o' else (k', v') :: own_set k v o'
  end.

(** [delete o[k]] *)
Fixpoint own_delete {A} (k : string) (o : list (string * A)) : list (string * A) :=
  match o with
  | [] => []
  | (k', v') :: o' =>
      if String.eqb k k' then own_delete k o' else (k', v') :: own_delete k o'
  end.

Fixpoint nodup_keys {A} (o : list (string * A)) : bool :=
  match o with
  | [] => true
  | (k, _) :: o' => negb (own_has k o') && nodup_keys o'
  end.

(** ** Strings *)

Definition code (c : ascii) : N := N_of_ascii c.

(** The characters matched by [\s], and removed by [trim]. *)
Definition js_space (c : ascii) : bool :=
  let n := code c in
  ((9 <=? n) && (n <=? 13) || (n =? 32) || (n =? 160))%N.

Definition line_terminator (c : ascii) : bool :=
  let n := code c in ((n =? 10) || (n =? 13))%N.

(** [s.replace(/\s/gi, '')] *)
Fixpoint strip_spaces (s : string) : string :=
  match s with
  | EmptyString => EmptyString
  | String c r => if js_space c then strip_spaces r else String c (strip_spaces r)
  end.

Fixpoint trim_left (s : string) : string :=
  match s with
  | EmptyString => EmptyString
  | String c r => if js_space c then trim_left r else s
  end.

Fixpoint trim_right (s : string) : string :=
  match s with
  | EmptyString => EmptyString
  | String c r =>
      match trim_right r with
      | EmptyString => if js_space c then EmptyString else String c EmptyString
      | r' => String c r'
      end
  end.

(** [s.trim()] *)
Definition trim (s : string) : string := trim_right (trim_left s).

(** [s.split(',')] *)
Fixpoint split_comma (s : string) : list string :=
  match s with
  | EmptyString => [EmptyString]
  | String c r =>
      if Ascii.eqb c "," then EmptyString :: split_comma r
      else match split_comma r with
           | [] => [String c EmptyString]
           | p :: ps => String c p :: ps
           end
  end.

Fixpoint join (sep : string) (l : list string) : string :=
  match l with
  | [] => EmptyString
  | [s] => s
  | s :: l' => s +:+ sep +:+ join sep l'
  end.

Fixpoint drop_chars (n : nat) (s : string) : string :=
  match n, s with
  | O, _ => s
  | S n', String _ r => drop_chars n' r
  | S _, EmptyString => EmptyString
  end.

(** The regular expression [/function.*?\(([\s\S]*?)\)/] applied to a source
    text.  After an occurrence of [function], [.*?\(] reaches the first
    opening parenthesis unless a line terminator comes first, and the group
    captures up to the first closing parenthesis after it. *)
Fixpoint to_open_paren (s : string) : option string :=
  match s with
  | EmptyString => None
  | String c r =>
      if Ascii.eqb c "(" then Some r
      else if line_terminator c then None
      else to_open_paren r
  end.

Fixpoint to_close_paren (s : string) : option string :=
  match s with
  | EmptyString => None
  | String c r =>
      if Ascii.eqb c ")" then Some EmptyString
      else option_map (String c) (to_close_paren r)
  end.

Definition params_here (s : string) : option string :=
  if String.prefix "function" s
  then match to_open_paren (drop_chars 8 s) with
       | Some r => to_close_paren r
       | None => None
       end
  else None.

Fixpoint match_params (s : string) : option string :=
  match params_here s with
  | Some m => Some m
  | None => match s with
            | EmptyString => None
            | String _ r => match_params r
            end
  end.

(** ** Conversions and type tests *)

(** [!!v] *)
Definition truthy (v : value) : bool :=
  match v with
  | VUndefined | VNull => false
  | VBool b => b
  | VNum n => negb (n =? 0)
  | VStr s => negb (String.eqb s "")
  | _ => true
  end.

(** [a || b] *)
Definition js_or (a b : value) : value := if truthy a then a else b.

Definition native_source (n : native) : string :=
  match n with
  | NGetEndpoint _ => "function (attrs, options) {"
  | NProxy _ _ | NProxyBind _ _ | NDSCompute _ => "function () {"
  | NOnExpire _ => "function (id) {"
  end.

(** [Number::toString] for an integer that a double holds.  Below 2^53
    the result is the decimal numeral.  From there on it is made of the
    shortest decimal [s], of [k] digits, for which [s * 10^(n-k)] rounds to
    the number (the closest one, then the even one, when several do): [s]
    followed by [n - k] zeros when [n <= 21], and the exponent form
    otherwise. *)
Fixpoint zeros (n : nat) : string :=
  match n with
  | O => EmptyString
  | S n' => String "0" (zeros n')
  end.

(** The distance between the doubles around [x]. *)
Definition ulp (x : Z) : Z := 2 ^ (Z.log2 x - 52).

(** [v] rounds to the double [x]: it lies between the midpoints to the
    neighbours of [x], which count when the mantissa of [x] is even. *)
Definition rounds_to (x v : Z) : bool :=
  let u := ulp x in
  let m := x / u in
  let lo4 := 4 * x - (if m =? 2 ^ 52 then u else 2 * u) in
  let hi4 := 4 * x + 2 * u in
  if Z.even m then (lo4 <=? 4 * v) && (4 * v <=? hi4)
  else (lo4 <? 4 * v) && (4 * v <? hi4).

(** The pairs [(s, n)] with [s] of [k] digits whose [s * 10^(n-k)] rounds
    to [x], a number of [d] digits. *)
Definition candidates (x d k : Z) : list (Z * Z) :=
  flat_map (fun n =>
              let p := n - k in
              if p <? 0 then []
              else List.filter (fun sn => (10 ^ (k - 1) <=? fst sn) && (fst sn <? 10 ^ k)
                                          && rounds_to x (fst sn * 10 ^ p))
                               [(x / 10 ^ p, n); (x / 10 ^ p + 1, n)])
           [d; d + 1].

Definition distance (x k : Z) (sn : Z * Z) : Z := Z.abs (fst sn * 10 ^ (snd sn - k) - x).

Definition better (x k : Z) (a b : Z * Z) : bool :=
  (distance x k a <? distance x k b)
  || (distance x k a =? distance x k b) && Z.even (fst a) && Z.odd (fst b).

Fixpoint shortest_from (fuel : nat) (x d k : Z) : option (Z * Z) :=
  match fuel with
  | O => None
  | S fuel' =>
      match candidates x d k with
      | [] => shortest_from fuel' x d (k + 1)
      | c :: cs => Some (fold_left (fun best c => if better x k c best then c else best) cs c)
      end
  end.

Definition decimal_length (x : Z) : Z := Z.of_nat (String.length (pretty x)).

Definition exponent_form (s n : Z) : string :=
  let ds := pretty s in
  if n <=? 21 then ds +:+ zeros (Z.to_nat n - String.length ds)
  else match ds with
       | EmptyString => EmptyString
       | String c EmptyString => String c ("e+" +:+ pretty (n - 1))
       | String c r => String c ("." +:+ r +:+ "e+" +:+ pretty (n - 1))
       end.

Definition natural_to_string (x : Z) : string :=
  if x <? 2 ^ 53 then pretty x
  else match shortest_from 17 x (decimal_length x) 1 with
       | Some (s, n) => exponent_form s n
       | None => pretty x
       end.

Definition number_to_string (x : Z) : string :=
  if x <? 0 then "-" +:+ natural_to_string (- x) else natural_to_string x.

(** [String(v)]; of a closure's source only the head is kept. *)
Fixpoint to_string (v : value) : string :=
  match v with
  | VUndefined => "undefined"
  | VNull => "null"
  | VBool true => "true"
  | VBool false => "false"
  | VNum n => number_to_string n
  | VStr s => s
  | VFun _ src => src
  | VNative n => native_source n
  | VClass cls _ => "function " +:+ cls +:+ "() {}"
  | VArr l _ =>
      join "," (List.map (fun x => match x with
                                   | VUndefined | VNull => EmptyString
                                   | _ => to_string x
                                   end) l)
  | VObj _ => "[object Object]"
  end.

(** The type tests of [DS.utils] are angular's. *)
Definition isString (v : value) : bool :=
  match v with VStr _ => true | _ => false end.
Definition isNumber (v : value) : bool :=
  match v with VNum _ => true | _ => false end.
Definition isArray (v : value) : bool :=
  match v with VArr _ _ => true | _ => false end.
(** [angular.isObject]: [value != null && typeof value === 'object'] *)
Definition isObject (v : value) : bool :=
  match v with VObj _ | VArr _ _ => true | _ => false end.
Definition isFunction (v : value) : bool :=
  match v with VFun _ _ | VNative _ | VClass _ _ => true | _ => false end.
(** [mout isPlainObject] *)
Definition isPlainObject (v : value) : bool :=
  match v with VObj _ => true | _ => false end.

(** The index that a property name denotes in an array-like of length [len]. *)
Definition array_index (k : string) (len : nat) : option nat :=
  List.find (fun i => String.eqb (pretty i) k) (seq 0 len).

Fixpoint chars (s : string) : list value :=
  match s with
  | EmptyString => []
  | String c r => VStr (String c EmptyString) :: chars r
  end.

Definition indexed (l : list value) : obj :=
  List.map (fun p => (pretty (fst p), snd p)) (List.combine (seq 0 (List.length l)) l).

(** The own enumerable properties, as [for ... in] with [hasOwnProperty]
    visits them. *)
Definition own_entries (v : value) : obj :=
  match v with
  | VObj o => o
  | VArr l p => indexed l ++ p
  | VStr s => indexed (chars s)
  | _ => []
  end.

Definition elem_or_prop (l : list value) (p : obj) (k : string) : value :=
  if String.eqb k "length" then VNum (Z.of_nat (List.length l))
  else match array_index k (List.length l) with
       | Some i => List.nth i l VUndefined
       | None => default VUndefined (own_get k p)
       end.

(** [v[k]] *)
Definition get_prop (v : value) (k : string) : outcome value :=
  match v with
  | VUndefined | VNull => Throw TypeError
  | VObj o => Ret (default VUndefined (own_get k o))
  | VArr l p => Ret (elem_or_prop l p k)
  | VStr s => Ret (elem_or_prop (chars s) [] k)
  | _ => Ret VUndefined
  end.

(** [k in v] *)
Definition has_prop (k : string) (v : value) : outcome bool :=
  match v with
  | VObj o => Ret (own_has k o)
  | VArr l p =>
      Ret (String.eqb k "length"
           || match array_index k (List.length l) with Some _ => true | None => false end
           || own_has k p)
  | VFun _ _ | VNative _ | VClass _ _ => Ret false
  | _ => Throw TypeError
  end.

(** [v[k]] where [v] is known not to be [null] or [undefined]. *)
Definition prop (v : value) (k : string) : value :=
  match get_prop v k with
  | Ret x => x
  | Throw _ => VUndefined
  end.

(** [delete v[k]] *)
Definition delete_prop (v : value) (k : string) : outcome value :=
  match v with
  | VUndefined | VNull => Throw TypeError
  | VObj o => Ret (VObj (own_delete k o))
  | VArr l p => Ret (VArr l (own_delete k p))
  | _ => Ret v
  end.

(** The value of [v] after [delete v[k]], which does not raise when [v[k]]
    was read before. *)
Definition prop_deleted (v : value) (k : string) : value :=
  match delete_prop v k with
  | Ret v' => v'
  | Throw _ => v
  end.

(** [v[k] = x]; an assignment to a property of a primitive is ignored. *)
Definition set_prop (v : value) (k : string) (x : value) : value :=
  match v with
  | VObj o => VObj (own_set k x o)
  | VArr l p =>
      match array_index k (List.length l) with
      | Some i => VArr (<[i:=x]> l) p
      | None => VArr l (own_set k x p)
      end
  | _ => v
  end.

(** [mout deepMixIn(existing, v)] for plain objects: a plain value met on
    a plain existing property is merged into it, any other value is
    assigned. *)
Fixpoint merge_plain (existing : obj) (v : value) : obj :=
  match v with
  | VObj o =>
      (fix go (o : obj) (e : obj) {struct o} : obj :=
         match o with
         | [] => e
         | (k, x) :: o' =>
             go o' (own_set k (match x, own_get k e with
                               | VObj _, Some (VObj ex) => VObj (merge_plain ex x)
                               | _, _ => x
                               end) e)
         end) o existing
  | _ => existing
  end.

(** [mout deepMixIn(target, src)] on a target without inherited plain
    properties. *)
Definition deepMixIn (target : obj) (src : value) : obj :=
  if truthy src
  then fold_left (fun t kv =>
                    own_set (fst kv)
                      (match snd kv, own_get (fst kv) t with
                       | VObj _, Some (VObj ex) => VObj (merge_plain ex (snd kv))
                       | _, _ => snd kv
                       end) t)
                 (own_entries src) target
  else target.

(** ** The data store *)

Record CacheOptions : Type := {
  maxAge : value;
  recycleFreq : value;
  cacheFlushInterval : value;
  deleteOnExpire : value;
  onExpire : native;
  capacity : Z;
  storageMode : string;
  storageImpl : value;
  disabled : bool;
  storagePrefix : string
}.

Record Cache : Type := {
  cache_options : CacheOptions;
  cache_data : gmap string value
}.

(** [DS.store[name]]; [index] is the cache, held by its id. *)
Record StoreEntry : Type := {
  collection : list value;
  completedQueries : obj;
  pendingQueries : obj;
  index : string;
  modified : obj;
  saved : obj;
  previousAttributes : obj;
  observers : obj;
  collectionModified : Z
}.

Record DS : Type := {
  defaults : obj;                     (* DS.defaults and what it inherits *)
  definitions : gmap string obj;      (* DS.definitions *)
  store : gmap string StoreEntry;     (* DS.store *)
  caches : gmap string Cache          (* the registry of DS.cacheFactory *)
}.

(** The members that every object inherits from [Object.prototype].
    [DS.definitions] and [DS.store] are objects of their own: a lookup by a
    name that is not an entry finds these. *)
Definition inherited_members : list string :=
  [ "constructor"; "hasOwnProperty"; "isPrototypeOf"; "propertyIsEnumerable";
    "toLocaleString"; "toString"; "valueOf"; "__proto__"; "__defineGetter__";
    "__defineSetter__"; "__lookupGetter__"; "__lookupSetter__" ].

Definition inherited (k : string) : bool := existsb (String.eqb k) inherited_members.

(** [registry[k]] is truthy: an entry, or an inherited member. *)
Definition registry_has {A} (registry : gmap string A) (k : string) : bool :=
  bool_decide (is_Some (registry !! k)) || inherited k.

(** [Number.MAX_VALUE] *)
Definition MAX_VALUE : Z := 2 ^ 1024 - 2 ^ 971.

Definition starts_lower (s : string) : bool :=
  match s with
  | EmptyString => false
  | String c _ => ((97 <=? code c) && (code c <=? 122))%N
  end.

(** What [defineResource] calls and this file does not define: two string
    helpers of [DS.utils], the option check of the cache library, the
    engine's own methods ([DS[name]]) and the invocation of a function
    value on a [this] and arguments.  [pascalCase] upper-cases a leading
    letter. *)
Class Collaborators : Type := {
  pascalCase : string -> string;
  pascalCase_capital : forall s, starts_lower (pascalCase s) = false;
  makePath : list value -> value;
  cache_accepts : CacheOptions -> bool;
  DS_method : string -> list value -> DS -> outcome value * DS;
  call_fn : value -> value -> list value -> DS -> outcome value * DS
}.

Definition errorPrefix : string := "DS.defineResource(definition): ".

Definition methodsToProxy : list string :=
  [ "bindAll"; "bindOne"; "changes"; "create"; "createInstance"; "destroy";
    "destroyAll"; "eject"; "ejectAll"; "filter"; "find"; "findAll"; "get";
    "hasChanges"; "inject"; "lastModified"; "lastSaved"; "link"; "linkAll";
    "linkInverse"; "loadRelations"; "previous"; "refresh"; "save"; "update";
    "updateAll" ].

(** [this[k]] on an object whose prototype is [DS.defaults]. *)
Definition proto_get (this dflt : obj) (k : string) : value :=
  match own_get k this with
  | Some v => v
  | None => default VUndefined (own_get k dflt)
  end.

(** ** [Resource(utils, options)] *)

(** [copyProp] as [deepMixIn(this, options)] runs it: [this[key]] may be a
    plain object inherited from [DS.defaults], which is then merged in
    place. *)
Definition copyProp (st : obj * obj) (kv : string * value) : obj * obj :=
  let '(this, dflt) := st in
  let '(k, v) := kv in
  match v, own_get k this, own_get k dflt with
  | VObj _, Some (VObj ex), _ => (own_set k (VObj (merge_plain ex v)) this, dflt)
  | VObj _, None, Some (VObj ex) => (this, own_set k (VObj (merge_plain ex v)) dflt)
  | _, _, _ => (own_set k v this, dflt)
  end.

(** [new Resource(DS.utils, options)], with [DS.defaults] for prototype:
    the new object, and [DS.defaults] as the mixin left it. *)
Definition Resource (dflt : obj) (options : value) : outcome (obj * obj) :=
  let '(this, dflt') := fold_left copyProp (own_entries options) ([], dflt) in
  given ← has_prop "endpoint" options;
  if given : bool
  then e ← get_prop options "endpoint"; Ret (own_set "endpoint" e this, dflt')
  else Ret (own_set "endpoint" (proto_get this dflt' "name") this, dflt').

(** ** The steps of [defineResource] *)

(** A loop whose body may raise. *)
Fixpoint foldM {A B} (f : A -> B -> outcome A) (a : A) (l : list B) : outcome A :=
  match l with
  | [] => Ret a
  | b :: l' => a' ← f a b; foldM f a' l'
  end.

(** The callback of the inner [forEach]. *)
Definition relation_step (modelName : string) (def : obj) (relation : value)
  : outcome obj :=
  p ← get_prop relation "parent";
  if truthy p
  then lk ← get_prop relation "localKey";
       Ret (own_set "parentKey" lk (own_set "parent" (VStr modelName) def))
  else Ret def.

(** [if (!isArray(relatedModel)) relatedModel = [relatedModel]] *)
Definition relations_of (relatedModel : value) : list value :=
  match relatedModel with
  | VArr l _ => l
  | _ => [relatedModel]
  end.

(** The callback of [forOwn(def.relations.belongsTo, ...)]. *)
Definition belongsTo_step (def : obj) (kv : string * value) : outcome obj :=
  foldM (relation_step (fst kv)) def (relations_of (snd kv)).

(** Setup nested parent configuration *)
Definition setup_parent (def dflt : obj) : outcome obj :=
  let relations := proto_get def dflt "relations" in
  if truthy relations
  then belongsTo ← get_prop relations "belongsTo";
       if truthy belongsTo
       then foldM belongsTo_step def (own_entries belongsTo)
       else Ret def
  else Ret def.

(** The [filter] option renamed to [defaultFilter]. *)
Definition rename_filter (def dflt : obj) : obj :=
  let f := proto_get def dflt "filter" in
  if truthy f then own_delete "filter" (own_set "defaultFilter" f def) else def.

(** The options handed to [DS.cacheFactory] *)
Definition cache_options_for (def dflt : obj) (ref : string) : CacheOptions :=
  {| maxAge := js_or (proto_get def dflt "maxAge") VNull;
     recycleFreq := js_or (proto_get def dflt "recycleFreq") (VNum 1000);
     cacheFlushInterval := js_or (proto_get def dflt "cacheFlushInterval") VNull;
     deleteOnExpire := js_or (proto_get def dflt "deleteOnExpire") (VStr "none");
     onExpire := NOnExpire ref;
     capacity := MAX_VALUE;
     storageMode := "memory";
     storageImpl := VNull;
     disabled := false;
     storagePrefix := "DS." +:+ to_string (proto_get def dflt "name") |}.

(** Modelled from the spec: [DS.cacheFactory], the cache library's factory
    ("allocates a Cache/Index ... for the name").  It keeps one cache per
    id: an id already in use, or options the library rejects, raise; else
    an empty cache is registered under the id. *)
Definition cacheFactory `{Collaborators} (cacheId : string) (opts : CacheOptions)
    (cs : gmap string Cache) : outcome (gmap string Cache) :=
  match cs !! cacheId with
  | Some _ => Throw (CacheError (cacheId +:+ " already exists!"))
  | None =>
      if cache_accepts opts
      then Ret (<[cacheId := {| cache_options := opts; cache_data := ∅ |}]> cs)
      else Throw (CacheError "invalid cache options")
  end.

Definition reserved_words : list string :=
  [ "break"; "case"; "catch"; "class"; "const"; "continue"; "debugger";
    "default"; "delete"; "do"; "else"; "enum"; "export"; "extends"; "false";
    "finally"; "for"; "function"; "if"; "import"; "in"; "instanceof"; "new";
    "null"; "return"; "super"; "switch"; "this"; "throw"; "true"; "try";
    "typeof"; "var"; "void"; "while"; "with" ].

Definition id_start (c : ascii) : bool :=
  let n := code c in
  ((65 <=? n) && (n <=? 90) || (97 <=? n) && (n <=? 122) || (n =? 36) || (n =? 95)
   || (n =? 170) || (n =? 181) || (n =? 186)
   || (192 <=? n) && (n <=? 214) || (216 <=? n) && (n <=? 246) || (248 <=? n))%N.

Definition id_part (c : ascii) : bool :=
  id_start c || ((48 <=? code c) && (code c <=? 57))%N.

Fixpoint all_chars (P : ascii -> bool) (s : string) : bool :=
  match s with
  | EmptyString => true
  | String c r => P c && all_chars P r
  end.

(** Whether [eval('function ' + cls + '() {}')] parses: the class name must
    be an identifier. *)
Definition is_identifier (cls : string) : bool :=
  match cls with
  | EmptyString => false
  | String c r =>
      id_start c && all_chars id_part r
      && negb (existsb (String.eqb cls) reserved_words)
  end.

(** [val.trim()] *)
Definition trim_value (v : value) : outcome value :=
  match v with
  | VStr s => Ret (VStr (trim s))
  | _ => Throw TypeError
  end.

Fixpoint mapM {A B} (f : A -> outcome B) (l : list A) : outcome (list B) :=
  match l with
  | [] => Ret []
  | a :: l' => b ← f a; bs ← mapM f l'; Ret (b :: bs)
  end.

(** [deps.concat(fn)] *)
Definition concat_value (deps : list value) (fn : value) : list value :=
  match fn with
  | VArr l _ => deps ++ l
  | _ => deps ++ [fn]
  end.

(** [fn[0].toString().match(...)[1].split(',')] *)
Definition parameter_names (x : value) : outcome (list value) :=
  match x with
  | VUndefined | VNull => Throw TypeError
  | _ => match match_params (to_string x) with
         | Some m => Ret (List.map VStr (split_comma m))
         | None => Throw TypeError
         end
  end.

(** [v === n] for a number [n] *)
Definition is_number (v : value) (n : Z) : bool :=
  match v with
  | VNum m => m =? n
  | _ => false
  end.

(** [if (angular.isFunction(fn)) { def.computed[field] = [fn]; fn = def.computed[field]; }] *)
Definition wrap_function (c : value) (field : string) (fn : value) : value * value :=
  if isFunction fn
  then (set_prop c field (VArr [fn] []), VArr [fn] [])
  else (c, fn).

(** [if (fn.length === 1) { ... def.computed[field] = deps.concat(fn); fn = def.computed[field]; }] *)
Definition expand_single (c : value) (field : string) (fn : value)
  : outcome (value * value) :=
  len ← get_prop fn "length";
  if is_number len 1
  then x ← get_prop fn "0";
       deps ← parameter_names x;
       Ret (set_prop c field (VArr (concat_value deps fn) []),
            VArr (concat_value deps fn) [])
  else Ret (c, fn).

(** [deps = fn.slice(0, fn.length - 1)], the trimming of [deps], and
    [fn.deps = filter(deps, ...)].  A string has [slice], and ignores the
    assignments. *)
Definition record_deps (c : value) (field : string) (fn : value) : outcome value :=
  match fn with
  | VArr l p =>
      deps ← mapM trim_value (removelast l);
      Ret (set_prop c field
             (VArr l (own_set "deps" (VArr (List.filter truthy deps) []) p)))
  | VStr _ => Ret c
  | _ => Throw TypeError
  end.

(** The callback of [forOwn(def.computed, ...)] on one field.  [c] is the
    object [def.computed]; the result carries it as the callback left it,
    also when the callback raised. *)
Definition computed_field (methods : value) (c : value) (field : string)
  : outcome unit * value :=
  match get_prop c field with
  | Throw e => (Throw e, c)
  | Ret fn0 =>
      let '(c1, fn1) := wrap_function c field fn0 in
      match (if truthy methods then has_prop field methods else Ret false) with
      | Throw e => (Throw e, c1)
      | Ret _ =>
          match expand_single c1 field fn1 with
          | Throw e => (Throw e, c1)
          | Ret (c2, fn2) =>
              match record_deps c2 field fn2 with
              | Throw e => (Throw e, c2)
              | Ret c3 => (Ret tt, c3)
              end
          end
      end
  end.

(** [forOwn(def.computed, ...)]: the loop stops at the first field whose
    callback raises. *)
Fixpoint computed_fields (methods : value) (c : value) (fields : list string)
  : outcome unit * value :=
  match fields with
  | [] => (Ret tt, c)
  | field :: fields' =>
      match computed_field methods c field with
      | (Ret _, c') => computed_fields methods c' fields'
      | (Throw e, c') => (Throw e, c')
      end
  end.

(** Prepare for computed properties: the loop over [def.computed], which
    lives on the definition or, when inherited, on [DS.defaults]. *)
Definition prepare_computed (def dflt : obj) : outcome unit * obj * obj :=
  let c := proto_get def dflt "computed" in
  if truthy c
  then
    let '(r, c') :=
      computed_fields (proto_get def dflt "methods") c (List.map fst (own_entries c)) in
    if own_has "computed" def
    then (r, own_set "computed" c' def, dflt)
    else (r, def, own_set "computed" c' dflt)
  else (Ret tt, def, dflt).

(** [def[def.class].prototype], updated by [f]. *)
Definition on_prototype (cls : string) (f : obj -> obj) (def : obj) : obj :=
  match own_get cls def with
  | Some (VClass c proto) => own_set cls (VClass c (f proto)) def
  | _ => def
  end.

(** [name === 'bindOne' || name === 'bindAll'] *)
Definition binds (name : string) : bool :=
  String.eqb name "bindOne" || String.eqb name "bindAll".

(** Proxy DS methods with shorthand ones *)
Definition proxy_step (ref : string) (def : obj) (name : string) : obj :=
  if binds name
  then own_set name (VNative (NProxyBind ref name)) def
  else own_set name (VNative (NProxy ref name)) def.

Definition proxy_methods (ref : string) (def : obj) : obj :=
  fold_left (proxy_step ref) methodsToProxy def.

(** Initialize store data for the new resource *)
Definition new_store_entry (cacheId : string) : StoreEntry :=
  {| collection := [];
     completedQueries := [];
     pendingQueries := [];
     index := cacheId;
     modified := [];
     saved := [];
     previousAttributes := [];
     observers := [];
     collectionModified := 0 |}.

(** How the [try] block ends.  [Done]: it returned [def].  [Failed]: it
    raised, and the [catch] block runs.  [Clobbered]: the class name is
    [DS], so the [eval] redeclared the local variable [DS] as the wrapper
    class; every later [DS.] access raises, the one in the [catch] block
    included, and the two [delete]s are not reached.  Of the names that
    the code uses after the [eval], [DS] and [Array] are the two that
    [pascalCase] can produce. *)
Inductive try_result : Type :=
| Done (def : obj) (cacheId : string)
| Failed (e : error)
| Clobbered (def : obj).

Section DefineResource.
Context `{C : Collaborators}.

(** The definition when the cache is made, in the registration of [ref]:
    [getEndpoint] assigned, the [filter] option renamed. *)
Definition before_cache (ref : string) (def dflt : obj) : obj :=
  rename_filter (own_set "getEndpoint" (VNative (NGetEndpoint ref)) def) dflt.

(** Create the wrapper class for the new resource.  The second [eval]
    finds the class that the first one declared: both declare and resolve
    in the scope of [defineResource]. *)
Definition wrapper_class (cls : string) (def : obj) : obj :=
  own_set cls (VClass cls []) (own_set "class" (VStr cls) def).

(** Apply developer-defined methods *)
Definition apply_methods (cls : string) (def dflt : obj) : obj :=
  on_prototype cls (fun proto => deepMixIn proto (proto_get def dflt "methods")) def.

(** The end of the [try] block, once the computed properties are prepared. *)
Definition finish_definition (name cls : string) (computed : value) (def : obj) : obj :=
  proxy_methods name
    (if truthy computed
     then on_prototype cls (own_set "DSCompute" (VNative (NDSCompute name))) def
     else def).

(** The body of the [try] block; the result carries [DS.defaults] and the
    cache registry as the block left them. *)
Definition try_block (s : DS) (definition : value) (name : string)
  : try_result * obj * gmap string Cache :=
  match Resource (defaults s) definition with
  | Throw e => (Failed e, defaults s, caches s)
  | Ret (def, dflt) =>
      match setup_parent def dflt with
      | Throw e => (Failed e, dflt, caches s)
      | Ret def =>
          let def := before_cache name def dflt in
          let cacheId := "DS." +:+ to_string (proto_get def dflt "name") in
          match cacheFactory cacheId (cache_options_for def dflt name) (caches s) with
          | Throw e => (Failed e, dflt, caches s)
          | Ret cs =>
              let cls := pascalCase name in
              if negb (is_identifier cls) then (Failed SyntaxError, dflt, cs)
              else if String.eqb cls "DS" then (Clobbered (wrapper_class cls def), dflt, cs)
              else
                let def := apply_methods cls (wrapper_class cls def) dflt in
                let computed := proto_get def dflt "computed" in
                match prepare_computed def dflt with
                | (Throw e, _, dflt) => (Failed e, dflt, cs)
                | (Ret _, def, dflt) =>
                    (Done (finish_definition name cls computed def) cacheId, dflt, cs)
                end
          end
      end
  end.

(** [new IA(errorPrefix + msg)] *)
Definition IA (msg : string) : error := IllegalArgumentError (errorPrefix +:+ msg).

(** The first [if]: a string stands for the definition of that name. *)
Definition named (definition : value) : value :=
  match definition with
  | VStr d => VObj [("name", VStr (strip_spaces d))]
  | _ => definition
  end.

(** [DS.defineResource(definition)]: what it returns or raises, and the
    store it leaves. *)
Definition defineResource (s : DS) (definition : value) : outcome obj * DS :=
  let definition := named definition in
  if negb (isObject definition)
  then (Throw (IA "definition: Must be an object!"), s)
  else
    match prop definition "name" with
    | VStr name =>
        if truthy (prop definition "idAttribute")
           && negb (isString (prop definition "idAttribute"))
        then (Throw (IA "definition.idAttribute: Must be a string!"), s)
        else if truthy (prop definition "endpoint")
                && negb (isString (prop definition "endpoint"))
        then (Throw (IA "definition.endpoint: Must be a string!"), s)
        else if registry_has (store s) name
        then (Throw (RuntimeError (errorPrefix +:+ name +:+ " is already registered!")), s)
        else
          match try_block s definition name with
          | (Done def cacheId, dflt, cs) =>
              (Ret def,
               {| defaults := dflt;
                  definitions := <[name := def]> (definitions s);
                  store := <[to_string (proto_get def dflt "name") :=
                               new_store_entry cacheId]> (store s);
                  caches := cs |})
          | (Failed e, dflt, cs) =>
              (Throw e,
               {| defaults := dflt;
                  definitions := delete name (definitions s);
                  store := delete name (store s);
                  caches := cs |})
          | (Clobbered def, dflt, cs) =>
              (Throw TypeError,
               {| defaults := dflt;
                  definitions := <[name := def]> (definitions s);
                  store := store s;
                  caches := cs |})
          end
    | _ => (Throw (IA "definition.name: Must be a string!"), s)
    end.

(** ** The closures left on a definition *)

(** Modelled from the spec: [DS.get] ("returns the current record or
    nothing; O(1) via index"). *)
Definition DS_get (s : DS) (resourceName key : string) : value :=
  match store s !! resourceName with
  | Some e =>
      match caches s !! index e with
      | Some c => default VUndefined (cache_data c !! key)
      | None => VUndefined
      end
  | None => VUndefined
  end.

(** The primary key of a record, as a property name. *)
Definition record_key (idAttribute : string) (record : value) : string :=
  to_string (prop record idAttribute).

(** Whether the record [r] has the primary key [key]. *)
Definition has_key (idAttribute key : string) (r : value) : bool :=
  String.eqb (record_key idAttribute r) key.

(** Modelled from the spec: [DS.eject] ("removes from collection, index,
    and all bookkeeping maps for that key; returns the removed record or
    nothing if absent.  No error if key absent").  The record is the one
    that the collection holds under the key, or else the one that the
    index holds; the bookkeeping maps are those of the store entry; the
    counter of the collection ("bumped on any structural change") moves
    when there is a record to remove. *)
Definition DS_eject (s : DS) (resourceName key : string) : value * DS :=
  match store s !! resourceName with
  | None => (VUndefined, s)
  | Some e =>
      let idAttribute :=
        to_string (proto_get (default [] (definitions s !! resourceName))
                             (defaults s) "idAttribute") in
      let item :=
        match List.find (has_key idAttribute key) (collection e) with
        | Some r => r
        | None => DS_get s resourceName key
        end in
      let e' :=
        {| collection :=
             List.filter (fun r => negb (has_key idAttribute key r)) (collection e);
           completedQueries := own_delete key (completedQueries e);
           pendingQueries := own_delete key (pendingQueries e);
           index := index e;
           modified := own_delete key (modified e);
           saved := own_delete key (saved e);
           previousAttributes := own_delete key (previousAttributes e);
           observers := own_delete key (observers e);
           collectionModified :=
             collectionModified e + match item with VUndefined => 0 | _ => 1 end |} in
      (item,
       {| defaults := defaults s;
          definitions := definitions s;
          store := <[resourceName := e']> (store s);
          caches :=
            alter (fun c => {| cache_options := cache_options c;
                               cache_data := delete key (cache_data c) |})
                  (index e) (caches s) |})
  end.

(** [options.params[key]] *)
Definition params_get (options : value) (key : string) : outcome value :=
  params ← get_prop options "params"; get_prop params key.

(** [delete options.params[key]] *)
Definition params_delete (options : value) (key : string) : outcome value :=
  params ← get_prop options "params";
  params' ← delete_prop params key;
  Ret (set_prop options "params" params').

(** [delete options.endpoint; options = options || {};
    options.params = options.params || {};] *)
Definition default_options (options : value) : value :=
  let options := prop_deleted options "endpoint" in
  let options := if truthy options then options else VObj [] in
  set_prop options "params" (js_or (prop options "params") (VObj [])).

(** [v === false] *)
Definition is_false (v : value) : bool :=
  match v with
  | VBool false => true
  | _ => false
  end.

(** [if (options.params[parentKey] === false) { delete options.params[parentKey]; }
    return endpoint || thisEndpoint;] *)
Definition finish_endpoint (thisEndpoint : value) (key : string)
    (endpoint options : value) : outcome value * value :=
  match params_get options key with
  | Throw e => (Throw e, options)
  | Ret pv =>
      if is_false pv
      then match params_delete options key with
           | Throw e => (Throw e, options)
           | Ret options' => (Ret (js_or endpoint thisEndpoint), options')
           end
      else (Ret (js_or endpoint thisEndpoint), options)
  end.

(** [endpoint = makePath(definitions[parent].getEndpoint(attrs, options),
    keyValue, thisEndpoint)], with what the branch does after it, and the
    end of the function.  [parentResult] is the outcome of the parent's
    [getEndpoint]; the key value is read once that call is over. *)
Definition compose_endpoint (thisEndpoint : value) (key : string)
    (parentResult : option (outcome value * value))
    (keyValue after : value -> outcome value) : option (outcome value * value) :=
  match parentResult with
  | None => None
  | Some (Throw e, options') => Some (Throw e, options')
  | Some (Ret parentEndpoint, options') =>
      match keyValue options' with
      | Throw e => Some (Throw e, options')
      | Ret kv =>
          match after options' with
          | Throw e => Some (Throw e, options')
          | Ret options'' =>
              Some (finish_endpoint thisEndpoint key
                      (makePath [parentEndpoint; kv; thisEndpoint]) options'')
          end
      end
  end.

(** The body of the [if] of [getEndpoint], entered when [parent],
    [parentKey] and [definitions[parent]] are truthy.  [clobbered]: the
    variable [DS] of the closure is the wrapper class [DS], so that
    [DS.utils] is undefined.  [parentEndpoint] is the call
    [definitions[parent].getEndpoint(attrs, options)] on the options as
    they are by then. *)
Definition with_parent (s : DS) (clobbered : bool) (this : obj)
    (attrs thisEndpoint : value) (key : string) (options : value)
    (parentEndpoint : value -> option (outcome value * value))
  : option (outcome value * value) :=
  match params_get options key with
  | Throw e => Some (Throw e, options)
  | Ret pv =>
      if is_false pv
      then Some (finish_endpoint thisEndpoint key VUndefined options)
      else if clobbered then Some (Throw TypeError, options)
      else
        let item :=
          if isNumber attrs || isString attrs
          then DS_get s (to_string (proto_get this (defaults s) "name"))
                      (to_string attrs)
          else VUndefined in
        match (if isObject attrs then has_prop key attrs else Ret false) with
        | Throw e => Some (Throw e, options)
        | Ret true =>
            match params_delete options key with
            | Throw e => Some (Throw e, options)
            | Ret options1 =>
                compose_endpoint thisEndpoint key (parentEndpoint options1)
                  (fun _ => get_prop attrs key) Ret
            end
        | Ret false =>
            match (if truthy item then has_prop key item else Ret false) with
            | Throw e => Some (Throw e, options)
            | Ret true =>
                match params_delete options key with
                | Throw e => Some (Throw e, options)
                | Ret options1 =>
                    compose_endpoint thisEndpoint key (parentEndpoint options1)
                      (fun _ => get_prop item key) Ret
                end
            | Ret false =>
                if truthy options && truthy pv
                then compose_endpoint thisEndpoint key (parentEndpoint options)
                       (fun o => params_get o key)
                       (fun o => params_delete o key)
                else Some (finish_endpoint thisEndpoint key VUndefined options)
            end
        end
  end.

(** [def.getEndpoint], called with [this] a definition: the function that
    the registration of [ref] made.  Its variable [DS] is the wrapper
    class when the class of [ref] is named [DS].  The result carries the
    [options] object as the call left it.  [fuel] bounds the depth of the
    calls along the chain of parents.  [definitions[parent]] is the
    definition registered under that name, whose [getEndpoint] is the
    function that its registration made, or else a member that every
    object inherits, which has no [getEndpoint]. *)
Fixpoint getEndpoint (fuel : nat) (s : DS) (ref : string) (this : obj)
    (attrs options : value) : option (outcome value * value) :=
  match fuel with
  | O => None
  | S fuel' =>
      let parent := proto_get this (defaults s) "parent" in
      let parentKey := proto_get this (defaults s) "parentKey" in
      let key := to_string parentKey in
      match get_prop options "endpoint" with
      | Throw e => Some (Throw e, options)
      | Ret given =>
          let thisEndpoint := js_or given (proto_get this (defaults s) "endpoint") in
          let options := default_options options in
          if truthy parent && truthy parentKey
             && registry_has (definitions s) (to_string parent)
          then
            with_parent s (String.eqb (pascalCase ref) "DS") this attrs thisEndpoint
              key options
              (fun options1 =>
                 match definitions s !! to_string parent with
                 | Some parentDef =>
                     getEndpoint fuel' s (to_string parent) parentDef attrs options1
                 | None => Some (Throw TypeError, options1)
                 end)
          else Some (finish_endpoint thisEndpoint key VUndefined options)
      end
  end.

(** The cache option [onExpire] of the definition registered under
    [ref].  A cache whose registration was rolled back never holds an
    entry, so its handler does not run.  When the class of [ref] is named
    [DS], the variable [DS] of the handler is the wrapper class, which has
    no [eject]. *)
Definition onExpire_handler (ref : string) (id : value) (s : DS)
  : outcome value * DS :=
  match definitions s !! ref with
  | None => (Ret VUndefined, s)
  | Some def =>
      if String.eqb (pascalCase ref) "DS" then (Throw TypeError, s)
      else
        let '(item, s1) :=
          DS_eject s (to_string (proto_get def (defaults s) "name")) (to_string id) in
        let callback := proto_get def (defaults s1) "onExpire" in
        if isFunction callback
        then match call_fn callback (VObj def) [id; item] s1 with
             | (Ret _, s2) => (Ret VUndefined, s2)
             | (Throw e, s2) => (Throw e, s2)
             end
        else (Ret VUndefined, s1)
  end.

(** [args.splice(2, 0, x)] *)
Definition splice2 (x : value) (args : list value) : list value :=
  take 2 args ++ x :: drop 2 args.

(** [Array.prototype.slice.call(arguments)] in a shorthand method of the
    definition registered under [ref].  The closure resolves [Array] in the
    scope of [defineResource]: for a wrapper class named [Array] that is
    the class, whose prototype has no [slice] unless the definition's
    methods bring one. *)
Definition arguments_array (ref : string) (args : list value) (s : DS)
  : outcome (list value) * DS :=
  if String.eqb (pascalCase ref) "Array"
  then
    match own_get "Array" (default [] (definitions s !! ref)) with
    | Some (VClass _ proto) =>
        match own_get "slice" proto with
        | Some slice =>
            if isFunction slice
            then match call_fn slice (VArr args []) [] s with
                 | (Ret (VArr l _), s') => (Ret l, s')
                 | (Ret _, s') => (Throw TypeError, s')
                 | (Throw e, s') => (Throw e, s')
                 end
            else (Throw TypeError, s)
        | None => (Throw TypeError, s)
        end
    | _ => (Throw TypeError, s)
    end
  else (Ret args, s).

(** The shorthand [def[name]] for a method other than [bindOne] and
    [bindAll]; [def] is the definition registered under [ref]. *)
Definition proxy_call (ref name : string) (args : list value) (s : DS)
  : outcome value * DS :=
  match arguments_array ref args s with
  | (Throw e, s') => (Throw e, s')
  | (Ret args, s') =>
      let def := default [] (definitions s' !! ref) in
      DS_method name (proto_get def (defaults s') "name" :: args) s'
  end.

(** The shorthand [def[name]] for [bindOne] and [bindAll]. *)
Definition proxy_bind_call (ref name : string) (args : list value) (s : DS)
  : outcome value * DS :=
  match arguments_array ref args s with
  | (Throw e, s') => (Throw e, s')
  | (Ret args, s') =>
      let def := default [] (definitions s' !! ref) in
      DS_method name (splice2 (proto_get def (defaults s') "name") args) s'
  end.

(** The call of a shorthand method held by a definition. *)
Definition shorthand_call (n : native) (args : list value) (s : DS)
  : option (outcome value * DS) :=
  match n with
  | NProxy ref name => Some (proxy_call ref name args s)
  | NProxyBind ref name => Some (proxy_bind_call ref name args s)
  | _ => None
  end.

(** [<class>.prototype.DSCompute], for the definition registered under
    [ref]: [DS.compute(def.name, this)]. *)
Definition DSCompute_call (ref : string) (this : value) (s : DS)
  : outcome value * DS :=
  let def := default [] (definitions s !! ref) in
  DS_method "compute" [proto_get def (defaults s) "name"; this] s.
End DefineResource.

(** ** A sample store *)

Definition capitalize (s : string) : string :=
  match s with
  | EmptyString => EmptyString
  | String c r =>
      if starts_lower s then String (ascii_of_N (code c - 32)) r else s
  end.

(** [join(items, '/')] of [mout], without the clean-up of repeated slashes. *)
Definition join_path (items : list value) : value :=
  VStr (join "/" (List.map to_string
                    (List.filter (fun v => match v with
                                           | VUndefined | VNull | VStr EmptyString => false
                                           | _ => true
                                           end) items))).

(** Collaborators to run the definitions on: an engine whose methods
    answer with the method name and the arguments they received, and
    function values without effect. *)
#[global, refine] Instance sample : Collaborators := {|
  pascalCase := capitalize;
  pascalCase_capital := _;
  makePath := join_path;
  cache_accepts := fun _ => true;
  DS_method := fun name args s => (Ret (VArr (VStr name :: args) []), s);
  call_fn := fun _ _ _ s => (Ret VUndefined, s)
|}.
Proof.
  intros [|c r]; [reflexivity|].
  unfold capitalize. destruct (starts_lower (String c r)) eqn:E; [|exact E].
  revert E. unfold starts_lower, code.
  destruct c as [[] [] [] [] [] [] [] []]; vm_compute; congruence.
Defined.

Definition empty_store : DS :=
  {| defaults := [("idAttribute", VStr "id")];
     definitions := ∅;
     store := ∅;
     caches := ∅ |}.

(** The store after [DS.defineResource('user')]. *)
Definition user_store : DS := snd (defineResource empty_store (VStr "user")).

Definition user_def : obj := default [] (definitions user_store !! "user").

(** A definition with three [belongsTo] relations, two of them flagged. *)
Definition comment_definition : value :=
  VObj [("name", VStr "comment");
        ("endpoint", VStr "comments");
        ("relations",
         VObj [("belongsTo",
                VObj [("user", VObj [("parent", VBool true);
                                     ("localKey", VStr "userId")]);
                      ("post", VArr [VObj [("localKey", VStr "approvedId")];
                                     VObj [("parent", VBool true);
                                           ("localKey", VStr "postId")]] [])])])].

Definition comment_store : DS := snd (defineResource empty_store comment_definition).

Definition comment_def : obj := default [] (definitions comment_store !! "comment").

(** A resource whose cache entries expire, with a callback, and its store
    holding one record. *)
Definition session_definition : value :=
  VObj [("name", VStr "session");
        ("maxAge", VNum 60000);
        ("deleteOnExpire", VStr "aggressive");
        ("onExpire", VFun 7 "function (id, item) { }")].

Definition session_store : DS := snd (defineResource empty_store session_definition).

Definition session_def : obj := default [] (definitions session_store !! "session").

Definition token : value := VObj [("id", VStr "t1"); ("user", VNum 5)].

Definition session_store_with_token : DS :=
  {| defaults := defaults session_store;
     definitions := definitions session_store;
     store :=
       alter (fun e => {| collection := [token];
                          completedQueries := completedQueries e;
                          pendingQueries := pendingQueries e;
                          index := index e;
                          modified := modified e;
                          saved := saved e;
                          previousAttributes := previousAttributes e;
                          observers := observers e;
                          collectionModified := collectionModified e + 1 |})
             "session" (store session_store);
     caches :=
       alter (fun c => {| cache_options := cache_options c;
                          cache_data := <["t1" := token]> (cache_data c) |})
             "DS.session" (caches session_store) |}.

(** The same store once the cache has dropped the entry of the record:
    the collection still holds it. *)
Definition session_store_expired : DS :=
  {| defaults := defaults session_store_with_token;
     definitions := definitions session_store_with_token;
     store := store session_store_with_token;
     caches := caches session_store |}.

(** A definition with two computed fields, one declared as a bare function
    and one as an array. *)
Definition fullName_fn : value :=
  VFun 1 "function (first, last) { return first + ' ' + last; }".

Definition initials_fn : value :=
  VFun 2 "function (a, b) { return a[0] + b[0]; }".

Definition person_definition : value :=
  VObj [("name", VStr "person");
        ("computed",
         VObj [("fullName", fullName_fn);
               ("initials", VArr [VStr " first"; VStr ""; VStr "last "; initials_fn] [])])].

Definition person_store : DS := snd (defineResource empty_store person_definition).

Definition person_def : obj := default [] (definitions person_store !! "person").

(** The store after [comment] and then [post] are registered: [comment]
    has [post] for parent, [post] has none. *)
Definition blog_store : DS := snd (defineResource comment_store (VStr "post")).




(** A resource whose parent is named after an inherited member of the
    registry. *)
Definition widget_definition : value :=
  VObj [("name", VStr "widget");
        ("relations",
         VObj [("belongsTo",
                VObj [("constructor", VObj [("parent", VBool true);
                                            ("localKey", VStr "ownerId")])])])].

Definition widget_store : DS := snd (defineResource empty_store widget_definition).

Definition widget_def : obj := default [] (definitions widget_store !! "widget").

(** A resource of class [DS] with the registered [user] for parent. *)
Definition dS_definition : value :=
  VObj [("name", VStr "dS");
        ("relations",
         VObj [("belongsTo",
                VObj [("user", VObj [("parent", VBool true);
                                     ("localKey", VStr "userId")])])])].

Definition dS_store : DS := snd (defineResource user_store dS_definition).

Definition dS_def : obj := default [] (definitions dS_store !! "dS").

(** A definition with a computed field whose function has a comment
    before its parameter list. *)
Definition noted_fn : value :=
  VFun 5 "function /* (x, y) */ (a, b) { return a + b; }".

Definition noted_definition : value :=
  VObj [("name", VStr "noted"); ("computed", VObj [("sum", noted_fn)])].

Definition noted_store : DS := snd (defineResource empty_store noted_definition).

Definition noted_def : obj := default [] (definitions noted_store !! "noted").

(** A definition with two methods for the instances of the resource. *)
Definition greet_fn : value := VFun 4 "function () { return 'hello ' + this.first; }".

Definition account_definition : value :=
  VObj [("name", VStr "account");
        ("methods", VObj [("greet", greet_fn); ("rank", VNum 1)]);
        ("computed", VObj [("fullName", fullName_fn)])].

Definition account_store : DS := snd (defineResource empty_store account_definition).

Definition account_def : obj := default [] (definitions account_store !! "account").

(** A definition with a relation that is [null]. *)
Definition orphan_definition : value :=
  VObj [("name", VStr "orphan");
        ("relations",
         VObj [("belongsTo",
                VObj [("user", VArr [VObj [("localKey", VStr "userId")]; VNull] [])])])].

(** A store whose defaults carry a plain object. *)
Definition meta_store : DS :=
  {| defaults := [("idAttribute", VStr "id");
                  ("meta", VObj [("owner", VStr "ops"); ("tier", VNum 1)])];
     definitions := ∅;
     store := ∅;
     caches := ∅ |}.

Definition tagged_definition : value :=
  VObj [("name", VStr "user"); ("meta", VObj [("tier", VNum 2); ("team", VStr "a")])].

(** ** Vocabulary of the properties *)

(** A definition that passes the four checks on its shape. *)
Definition well_formed (definition : value) : bool :=
  let d := named definition in
  isObject d
  && isString (prop d "name")
  && negb (truthy (prop d "idAttribute") && negb (isString (prop d "idAttribute")))
  && negb (truthy (prop d "endpoint") && negb (isString (prop d "endpoint"))).

(** The relations of [belongsTo] that carry the [parent] flag, in the order
    in which the two loops visit them, each with the name of the related
    resource and its [localKey]. *)
Definition parents_declared (belongsTo : value) : list (string * value) :=
  flat_map (fun kv =>
              List.map (fun r => (fst kv, prop r "localKey"))
                (List.filter (fun r => truthy (prop r "parent")) (relations_of (snd kv))))
           (own_entries belongsTo).


(** The properties of a definition that the steps after the parent
    configuration neither assign nor delete. *)
Definition kept (k : string) : bool :=
  starts_lower k
  && negb (existsb (String.eqb k)
             (["getEndpoint"; "defaultFilter"; "filter"; "class"; "computed"]
              ++ methodsToProxy)).

(** Whether [copyProp] assigns [v] to [this[k]] rather than merging it. *)
Definition assigned (k : string) (v : value) (this dflt : obj) : Prop :=
  isPlainObject v = false
  \/ (own_get k this = None /\ forall ex, own_get k dflt <> Some (VObj ex)).

(** The trimmed, non-empty names among [l]. *)
Definition trimmed_names (l : list value) : list value :=
  List.filter truthy
    (List.map (fun v => match v with VStr x => VStr (trim x) | _ => v end) l).

(** What the callback leaves in [def.computed[field]] for a declaration
    [decl]: an array [l] with a property [deps]. *)
Definition prepared (decl : value) (l : list value) (p : obj) : Prop :=
  own_get "deps" p = Some (VArr (trimmed_names (removelast l)) [])
  /\ match decl with
     | VArr [x] _ =>
         exists m, match_params (to_string x) = Some m
                   /\ l = (List.map VStr (split_comma m) ++ [x])%list
     | VArr l0 _ => l = l0
     | _ =>
         exists m, match_params (to_string decl) = Some m
                   /\ l = (List.map VStr (split_comma m) ++ [decl])%list
     end.

(** [c'] is an object that agrees with [o] on every property but [field]. *)
Definition differs_at (field : string) (o : obj) (c' : value) : Prop :=
  exists o', c' = VObj o' /\ forall k, k <> field -> own_get k o' = own_get k o.

(** The definition whose [getEndpoint] the [getEndpoint] of [this] may
    call: the registered parent, when [parent] and [parentKey] are set. *)
Definition parent_of (s : DS) (this : obj) : option obj :=
  if truthy (proto_get this (defaults s) "parent")
     && truthy (proto_get this (defaults s) "parentKey")
  then definitions s !! to_string (proto_get this (defaults s) "parent")
  else None.



(** [options] is an object whose [params] is set. *)
Definition ready (options : value) : Prop :=
  exists oo p, options = VObj oo /\ own_get "params" oo = Some p /\ truthy p = true.


(** The injected record that [getEndpoint] looks up when [attrs] is a
    primary key. *)
Definition record_of (s : DS) (this : obj) (attrs : value) : value :=
  if isNumber attrs || isString attrs
  then DS_get s (to_string (proto_get this (defaults s) "name")) (to_string attrs)
  else VUndefined.




(** The errors after the validation. *)
Definition raised_by_validation (e : error) : bool :=
  match e with
  | IllegalArgumentError _ | RuntimeError _ => true
  | _ => false
  end.

Definition raised_by_setup (e : error) : bool :=
  match e with
  | TypeError | SyntaxError | CacheError _ => true
  | _ => false
  end.

(** The properties that a registration takes over from the definition as
    they are: those that [kept] selects, but for the endpoint and the
    parent configuration. *)
Definition untouched (k : string) : bool :=
  kept k && negb (existsb (String.eqb k) ["parent"; "parentKey"; "endpoint"]).

(** A declaration of a computed field that is neither a function, an
    array, a string nor an object. *)
Definition no_names (decl : value) : bool :=
  match decl with
  | VUndefined | VNull | VBool _ | VNum _ => true
  | _ => false
  end.

(** [null] or [undefined] *)
Definition nullish (v : value) : bool :=
  match v with
  | VUndefined | VNull => true
  | _ => false
  end.




(** A character that [.*?] passes on its way to the opening parenthesis. *)
Definition before_paren (c : ascii) : bool :=
  negb (Ascii.eqb c "(") && negb (line_terminator c).

(** A character that [[\s\S]*?] captures before the closing parenthesis. *)
Definition in_parens (c : ascii) : bool := negb (Ascii.eqb c ")").

Definition nonempty (x : string) : bool := negb (String.eqb x "").

Definition starts_with_space (x : string) : bool :=
  match x with
  | EmptyString => false
  | String c _ => js_space c
  end.

Fixpoint ends_with_space (x : string) : bool :=
  match x with
  | EmptyString => false
  | String c EmptyString => js_space c
  | String _ r => ends_with_space r
  end.

(** A name that is not empty and has no whitespace at either end. *)
Definition clean_name (x : string) : bool :=
  nonempty x && negb (starts_with_space x) && negb (ends_with_space x).

(** * Properties *)

(** ** Own properties *)

Lemma own_get_set_eq {A} k (v : A) o : own_get k (own_set k v o) = Some v.
Proof.
  induction o as [|[k' v'] o IH]; simpl.
  - by rewrite String.eqb_refl.
  - destruct (String.eqb k k') eqn:E; simpl; rewrite E; [done | exact IH].
Qed.

Lemma own_get_set_ne {A} k k' (v : A) o :
  k <> k' -> own_get k (own_set k' v o) = own_get k o.
Proof.
  intros Hne. induction o as [|[k0 v0] o IH]; simpl.
  - by apply String.eqb_neq in Hne as ->.
  - destruct (String.eqb k' k0) eqn:E; simpl.
    + apply String.eqb_eq in E as <-.
      by apply String.eqb_neq in Hne as ->.
    + by rewrite IH.
Qed.

Lemma own_get_delete_ne {A} k k' (o : list (string * A)) :
  k <> k' -> own_get k (own_delete k' o) = own_get k o.
Proof.
  intros Hne. induction o as [|[k0 v0] o IH]; simpl; [done|].
  destruct (String.eqb k' k0) eqn:E; simpl.
  - apply String.eqb_eq in E as <-.
    by apply String.eqb_neq in Hne as ->.
  - by rewrite IH.
Qed.

Lemma own_get_delete_eq {A} k (o : list (string * A)) :
  own_get k (own_delete k o) = None.
Proof.
  induction o as [|[k0 v0] o IH]; simpl; [done|].
  destruct (String.eqb k k0) eqn:E; simpl; [done | by rewrite E].
Qed.

Lemma registry_has_entry {A} (registry : gmap string A) k :
  is_Some (registry !! k) -> registry_has registry k = true.
Proof. intros Hk. unfold registry_has. by rewrite bool_decide_eq_true_2. Qed.

Lemma registry_has_false {A} (registry : gmap string A) k :
  registry_has registry k = false -> registry !! k = None /\ inherited k = false.
Proof.
  unfold registry_has. intros [Hk Hi]%orb_false_elim. split; [|done].
  apply bool_decide_eq_false in Hk. by apply eq_None_not_Some.
Qed.

Lemma registry_has_free {A} (registry : gmap string A) k :
  registry !! k = None -> inherited k = false -> registry_has registry k = false.
Proof.
  intros Hk Hi. unfold registry_has. rewrite Hi, orb_false_r.
  apply bool_decide_eq_false. rewrite Hk. by intros [? ?].
Qed.

Lemma strip_spaces_filter x :
  list_ascii_of_string (strip_spaces x)
  = List.filter (fun c => negb (js_space c)) (list_ascii_of_string x).
Proof.
  induction x as [|c r IH]; simpl; [done|].
  destruct (js_space c); simpl; by rewrite IH.
Qed.

(** ** Validation of the definition *)

Lemma registered_name_rejected `{Collaborators} s definition name :
  well_formed definition = true ->
  prop (named definition) "name" = VStr name ->
  is_Some (store s !! name) ->
  defineResource s definition
  = (Throw (RuntimeError (errorPrefix +:+ name +:+ " is already registered!")), s).
Proof.
  unfold well_formed. intros Hwf Hname Hreg.
  apply andb_prop in Hwf as [Hwf Hep]. apply andb_prop in Hwf as [Hwf Hid].
  apply andb_prop in Hwf as [Hobj _].
  apply negb_true_iff in Hep, Hid.
  unfold defineResource. rewrite Hobj, Hname, Hid, Hep. simpl.
  by rewrite registry_has_entry.
Qed.

(** C3, as amended.  A definition that is neither a string nor an object,
    or an object whose name is not a string, or whose idAttribute or
    endpoint is truthy and not a string, is refused with an
    IllegalArgumentError and the store is left as it was.  A string has
    every whitespace character removed and then stands for the definition
    of that name. *)
Theorem defineResource_refuses_malformed `{Collaborators}
    (s : DS) (definition : value) (x : string)
    (Hbad : (isString definition = false /\ isObject definition = false)
            \/ (isObject definition = true
                /\ isString (prop definition "name") = false)
            \/ (isObject definition = true
                /\ truthy (prop definition "idAttribute") = true
                /\ isString (prop definition "idAttribute") = false)
            \/ (isObject definition = true
                /\ truthy (prop definition "endpoint") = true
                /\ isString (prop definition "endpoint") = false)) :
  (exists msg, defineResource s definition = (Throw (IllegalArgumentError msg), s))
  /\ defineResource s (VStr x)
     = defineResource s (VObj [("name", VStr (strip_spaces x))])
  /\ list_ascii_of_string (strip_spaces x)
     = List.filter (fun c => negb (js_space c)) (list_ascii_of_string x).
Proof.
  split; [|split; [reflexivity | apply strip_spaces_filter]].
  assert (Hnamed : isString definition = false -> named definition = definition).
  { by destruct definition. }
  assert (Hobj : isObject definition = true -> named definition = definition).
  { by destruct definition. }
  unfold defineResource.
  destruct Hbad as [[Hs Ho] | [[Ho Hn] | [(Ho & Ht & Hi) | (Ho & Ht & Hi)]]].
  - rewrite (Hnamed Hs), Ho. simpl. eauto.
  - rewrite (Hobj Ho), Ho. simpl.
    destruct (prop definition "name"); simpl in Hn; try discriminate; eauto.
  - rewrite (Hobj Ho), Ho. simpl.
    destruct (prop definition "name"); eauto.
    rewrite Ht, Hi. simpl. eauto.
  - rewrite (Hobj Ho), Ho. simpl.
    destruct (prop definition "name"); eauto.
    destruct (truthy (prop definition "idAttribute")
              && negb (isString (prop definition "idAttribute"))); eauto.
    rewrite Ht, Hi. simpl. eauto.
Qed.

Lemma defineResource_refuses_malformed_witness :
  (exists msg,
      defineResource empty_store (VObj [("name", VStr "user"); ("idAttribute", VNum 7)])
      = (Throw (IllegalArgumentError msg), empty_store))
  /\ defineResource empty_store (VStr " us er ")
     = defineResource empty_store (VObj [("name", VStr (strip_spaces " us er "))])
  /\ list_ascii_of_string (strip_spaces " us er ")
     = List.filter (fun c => negb (js_space c)) (list_ascii_of_string " us er ").
Proof.
  apply (defineResource_refuses_malformed empty_store
           (VObj [("name", VStr "user"); ("idAttribute", VNum 7)]) " us er ").
  right; right; left. repeat split; reflexivity.
Defined.

(** C3 as stated fails for a name that is the empty string, and for a
    falsy idAttribute that is not a string: the first is not refused by the
    validation (the registration then fails on the wrapper class, leaving a
    cache behind), the second is registered. *)
Lemma defineResource_accepts_empty_name :
  fst (defineResource empty_store (VObj [("name", VStr "")])) = Throw SyntaxError
  /\ caches (snd (defineResource empty_store (VObj [("name", VStr "")]))) !! "DS."
     <> None
  /\ exists def,
       fst (defineResource empty_store
              (VObj [("name", VStr "user"); ("idAttribute", VNum 0)])) = Ret def.
Proof.
  split; [by vm_compute|]. split; [by vm_compute|].
  eexists. vm_compute. reflexivity.
Qed.

(** C4.  A well-formed definition whose name already has a store entry is
    refused with a RuntimeError before the [try] block is entered; the
    store, and with it the earlier definition, cache and store entry, is
    unchanged. *)
Theorem defineResource_once `{Collaborators}
    (s : DS) (definition : value) (name : string)
    (Hwf : well_formed definition = true)
    (Hname : prop (named definition) "name" = VStr name)
    (Hreg : is_Some (store s !! name)) :
  defineResource s definition
  = (Throw (RuntimeError (errorPrefix +:+ name +:+ " is already registered!")), s).
Proof. by apply registered_name_rejected. Qed.

Lemma defineResource_once_witness :
  let s := snd (defineResource empty_store (VStr "user")) in
  defineResource s (VObj [("name", VStr "user"); ("endpoint", VStr "users")])
  = (Throw (RuntimeError (errorPrefix +:+ "user" +:+ " is already registered!")), s).
Proof.
  intros s.
  apply (defineResource_once s
           (VObj [("name", VStr "user"); ("endpoint", VStr "users")]) "user").
  - reflexivity.
  - reflexivity.
  - vm_compute. eauto.
Defined.

(** ** [getEndpoint] without options *)

(** C10.  Called without an options object ([undefined], or [null]),
    [getEndpoint] raises a TypeError at [options.endpoint], the first
    statement that reads it: the defaulting [options = options || {}] comes
    later.  No amount of fuel makes such a call return a result. *)
Theorem getEndpoint_needs_options `{Collaborators}
    (fuel : nat) (s : DS) (ref : string) (this : obj) (attrs : value) :
  getEndpoint (S fuel) s ref this attrs VUndefined = Some (Throw TypeError, VUndefined)
  /\ getEndpoint (S fuel) s ref this attrs VNull = Some (Throw TypeError, VNull)
  /\ (forall r o, getEndpoint fuel s ref this attrs VUndefined <> Some (Ret r, o))
  /\ (forall r o, getEndpoint fuel s ref this attrs VNull <> Some (Ret r, o)).
Proof.
  repeat split; try reflexivity; intros r o; destruct fuel; simpl; congruence.
Qed.

(** ** The rollback *)

Lemma try_block_clobbered `{Collaborators} s definition name def dflt cs :
  try_block s definition name = (Clobbered def, dflt, cs) -> pascalCase name = "DS".
Proof.
  unfold try_block. intros Heq.
  repeat (case_match; try congruence); simplify_eq.
  by apply String.eqb_eq.
Qed.

(** What the [catch] block does restore: unless the wrapper class is named
    [DS], a registration that fails leaves [DS.definitions] and [DS.store]
    as they were. *)
Lemma rollback_restores_registry `{Collaborators} s definition name e s' :
  prop (named definition) "name" = VStr name ->
  pascalCase name <> "DS" ->
  definitions s !! name = None ->
  defineResource s definition = (Throw e, s') ->
  definitions s' = definitions s /\ store s' = store s.
Proof.
  intros Hname Hcls Hfresh. unfold defineResource. rewrite Hname.
  repeat (case_match; try congruence); intros; simplify_eq; simpl; try done.
  - split; [by apply delete_id|].
    apply delete_id.
    match goal with E : registry_has _ _ = false |- _ =>
      by apply registry_has_false in E as [? _] end.
  - exfalso. eauto using try_block_clobbered.
Qed.

(** C1 fails on the code: the [catch] block deletes the definition and the
    store entry, and leaves the cache that [DS.cacheFactory] registered.
    Here the definition of [user] declares the computed field [fullName]
    as the number 5; the loop over the computed fields raises a TypeError
    after the cache was made.  The cache [DS.user] then stays registered,
    and a second attempt with a sound definition is refused by the cache
    factory. *)
Theorem rollback_leaves_cache :
  let definition := VObj [("name", VStr "user"); ("computed", VObj [("fullName", VNum 5)])] in
  let r := defineResource empty_store definition in
  fst r = Throw TypeError
  /\ definitions (snd r) = definitions empty_store
  /\ store (snd r) = store empty_store
  /\ caches empty_store !! "DS.user" = None
  /\ is_Some (caches (snd r) !! "DS.user")
  /\ fst (defineResource (snd r) (VStr "user"))
     = Throw (CacheError "DS.user already exists!").
Proof.
  repeat split; try (vm_compute; reflexivity).
  vm_compute. eauto.
Qed.

(** ** What a successful registration leaves *)

Lemma defineResource_ret `{Collaborators} s definition def s' :
  defineResource s definition = (Ret def, s') ->
  exists name cacheId dflt cs,
    prop (named definition) "name" = VStr name
    /\ well_formed definition = true
    /\ store s !! name = None
    /\ try_block s (named definition) name = (Done def cacheId, dflt, cs)
    /\ s' = {| defaults := dflt;
               definitions := <[name := def]> (definitions s);
               store := <[to_string (proto_get def dflt "name") :=
                            new_store_entry cacheId]> (store s);
               caches := cs |}.
Proof.
  unfold defineResource.
  repeat (case_match; try congruence); intros; simplify_eq.
  do 4 eexists. repeat split; eauto.
  - unfold well_formed.
    repeat match goal with
           | E : negb _ = false |- _ => apply negb_false_iff in E; rewrite E
           | E : _ = _ |- _ => rewrite E
           end.
    reflexivity.
  - match goal with E : registry_has _ _ = false |- _ =>
      by apply registry_has_false in E as [? _] end.
Qed.

Lemma try_block_done `{Collaborators} s definition name def cacheId dflt cs :
  try_block s definition name = (Done def cacheId, dflt, cs) ->
  exists def0 dflt0 def1 def2,
    Resource (defaults s) definition = Ret (def0, dflt0)
    /\ setup_parent def0 dflt0 = Ret def1
    /\ cacheId = "DS." +:+ to_string (proto_get (before_cache name def1 dflt0) dflt0 "name")
    /\ cacheFactory cacheId (cache_options_for (before_cache name def1 dflt0) dflt0 name)
         (caches s) = Ret cs
    /\ is_identifier (pascalCase name) = true
    /\ pascalCase name <> "DS"
    /\ prepare_computed
         (apply_methods (pascalCase name)
            (wrapper_class (pascalCase name) (before_cache name def1 dflt0)) dflt0) dflt0
       = (Ret tt, def2, dflt)
    /\ def = finish_definition name (pascalCase name)
               (proto_get (apply_methods (pascalCase name)
                             (wrapper_class (pascalCase name) (before_cache name def1 dflt0))
                             dflt0) dflt0 "computed")
               def2.
Proof.
  unfold try_block. intros Heq.
  repeat (case_match; try congruence); simplify_eq.
  do 4 eexists. repeat split; eauto.
  - by apply negb_false_iff.
  - by apply String.eqb_neq.
  - match goal with u : unit |- _ => by destruct u end.
Qed.

Lemma lower_not_class `{Collaborators} k name :
  starts_lower k = true -> k <> pascalCase name.
Proof. intros Hk ->. by rewrite pascalCase_capital in Hk. Qed.

Lemma existsb_eqb_false k l :
  existsb (String.eqb k) l = false -> forall x, In x l -> k <> x.
Proof.
  intros Hl x Hx ->.
  assert (existsb (String.eqb x) l = true); [|congruence].
  apply existsb_exists. exists x. by rewrite String.eqb_refl.
Qed.

Lemma own_get_on_prototype k cls f def :
  k <> cls -> own_get k (on_prototype cls f def) = own_get k def.
Proof.
  intros Hne. unfold on_prototype.
  repeat case_match; try done. by apply own_get_set_ne.
Qed.

Lemma own_get_before_cache ref k def dflt :
  k <> "getEndpoint" -> k <> "defaultFilter" -> k <> "filter" ->
  own_get k (before_cache ref def dflt) = own_get k def.
Proof.
  intros H1 H2 H3. unfold before_cache, rename_filter.
  case_match.
  - by rewrite own_get_delete_ne, !own_get_set_ne.
  - by rewrite own_get_set_ne.
Qed.

Lemma own_get_wrapper_class k cls def :
  k <> "class" -> k <> cls -> own_get k (wrapper_class cls def) = own_get k def.
Proof. intros. unfold wrapper_class. by rewrite !own_get_set_ne. Qed.

Lemma prepare_computed_frame def dflt r def' dflt' :
  prepare_computed def dflt = (r, def', dflt') ->
  forall k, k <> "computed" ->
            own_get k def' = own_get k def /\ own_get k dflt' = own_get k dflt.
Proof.
  unfold prepare_computed. intros Heq k Hk.
  repeat (case_match; try congruence); simplify_eq;
    by rewrite ?own_get_set_ne.
Qed.

Lemma own_get_proxy_steps ref l k def :
  ~ In k l -> own_get k (fold_left (proxy_step ref) l def) = own_get k def.
Proof.
  revert def. induction l as [|m l IH]; intros def Hk; simpl; [done|].
  rewrite IH by (simpl in Hk; tauto).
  unfold proxy_step. assert (k <> m) by (simpl in Hk; intros ->; tauto).
  case_match; by rewrite own_get_set_ne.
Qed.

Lemma own_get_proxied ref l m def :
  In m l ->
  own_get m (fold_left (proxy_step ref) l def)
  = Some (VNative (if binds m then NProxyBind ref m else NProxy ref m)).
Proof.
  revert def. induction l as [|m' l IH]; intros def Hin; simpl; [done|].
  destruct (in_dec string_dec m l) as [Hl|Hl]; [by apply IH|].
  destruct Hin as [->|]; [|done].
  rewrite own_get_proxy_steps by done.
  unfold proxy_step. case_match; by rewrite own_get_set_eq.
Qed.

Lemma own_get_finish_definition k name cls computed def :
  k <> cls -> ~ In k methodsToProxy ->
  own_get k (finish_definition name cls computed def) = own_get k def.
Proof.
  intros Hcls Hk. unfold finish_definition, proxy_methods.
  rewrite own_get_proxy_steps by done.
  case_match; [by apply own_get_on_prototype | done].
Qed.

Lemma kept_elim k :
  kept k = true ->
  starts_lower k = true
  /\ k <> "getEndpoint" /\ k <> "defaultFilter" /\ k <> "filter"
  /\ k <> "class" /\ k <> "computed" /\ ~ In k methodsToProxy.
Proof.
  unfold kept. intros [Hl He]%andb_prop. apply negb_true_iff in He.
  pose proof (existsb_eqb_false _ _ He) as Hne.
  repeat split; try done; try (apply Hne; simpl; tauto).
  intros Hin. eapply Hne; [|reflexivity]. apply in_or_app. by right.
Qed.

(** A registration that succeeds: the properties that [kept] selects are
    those the parent configuration left, and [DS.defaults] changes at most
    in [computed] after the constructor [Resource]. *)
Lemma registration_keeps `{Collaborators} s definition name def cacheId dflt cs :
  try_block s definition name = (Done def cacheId, dflt, cs) ->
  exists def0 dflt0 def1,
    Resource (defaults s) definition = Ret (def0, dflt0)
    /\ setup_parent def0 dflt0 = Ret def1
    /\ (forall k, kept k = true -> own_get k def = own_get k def1)
    /\ (forall k, k <> "computed" -> own_get k dflt = own_get k dflt0).
Proof.
  intros (def0 & dflt0 & def1 & def2 & HR & HP & _ & _ & _ & _ & HC & ->)%try_block_done.
  exists def0, dflt0, def1. repeat split; try done.
  - intros k (Hl & H1 & H2 & H3 & H4 & H5 & H6)%kept_elim.
    pose proof (lower_not_class k name Hl) as Hcls.
    rewrite own_get_finish_definition by done.
    destruct (prepare_computed_frame _ _ _ _ _ HC k H5) as [-> _].
    unfold apply_methods. rewrite own_get_on_prototype by done.
    rewrite own_get_wrapper_class by done.
    by apply own_get_before_cache.
  - intros k Hk. by destruct (prepare_computed_frame _ _ _ _ _ HC k Hk) as [_ ->].
Qed.

(** ** The shorthand methods *)

Lemma registered_class `{Collaborators} s definition name def cacheId dflt cs :
  try_block s definition name = (Done def cacheId, dflt, cs) ->
  own_get "class" def = Some (VStr (pascalCase name)).
Proof.
  intros (? & dflt0 & def1 & def2 & _ & _ & _ & _ & _ & _ & HC & ->)%try_block_done.
  assert (Hcls : "class" <> pascalCase name) by by apply lower_not_class.
  rewrite own_get_finish_definition; [|done|by vm_compute; intuition discriminate].
  destruct (prepare_computed_frame _ _ _ _ _ HC "class") as [-> _]; [done|].
  unfold apply_methods, wrapper_class. rewrite own_get_on_prototype by done.
  by rewrite own_get_set_ne, own_get_set_eq.
Qed.

(** C6, as amended.  After a registration whose wrapper class is not named
    [Array], every name [m] of [methodsToProxy] is bound on the definition
    to a closure of that definition.  In any store [t] that holds the
    definition, its call with [args] is the engine's [m] called with the
    resource name put in front of [args]; for [bindOne] and [bindAll] the
    name is put after the first two arguments instead, and last when fewer
    than two are passed. *)
Theorem shorthand_forwards `{Collaborators}
    (s : DS) (definition : value) (def : obj) (s' : DS)
    (m : string) (args : list value)
    (Hreg : defineResource s definition = (Ret def, s'))
    (Hclass : own_get "class" def <> Some (VStr "Array"))
    (Hm : In m methodsToProxy) :
  exists n ref,
    own_get m def = Some (VNative n)
    /\ definitions s' !! ref = Some def
    /\ forall (t : DS) (d : obj),
         definitions t !! ref = Some d ->
         shorthand_call n args t
         = Some (DS_method m
                   (if binds m
                    then take 2 args ++ proto_get d (defaults t) "name" :: drop 2 args
                    else proto_get d (defaults t) "name" :: args) t).
Proof.
  apply defineResource_ret in Hreg as (name & cacheId & dflt & cs & _ & _ & _ & Htry & ->).
  pose proof (registered_class _ _ _ _ _ _ _ Htry) as Hcls.
  assert (Harr : String.eqb (pascalCase name) "Array" = false).
  { apply String.eqb_neq. intros Heq. apply Hclass. by rewrite Hcls, Heq. }
  apply try_block_done in Htry as (? & ? & ? & def2 & _ & _ & _ & _ & _ & _ & _ & ->).
  eexists _, name. split; [|split].
  - unfold finish_definition, proxy_methods. by apply own_get_proxied.
  - cbn [definitions]. by rewrite lookup_insert_eq.
  - intros t d Hd.
    destruct (binds m); cbn [shorthand_call];
      unfold proxy_call, proxy_bind_call, arguments_array, splice2;
      rewrite Harr, Hd; reflexivity.
Qed.

Lemma shorthand_forwards_witness :
  exists n ref,
    own_get "bindOne" user_def = Some (VNative n)
    /\ definitions user_store !! ref = Some user_def
    /\ forall (t : DS) (d : obj),
         definitions t !! ref = Some d ->
         shorthand_call n [VNum 1; VStr "expr"; VNum 5] t
         = Some (DS_method "bindOne"
                   (if binds "bindOne"
                    then take 2 [VNum 1; VStr "expr"; VNum 5]
                         ++ proto_get d (defaults t) "name"
                         :: drop 2 [VNum 1; VStr "expr"; VNum 5]
                    else proto_get d (defaults t) "name"
                         :: [VNum 1; VStr "expr"; VNum 5]) t).
Proof.
  apply (shorthand_forwards empty_store (VStr "user") user_def user_store "bindOne").
  - vm_compute. reflexivity.
  - vm_compute. discriminate.
  - vm_compute. tauto.
Defined.

(** C6 as stated fails for [bindOne] called with one argument: the engine
    receives the resource name as its second argument, and no third.  It
    also fails for every shorthand of a resource named [array]: the
    wrapper class [Array] stands in the closure for the global [Array],
    and [Array.prototype.slice] is undefined. *)
Lemma bindOne_short_arguments :
  (exists received,
      fst (proxy_bind_call "user" "bindOne" [VNum 1] user_store)
      = Ret (VArr (VStr "bindOne" :: received) [])
      /\ received !! 1%nat = Some (VStr "user")
      /\ received !! 2%nat = None)
  /\ (let r := defineResource empty_store (VStr "array") in
      exists def,
        fst r = Ret def
        /\ own_get "find" def = Some (VNative (NProxy "array" "find"))
        /\ fst (proxy_call "array" "find" [VNum 5] (snd r)) = Throw TypeError).
Proof.
  split.
  - exists [VNum 1; VStr "user"]. by vm_compute.
  - eexists. by vm_compute.
Qed.

(** ** The parent of a resource *)

Lemma last_map {A B} (f : A -> B) l : last (List.map f l) = f <$> last l.
Proof.
  induction l as [|x l IH]; [done|].
  simpl List.map. rewrite !last_cons, IH. by destruct (last l).
Qed.

Lemma relation_step_cases modelName def r def1 :
  relation_step modelName def r = Ret def1 ->
  (truthy (prop r "parent") = true
   /\ def1 = own_set "parentKey" (prop r "localKey")
               (own_set "parent" (VStr modelName) def))
  \/ (truthy (prop r "parent") = false /\ def1 = def).
Proof.
  unfold relation_step, prop.
  destruct (get_prop r "parent") as [p|]; [|done]. simpl.
  destruct (truthy p) eqn:Hp.
  - destruct (get_prop r "localKey") as [lk|]; [|done]. simpl.
    intros; simplify_eq. by left.
  - intros; simplify_eq. by right.
Qed.

Lemma relation_steps modelName rs : forall def def',
  foldM (relation_step modelName) def rs = Ret def' ->
  (forall k, k <> "parent" -> k <> "parentKey" -> own_get k def' = own_get k def)
  /\ match last (List.filter (fun r => truthy (prop r "parent")) rs) with
     | Some r => own_get "parent" def' = Some (VStr modelName)
                 /\ own_get "parentKey" def' = Some (prop r "localKey")
     | None => def' = def
     end.
Proof.
  induction rs as [|r rs IH]; intros def def' Hfold.
  { simpl in *. by simplify_eq. }
  cbn [foldM] in Hfold.
  destruct (relation_step modelName def r) as [def1|] eqn:Hstep; [|done].
  simpl in Hfold. apply IH in Hfold as [Hframe Hlast].
  cbn [List.filter].
  apply relation_step_cases in Hstep as [[Hp ->]|[Hp ->]]; rewrite Hp.
  - split.
    + intros k H1 H2. rewrite Hframe by done. by rewrite !own_get_set_ne.
    + rewrite last_cons.
      destruct (last (List.filter _ rs)); [done|]. subst def'.
      split; [|by rewrite own_get_set_eq].
      by rewrite own_get_set_ne, own_get_set_eq.
  - done.
Qed.

Lemma belongsTo_steps entries : forall def def',
  foldM belongsTo_step def entries = Ret def' ->
  (forall k, k <> "parent" -> k <> "parentKey" -> own_get k def' = own_get k def)
  /\ match last (flat_map
                   (fun kv =>
                      List.map (fun r => (fst kv, prop r "localKey"))
                        (List.filter (fun r => truthy (prop r "parent"))
                           (relations_of (snd kv))))
                   entries) with
     | Some (m, lk) => own_get "parent" def' = Some (VStr m)
                       /\ own_get "parentKey" def' = Some lk
     | None => def' = def
     end.
Proof.
  induction entries as [|kv entries IH]; intros def def' Hfold; simpl in *.
  { by simplify_eq. }
  destruct (belongsTo_step def kv) as [def1|] eqn:Hstep; [|done].
  simpl in Hfold. apply IH in Hfold as [Hframe Hlast].
  apply relation_steps in Hstep as [Hframe1 Hlast1].
  split.
  - intros k H1 H2. rewrite Hframe by done. by apply Hframe1.
  - rewrite last_app.
    destruct (last (flat_map _ entries)) as [[m lk]|]; [done|]. subst def'.
    rewrite last_map. by destruct (last (List.filter _ _)).
Qed.

Lemma setup_parent_last def dflt def' :
  setup_parent def dflt = Ret def' ->
  (forall k, k <> "parent" -> k <> "parentKey" -> own_get k def' = own_get k def)
  /\ match last (parents_declared (prop (proto_get def dflt "relations") "belongsTo")) with
     | Some (m, lk) => own_get "parent" def' = Some (VStr m)
                       /\ own_get "parentKey" def' = Some lk
     | None => def' = def
     end.
Proof.
  unfold setup_parent, parents_declared, prop. intros Hs.
  destruct (truthy (proto_get def dflt "relations")) eqn:Hr.
  - destruct (get_prop (proto_get def dflt "relations") "belongsTo") as [b|]; [|done].
    simpl in Hs. destruct (truthy b) eqn:Hb.
    + by apply belongsTo_steps.
    + simplify_eq. by destruct b as [| | | |[|]| | | | |].
  - simplify_eq. by destruct (proto_get def' dflt "relations") as [| | | |[|]| | | | |].
Qed.



(** ** The constructor [Resource] *)

Lemma copyProp_other k this dflt k' v this' dflt' :
  k <> k' ->
  copyProp (this, dflt) (k', v) = (this', dflt') ->
  own_get k this' = own_get k this /\ own_get k dflt' = own_get k dflt.
Proof.
  intros Hne. unfold copyProp.
  repeat case_match; intros; simplify_eq; by rewrite ?own_get_set_ne.
Qed.

Lemma copyProp_assigned k v this dflt :
  assigned k v this dflt ->
  copyProp (this, dflt) (k, v) = (own_set k v this, dflt).
Proof.
  unfold copyProp. intros [Hv|[Hown Hd]].
  - by destruct v.
  - rewrite Hown. destruct v; try done.
    destruct (own_get k dflt) as [[]|] eqn:E; try done. by destruct (Hd props0).
Qed.

Lemma copyProps_other entries : forall this dflt this' dflt' k,
  own_has k entries = false ->
  fold_left copyProp entries (this, dflt) = (this', dflt') ->
  own_get k this' = own_get k this /\ own_get k dflt' = own_get k dflt.
Proof.
  induction entries as [|[k0 v0] entries IH]; intros this dflt this' dflt' k Hk Hfold.
  { simpl in Hfold. by simplify_eq. }
  cbn [fold_left] in Hfold. unfold own_has in Hk. cbn [own_get] in Hk.
  destruct (String.eqb k k0) eqn:E; [done|]. apply String.eqb_neq in E.
  destruct (copyProp (this, dflt) (k0, v0)) as [this1 dflt1] eqn:Hstep.
  apply (copyProp_other k) in Hstep as [<- <-]; [|done].
  by apply IH.
Qed.

Lemma copyProps_assigned entries : forall this dflt this' dflt' k v,
  nodup_keys entries = true ->
  own_get k entries = Some v ->
  assigned k v this dflt ->
  fold_left copyProp entries (this, dflt) = (this', dflt') ->
  own_get k this' = Some v.
Proof.
  induction entries as [|[k0 v0] entries IH];
    intros this dflt this' dflt' k v Hnd Hk Ha Hfold; [done|].
  cbn [fold_left nodup_keys own_get] in *.
  apply andb_prop in Hnd as [Hfresh Hnd]. apply negb_true_iff in Hfresh.
  destruct (String.eqb k k0) eqn:E.
  - apply String.eqb_eq in E as ->. simplify_eq.
    rewrite copyProp_assigned in Hfold by done.
    apply (copyProps_other _ _ _ _ _ k0) in Hfold as [-> _]; [|done].
    by rewrite own_get_set_eq.
  - apply String.eqb_neq in E.
    destruct (copyProp (this, dflt) (k0, v0)) as [this1 dflt1] eqn:Hstep.
    apply (copyProp_other k) in Hstep as [H1 H2]; [|done].
    apply (IH this1 dflt1 this' dflt' k v); [done|done| |done].
    destruct Ha as [Ha|[Ha1 Ha2]]; [by left|right].
    by rewrite H1, H2.
Qed.

Lemma Resource_object dflt o def0 dflt0 :
  Resource dflt (VObj o) = Ret (def0, dflt0) ->
  exists this,
    fold_left copyProp o ([], dflt) = (this, dflt0)
    /\ def0 = own_set "endpoint"
                (match own_get "endpoint" o with
                 | Some e => e
                 | None => proto_get this dflt0 "name"
                 end) this.
Proof.
  unfold Resource. simpl.
  destruct (fold_left copyProp o ([], dflt)) as [this dflt'] eqn:Hfold.
  unfold own_has. simpl.
  destruct (own_get "endpoint" o); simpl; intros; simplify_eq; eauto.
Qed.

(** C9.  The definition that a registration returns has for endpoint the
    endpoint of the input when the input has one, and the name of the
    resource otherwise; its idAttribute is the input's when the input has
    one, and the one inherited from the global defaults otherwise. *)
Theorem endpoint_defaults_to_name `{Collaborators}
    (s : DS) (definition : value) (o : obj) (def : obj) (s' : DS)
    (Hobj : named definition = VObj o)
    (Hnodup : nodup_keys o = true)
    (Hreg : defineResource s definition = (Ret def, s')) :
  exists name,
    own_get "name" o = Some (VStr name)
    /\ definitions s' !! name = Some def
    /\ own_get "name" def = Some (VStr name)
    /\ own_get "endpoint" def
       = Some (match own_get "endpoint" o with
               | Some e => e
               | None => VStr name
               end)
    /\ proto_get def (defaults s') "idAttribute"
       = match own_get "idAttribute" o with
         | Some i => i
         | None => default VUndefined (own_get "idAttribute" (defaults s))
         end.
Proof.
  apply defineResource_ret in Hreg as (name & cacheId & dflt & cs & Hname & Hwf & _ & Htry & ->).
  apply registration_keeps in Htry as (def0 & dflt0 & def1 & HR & Hpar & Hkept & Hdflt).
  apply setup_parent_last in Hpar as [Hframe _].
  unfold well_formed in Hwf. rewrite Hobj in *.
  apply Resource_object in HR as (this & Hfold & ->).
  assert (Hn : own_get "name" o = Some (VStr name)).
  { unfold prop in Hname. simpl in Hname.
    destruct (own_get "name" o) as [v|]; simpl in Hname; [by subst | done]. }
  assert (Hthis : own_get "name" this = Some (VStr name)).
  { eapply copyProps_assigned; eauto. by left. }
  exists name. cbn [definitions defaults]. repeat split.
  - done.
  - by rewrite lookup_insert_eq.
  - rewrite Hkept, Hframe by done. by rewrite own_get_set_ne.
  - rewrite Hkept, Hframe by done. rewrite own_get_set_eq.
    unfold proto_get. by rewrite Hthis.
  - unfold proto_get. rewrite Hkept, Hframe, Hdflt by done.
    rewrite own_get_set_ne by done.
    destruct (own_get "idAttribute" o) as [i|] eqn:Hi.
    + erewrite copyProps_assigned; eauto. left.
      apply andb_prop in Hwf as [[_ Hid]%andb_prop _].
      unfold prop in Hid. simpl in Hid. rewrite Hi in Hid. simpl in Hid.
      by destruct i.
    + apply (copyProps_other _ _ _ _ _ "idAttribute") in Hfold as [-> ->]; [done|].
      unfold own_has. by rewrite Hi.
Qed.

Lemma endpoint_defaults_to_name_witness :
  exists name,
    own_get "name" [("name", VStr "user")] = Some (VStr name)
    /\ definitions user_store !! name = Some user_def
    /\ own_get "name" user_def = Some (VStr name)
    /\ own_get "endpoint" user_def
       = Some (match own_get "endpoint" [("name", VStr "user")] with
               | Some e => e
               | None => VStr name
               end)
    /\ proto_get user_def (defaults user_store) "idAttribute"
       = match own_get "idAttribute" [("name", VStr "user")] with
         | Some i => i
         | None => default VUndefined (own_get "idAttribute" (defaults empty_store))
         end.
Proof.
  apply (endpoint_defaults_to_name empty_store (VStr "user") [("name", VStr "user")]
           user_def user_store).
  - reflexivity.
  - reflexivity.
  - vm_compute. reflexivity.
Defined.

(** ** One registration per name *)

Lemma registered_under_name `{Collaborators} s definition o def s' :
  named definition = VObj o ->
  nodup_keys o = true ->
  defineResource s definition = (Ret def, s') ->
  exists name,
    own_get "name" o = Some (VStr name)
    /\ own_get "name" def = Some (VStr name)
    /\ definitions s' !! name = Some def
    /\ is_Some (store s' !! name).
Proof.
  intros Hobj Hnodup Hreg.
  apply defineResource_ret in Hreg as (name & cacheId & dflt & cs & Hname & _ & _ & Htry & ->).
  apply registration_keeps in Htry as (def0 & dflt0 & def1 & HR & Hpar & Hkept & _).
  apply setup_parent_last in Hpar as [Hframe _].
  rewrite Hobj in *.
  apply Resource_object in HR as (this & Hfold & ->).
  assert (Hn : own_get "name" o = Some (VStr name)).
  { unfold prop in Hname. simpl in Hname.
    destruct (own_get "name" o) as [v|]; simpl in Hname; [by subst | done]. }
  assert (Hdef : own_get "name" def = Some (VStr name)).
  { rewrite Hkept, Hframe by done. rewrite own_get_set_ne by done.
    eapply copyProps_assigned; [done|done| |done]. by left. }
  exists name. cbn [definitions store]. repeat split; try done.
  - by rewrite lookup_insert_eq.
  - unfold proto_get. rewrite Hdef. cbn [to_string]. rewrite lookup_insert_eq. eauto.
Qed.

(** After a registration, a second one under the same name is refused and
    changes nothing. *)
Lemma second_registration_refused `{Collaborators} s definition o def s' again name :
  named definition = VObj o ->
  nodup_keys o = true ->
  defineResource s definition = (Ret def, s') ->
  own_get "name" o = Some (VStr name) ->
  well_formed again = true ->
  prop (named again) "name" = VStr name ->
  defineResource s' again
  = (Throw (RuntimeError (errorPrefix +:+ name +:+ " is already registered!")), s').
Proof.
  intros Hobj Hnodup Hreg Hname Hwf Hagain.
  destruct (registered_under_name _ _ _ _ _ Hobj Hnodup Hreg) as (n & Hn & _ & _ & Hs).
  rewrite Hname in Hn. simplify_eq. by apply registered_name_rejected.
Qed.

(** A resource named [DS]: the wrapper class takes the place of the local
    variable [DS], the [try] block and then the [catch] block raise a
    TypeError, and the definition stays registered without a store entry. *)
Example resource_named_DS :
  let r := defineResource empty_store (VStr "DS") in
  fst r = Throw TypeError
  /\ is_Some (definitions (snd r) !! "DS")
  /\ store (snd r) !! "DS" = None
  /\ is_Some (caches (snd r) !! "DS.DS").
Proof. repeat split; vm_compute; eauto. Qed.

(** ** The expiry handler *)

Lemma DS_eject_registry `{Collaborators} s resourceName key :
  defaults (snd (DS_eject s resourceName key)) = defaults s
  /\ definitions (snd (DS_eject s resourceName key)) = definitions s.
Proof. unfold DS_eject. by destruct (store s !! resourceName). Qed.

Lemma DS_eject_item `{Collaborators} s resourceName key e :
  store s !! resourceName = Some e ->
  fst (DS_eject s resourceName key)
  = match List.find
            (has_key (to_string (proto_get (default [] (definitions s !! resourceName))
                                   (defaults s) "idAttribute")) key)
            (collection e) with
    | Some r => r
    | None => DS_get s resourceName key
    end.
Proof. intros He. unfold DS_eject. by rewrite He. Qed.

Lemma DS_get_ejected `{Collaborators} s resourceName key :
  DS_get (snd (DS_eject s resourceName key)) resourceName key = VUndefined.
Proof.
  unfold DS_eject.
  destruct (store s !! resourceName) as [e|] eqn:Hs;
    [|by cbn [snd]; unfold DS_get; rewrite Hs].
  unfold DS_get. cbn [snd store caches]. rewrite lookup_insert_eq. cbn [index].
  rewrite lookup_alter_eq. destruct (caches s !! index e); simpl;
    by rewrite ?lookup_delete_eq.
Qed.

Lemma filter_out_none {A} (f : A -> bool) l :
  existsb f (List.filter (fun x => negb (f x)) l) = false.
Proof.
  induction l as [|x l IH]; [done|]. cbn [List.filter].
  destruct (f x) eqn:E; cbn [negb existsb]; [done|]. by rewrite E.
Qed.

(** C5.  The handler that the cache of a registered resource runs when the
    entry under [id] expires ejects the record of that key, and then calls
    the definition's [onExpire], when that is a function, with the key and
    the ejected record.  The ejected record is the one that the collection
    of the resource holds under the key, that is, whose [idAttribute]
    property prints as the key (the index has dropped it when the entry
    expired).  In the store as the ejection leaves it, which is the
    store the callback starts from and the final one without a callback,
    the collection holds the records it held but those of that key, the
    bookkeeping maps have no entry for the key, and [get] on the key
    returns nothing.  The resource is registered: it has a definition
    under [ref] and a store entry under its name, and its class is not
    named [DS] (the registration of such a name does not complete). *)
Theorem expiry_ejects `{Collaborators}
    (s : DS) (ref : string) (def : obj) (id : value) (e : StoreEntry)
    (Hreg : definitions s !! ref = Some def)
    (Hclass : pascalCase ref <> "DS")
    (Hentry : store s !! to_string (proto_get def (defaults s) "name") = Some e) :
  let name := to_string (proto_get def (defaults s) "name") in
  let key := to_string id in
  let idAttribute :=
    to_string (proto_get (default [] (definitions s !! name)) (defaults s) "idAttribute") in
  let held r := String.eqb (to_string (prop r idAttribute)) key in
  let item :=
    match List.find held (collection e) with
    | Some r => r
    | None => DS_get s name key
    end in
  let s1 := snd (DS_eject s name key) in
  let callback := proto_get def (defaults s) "onExpire" in
  onExpire_handler ref id s
  = (if isFunction callback
     then match call_fn callback (VObj def) [id; item] s1 with
          | (Ret _, s2) => (Ret VUndefined, s2)
          | (Throw e, s2) => (Throw e, s2)
          end
     else (Ret VUndefined, s1))
  /\ (exists e1,
        store s1 !! name = Some e1
        /\ collection e1 = List.filter (fun r => negb (held r)) (collection e)
        /\ existsb held (collection e1) = false
        /\ own_get key (modified e1) = None
        /\ own_get key (saved e1) = None
        /\ own_get key (previousAttributes e1) = None
        /\ own_get key (observers e1) = None
        /\ own_get key (pendingQueries e1) = None
        /\ own_get key (completedQueries e1) = None)
  /\ DS_get s1 name key = VUndefined
  /\ defaults s1 = defaults s
  /\ definitions s1 = definitions s.
Proof.
  cbv zeta. split; [|split; [|split]].
  - unfold onExpire_handler. rewrite Hreg.
    apply String.eqb_neq in Hclass. rewrite Hclass.
    pose proof (DS_eject_registry s (to_string (proto_get def (defaults s) "name"))
                  (to_string id)) as [Hd _].
    pose proof (DS_eject_item s _ (to_string id) e Hentry) as Hitem.
    destruct (DS_eject s (to_string (proto_get def (defaults s) "name")) (to_string id))
      as [i s1'].
    cbn [fst snd] in *. by rewrite Hd, Hitem.
  - unfold DS_eject. rewrite Hentry. cbn [snd store].
    rewrite lookup_insert_eq. eexists. split; [done|]. cbn.
    split; [done|].
    split; [apply (filter_out_none (has_key _ (to_string id)))|].
    by rewrite !own_get_delete_eq.
  - apply DS_get_ejected.
  - apply DS_eject_registry.
Qed.

Lemma expiry_ejects_witness :
  let s := session_store_expired in
  let def := session_def in
  let e := default (new_store_entry "") (store session_store_expired !! "session") in
  let id := VStr "t1" in
  let name := to_string (proto_get def (defaults s) "name") in
  let key := to_string id in
  let idAttribute :=
    to_string (proto_get (default [] (definitions s !! name)) (defaults s) "idAttribute") in
  let held r := String.eqb (to_string (prop r idAttribute)) key in
  let item :=
    match List.find held (collection e) with
    | Some r => r
    | None => DS_get s name key
    end in
  let s1 := snd (DS_eject s name key) in
  let callback := proto_get def (defaults s) "onExpire" in
  onExpire_handler "session" id s
  = (if isFunction callback
     then match call_fn callback (VObj def) [id; item] s1 with
          | (Ret _, s2) => (Ret VUndefined, s2)
          | (Throw e, s2) => (Throw e, s2)
          end
     else (Ret VUndefined, s1))
  /\ (exists e1,
        store s1 !! name = Some e1
        /\ collection e1 = List.filter (fun r => negb (held r)) (collection e)
        /\ existsb held (collection e1) = false
        /\ own_get key (modified e1) = None
        /\ own_get key (saved e1) = None
        /\ own_get key (previousAttributes e1) = None
        /\ own_get key (observers e1) = None
        /\ own_get key (pendingQueries e1) = None
        /\ own_get key (completedQueries e1) = None)
  /\ DS_get s1 name key = VUndefined
  /\ defaults s1 = defaults s
  /\ definitions s1 = definitions s.
Proof.
  apply (expiry_ejects session_store_expired "session" session_def (VStr "t1")
           (default (new_store_entry "") (store session_store_expired !! "session"))).
  - vm_compute. reflexivity.
  - vm_compute. discriminate.
  - vm_compute. reflexivity.
Defined.

(** The expiry of the entry of [t1]: the cache has dropped it, the
    collection holds the record; the handler's ejection returns the record
    and empties the collection. *)
Example expired_token_is_ejected :
  DS_get session_store_expired "session" "t1" = VUndefined
  /\ (collection <$> store session_store_expired !! "session") = Some [token]
  /\ fst (DS_eject session_store_expired "session" "t1") = token
  /\ (collection <$> store (snd (DS_eject session_store_expired "session" "t1"))
                        !! "session") = Some [].
Proof. by vm_compute. Qed.

Example token_is_held :
  DS_get session_store_with_token "session" "t1" = token
  /\ fst (DS_eject session_store_with_token "session" "t1") = token.
Proof. by vm_compute. Qed.

(** The cache that a registration makes carries the handler of the new
    definition, and the new store entry holds that cache as its index. *)
Lemma registration_installs_handler `{Collaborators} s definition def s' :
  defineResource s definition = (Ret def, s') ->
  exists name cacheId c,
    definitions s' !! name = Some def
    /\ store s' !! to_string (proto_get def (defaults s') "name")
       = Some (new_store_entry cacheId)
    /\ caches s' !! cacheId = Some c
    /\ onExpire (cache_options c) = NOnExpire name
    /\ cache_data c = ∅.
Proof.
  intros (name & cacheId & dflt & cs & _ & _ & _ & Htry & ->)%defineResource_ret.
  apply try_block_done in Htry as (? & ? & ? & ? & _ & _ & _ & Hc & _).
  unfold cacheFactory in Hc. repeat case_match; simplify_eq.
  eexists name, cacheId, _. cbn [definitions store caches defaults].
  rewrite !lookup_insert_eq. by repeat split.
Qed.

(** ** Computed properties *)

Lemma mapM_trim l deps :
  mapM trim_value l = Ret deps ->
  deps = List.map (fun v => match v with VStr x => VStr (trim x) | _ => v end) l.
Proof.
  revert deps. induction l as [|v l IH]; intros deps Hm; simpl in Hm.
  { by simplify_eq. }
  destruct v; try done. simpl in Hm.
  destruct (mapM trim_value l) as [d|]; [|done]. simpl in Hm. simplify_eq.
  simpl. f_equal. by apply IH.
Qed.

Lemma single_element (x : value) p : elem_or_prop [x] p "0" = x.
Proof. reflexivity. Qed.

Lemma array_length l p : elem_or_prop l p "length" = VNum (Z.of_nat (List.length l)).
Proof. reflexivity. Qed.

Lemma record_deps_array o field l p c' :
  record_deps (VObj o) field (VArr l p) = Ret c' ->
  exists p', c' = VObj (own_set field (VArr l p') o)
             /\ own_get "deps" p' = Some (VArr (trimmed_names (removelast l)) []).
Proof.
  unfold record_deps.
  destruct (mapM trim_value (removelast l)) as [deps|] eqn:Hm; [|done].
  simpl. intros; simplify_eq. eexists. split; [done|].
  rewrite own_get_set_eq. unfold trimmed_names. by rewrite (mapM_trim _ _ Hm).
Qed.

Lemma parameter_names_ret x deps :
  parameter_names x = Ret deps ->
  exists m, match_params (to_string x) = Some m /\ deps = List.map VStr (split_comma m).
Proof.
  unfold parameter_names. intros Hp.
  destruct (match_params (to_string x)) as [m|] eqn:Hm.
  - exists m. split; [done|]. by destruct x; simplify_eq.
  - by destruct x.
Qed.

Lemma own_set_set {A} k (v w : A) o : own_set k w (own_set k v o) = own_set k w o.
Proof.
  induction o as [|[k' v'] o IH]; simpl.
  - by rewrite String.eqb_refl.
  - destruct (String.eqb k k') eqn:E; simpl; rewrite E; [done | by rewrite IH].
Qed.

Lemma expand_single_one c field x p :
  expand_single c field (VArr [x] p)
  = (deps ← parameter_names x;
     Ret (set_prop c field (VArr (deps ++ [x]) []), VArr (deps ++ [x]) [])).
Proof. reflexivity. Qed.

Lemma expand_single_many c field l p :
  List.length l <> 1%nat -> expand_single c field (VArr l p) = Ret (c, VArr l p).
Proof.
  intros Hl. unfold expand_single. cbn [get_prop mbind outcome_bind].
  rewrite array_length.
  replace (is_number (VNum (Z.of_nat (List.length l))) 1) with false; [done|].
  symmetry. unfold is_number. apply Z.eqb_neq. lia.
Qed.

(** The end of the callback: the goal is about [record_deps] on an array. *)
Ltac record_deps_on_array :=
  let c3 := fresh "c3" in
  let Hr := fresh "Hr" in
  let p' := fresh "p'" in
  let Hdeps := fresh "Hdeps" in
  destruct (record_deps _ _ _) as [c3|] eqn:Hr; [|done];
  apply record_deps_array in Hr as (p' & -> & Hdeps);
  intros; simplify_eq; rewrite ?own_set_set;
  do 2 eexists; (split; [done|]); (split; [done|]).

(** The names read in the source text of [x]. *)
Ltac parameter_names_of x :=
  let deps := fresh "deps" in
  let Hp := fresh "Hp" in
  let m := fresh "m" in
  let Hm := fresh "Hm" in
  destruct (parameter_names x) as [deps|] eqn:Hp; [|done];
  apply parameter_names_ret in Hp as (m & Hm & ->);
  cbn [mbind outcome_bind set_prop].

Lemma computed_field_prepared methods o field decl c' :
  own_get field o = Some decl ->
  isFunction decl = true \/ isArray decl = true ->
  computed_field methods (VObj o) field = (Ret tt, c') ->
  exists l p, c' = VObj (own_set field (VArr l p) o) /\ prepared decl l p.
Proof.
  intros Hdecl Hshape. unfold computed_field, prepared.
  cbn [get_prop]. rewrite Hdecl. cbn [default from_option id].
  unfold wrap_function.
  destruct (if truthy methods then has_prop field methods else Ret false); [|by case_match].
  destruct Hshape as [Hf|Ha].
  - rewrite Hf, expand_single_one.
    parameter_names_of decl. record_deps_on_array.
    destruct decl; try done; eauto.
  - destruct decl as [| | | | | | | |l0 p0|]; try done. cbn [isFunction].
    destruct l0 as [|x [|y l0]].
    + rewrite expand_single_many by done. by record_deps_on_array.
    + rewrite expand_single_one.
      parameter_names_of x. record_deps_on_array. eauto.
    + rewrite expand_single_many by done. by record_deps_on_array.
Qed.

Lemma differs_at_refl field o : differs_at field o (VObj o).
Proof. by exists o. Qed.

Lemma differs_at_set field o o' v :
  differs_at field o (VObj o') -> differs_at field o (VObj (own_set field v o')).
Proof.
  intros (? & [= <-] & Ho). eexists. split; [done|].
  intros k Hk. rewrite own_get_set_ne by done. by apply Ho.
Qed.

Lemma wrap_function_other field o fn c1 fn1 :
  wrap_function (VObj o) field fn = (c1, fn1) -> differs_at field o c1.
Proof.
  unfold wrap_function. case_match; intros; simplify_eq.
  - apply differs_at_set, differs_at_refl.
  - apply differs_at_refl.
Qed.

Lemma expand_single_other field o o1 fn c2 fn2 :
  differs_at field o (VObj o1) ->
  expand_single (VObj o1) field fn = Ret (c2, fn2) -> differs_at field o c2.
Proof.
  unfold expand_single. intros Ho.
  destruct (get_prop fn "length") as [len|]; [|done]. cbn [mbind outcome_bind].
  destruct (is_number len 1); [|by intros; simplify_eq].
  destruct (get_prop fn "0") as [x|]; [|done]. cbn [mbind outcome_bind].
  destruct (parameter_names x) as [deps|]; [|done]. cbn [mbind outcome_bind set_prop].
  intros; simplify_eq. by apply differs_at_set.
Qed.

Lemma record_deps_other field o o2 fn c3 :
  differs_at field o (VObj o2) ->
  record_deps (VObj o2) field fn = Ret c3 -> differs_at field o c3.
Proof.
  unfold record_deps. intros Ho.
  destruct fn; try done; [by intros; simplify_eq|].
  destruct (mapM trim_value (removelast elems)); [|done]. cbn [mbind outcome_bind set_prop].
  intros; simplify_eq. by apply differs_at_set.
Qed.

Lemma computed_field_other methods o field r c' :
  computed_field methods (VObj o) field = (r, c') -> differs_at field o c'.
Proof.
  unfold computed_field. cbn [get_prop].
  destruct (wrap_function (VObj o) field (default VUndefined (own_get field o)))
    as [c1 fn1] eqn:Hw.
  apply wrap_function_other in Hw as Hd1. destruct Hd1 as (o1 & -> & Ho1).
  assert (H1 : differs_at field o (VObj o1)) by by exists o1.
  destruct (if truthy methods then has_prop field methods else Ret false);
    [|by intros; simplify_eq].
  destruct (expand_single (VObj o1) field fn1) as [[c2 fn2]|] eqn:He;
    [|by intros; simplify_eq].
  apply (expand_single_other _ _ _ _ _ _ H1) in He as Hd2.
  destruct Hd2 as (o2 & -> & Ho2).
  assert (H2 : differs_at field o (VObj o2)) by by exists o2.
  destruct (record_deps (VObj o2) field fn2) as [c3|] eqn:Hr;
    [|by intros; simplify_eq].
  intros; simplify_eq. eauto using record_deps_other.
Qed.

Lemma computed_fields_prepared methods fields : forall o c',
  NoDup fields ->
  computed_fields methods (VObj o) fields = (Ret tt, c') ->
  exists o',
    c' = VObj o'
    /\ (forall k, ~ In k fields -> own_get k o' = own_get k o)
    /\ (forall k decl,
           In k fields -> own_get k o = Some decl ->
           isFunction decl = true \/ isArray decl = true ->
           exists l p, own_get k o' = Some (VArr l p) /\ prepared decl l p).
Proof.
  induction fields as [|f fields IH]; intros o c' Hnd Hc; cbn [computed_fields] in Hc.
  { simplify_eq. exists o. split; [done|]. split; [done|]. by intros ? ? []. }
  apply NoDup_cons in Hnd as [Hf Hnd].
  destruct (computed_field methods (VObj o) f) as [[[]|e] c1] eqn:Hstep; [|done].
  pose proof (computed_field_other _ _ _ _ _ Hstep) as (o1 & -> & Ho1).
  apply IH in Hc as (o' & -> & Hout & Hin); [|done].
  exists o'. split; [done|]. split.
  - intros k Hk. rewrite Hout by (simpl in Hk; tauto).
    apply Ho1. intros ->. apply Hk. by left.
  - intros k decl [<-|Hk] Hdecl Hshape.
    + apply (computed_field_prepared _ _ _ _ _ Hdecl Hshape) in Hstep
        as (l & p & [= ->] & Hprep).
      exists l, p. split; [|done].
      rewrite Hout; [by rewrite own_get_set_eq|].
      by intros ?%list_elem_of_In.
    + apply (Hin k decl); [done| |done].
      rewrite Ho1; [done|]. intros ->. by apply Hf, list_elem_of_In.
Qed.

Lemma nodup_keys_NoDup {A} (o : list (string * A)) :
  nodup_keys o = true -> NoDup (List.map fst o).
Proof.
  induction o as [|[k v] o IH]; simpl; [constructor|].
  intros [Hk Hnd]%andb_prop. apply negb_true_iff in Hk.
  apply NoDup_cons. split; [|by apply IH].
  intros Hin%list_elem_of_In. revert Hk. unfold own_has.
  clear -Hin. induction o as [|[k' v'] o IH]; simpl in *; [done|].
  destruct (String.eqb k k') eqn:E; [done|].
  apply String.eqb_neq in E. destruct Hin as [<-|Hin]; [done|]. by apply IH.
Qed.

Lemma own_get_In {A} k (v : A) o : own_get k o = Some v -> In k (List.map fst o).
Proof.
  induction o as [|[k' v'] o IH]; simpl; [done|].
  destruct (String.eqb k k') eqn:E; [|by right; apply IH].
  apply String.eqb_eq in E. by left.
Qed.

(** C8, as amended.  The definition gives [computed] as a plain object and
    the defaults of the store have no [computed]; the registration
    succeeds.  A computed field declared as a function, or as an array, is
    after the registration an array [l] with a property [deps].  For a bare
    function (or an array of one element) [l] is the comma-separated
    pieces, as they stand, of the text that the pattern
    [/function.*?\(([\s\S]*?)\)/] captures in the function's source text,
    followed by the function; for a longer array [l] is the declared array
    itself.  [deps] lists the elements before the last one trimmed, the
    empty ones left out, in the declared order. *)
Theorem computed_entry_prepared `{Collaborators}
    (s : DS) (definition : value) (o cs : obj) (def : obj) (s' : DS)
    (field : string) (decl : value)
    (Hobj : named definition = VObj o)
    (Hnodup : nodup_keys o = true)
    (Hcomputed : own_get "computed" o = Some (VObj cs))
    (Hfields : nodup_keys cs = true)
    (Hinherit : own_get "computed" (defaults s) = None)
    (Hdecl : own_get field cs = Some decl)
    (Hshape : isFunction decl = true \/ isArray decl = true)
    (Hreg : defineResource s definition = (Ret def, s')) :
  exists cs' l p,
    own_get "computed" def = Some (VObj cs')
    /\ own_get field cs' = Some (VArr l p)
    /\ own_get "deps" p = Some (VArr (trimmed_names (removelast l)) [])
    /\ match decl with
       | VArr [x] _ =>
           exists m, match_params (to_string x) = Some m
                     /\ l = (List.map VStr (split_comma m) ++ [x])%list
       | VArr l0 _ => l = l0
       | _ =>
           exists m, match_params (to_string decl) = Some m
                     /\ l = (List.map VStr (split_comma m) ++ [decl])%list
       end.
Proof.
  apply defineResource_ret in Hreg as (name & cacheId & dflt & cs0 & _ & _ & _ & Htry & ->).
  rewrite Hobj in Htry.
  apply try_block_done in Htry
    as (def0 & dflt0 & def1 & def2 & HR & Hpar & _ & _ & _ & _ & HC & ->).
  apply setup_parent_last in Hpar as [Hframe _].
  apply Resource_object in HR as (this & Hfold & ->).
  assert (Hcls : "computed" <> pascalCase name) by by apply lower_not_class.
  assert (Hthis : own_get "computed" this = Some (VObj cs)).
  { apply (copyProps_assigned o [] (defaults s) this dflt0); [done|done| |done].
    right. split; [done|]. intros ex. by rewrite Hinherit. }
  set (D := apply_methods _ _ _) in *.
  assert (HD : own_get "computed" D = Some (VObj cs)).
  { unfold D, apply_methods. rewrite own_get_on_prototype by done.
    rewrite own_get_wrapper_class, own_get_before_cache, Hframe by done.
    by rewrite own_get_set_ne. }
  unfold prepare_computed, proto_get in HC. unfold own_has in HC. rewrite HD in HC.
  cbn [truthy own_entries] in HC.
  destruct (computed_fields _ (VObj cs) (List.map fst cs)) as [r c'] eqn:Hloop.
  simplify_eq.
  apply computed_fields_prepared in Hloop as (cs' & -> & _ & Hin);
    [|by apply nodup_keys_NoDup].
  destruct (Hin field decl) as (l & p & Hentry & Hdeps & Hl); eauto using own_get_In.
  exists cs', l, p. repeat split; try done.
  rewrite own_get_finish_definition; [by rewrite own_get_set_eq|done|].
  by vm_compute; intuition discriminate.
Qed.

Lemma computed_entry_prepared_witness :
  exists cs' l p,
    own_get "computed" person_def = Some (VObj cs')
    /\ own_get "fullName" cs' = Some (VArr l p)
    /\ own_get "deps" p = Some (VArr (trimmed_names (removelast l)) [])
    /\ exists m, match_params (to_string fullName_fn) = Some m
                 /\ l = (List.map VStr (split_comma m) ++ [fullName_fn])%list.
Proof.
  apply (computed_entry_prepared empty_store person_definition
           [("name", VStr "person");
            ("computed",
             VObj [("fullName", fullName_fn);
                   ("initials",
                    VArr [VStr " first"; VStr ""; VStr "last "; initials_fn] [])])]
           [("fullName", fullName_fn);
            ("initials", VArr [VStr " first"; VStr ""; VStr "last "; initials_fn] [])]
           person_def person_store "fullName" fullName_fn);
    try (vm_compute; reflexivity).
  by left.
Defined.

(** C8 as stated fails: the elements before the function are the names as
    declared, not trimmed and with the empty ones kept; the trimmed,
    non-empty names are in the property [deps]. *)
Lemma computed_entry_keeps_declared_names :
  prop (prop (VObj person_def) "computed") "fullName"
  = VArr [VStr "first"; VStr " last"; fullName_fn]
         [("deps", VArr [VStr "first"; VStr "last"] [])]
  /\ prop (prop (VObj person_def) "computed") "initials"
     = VArr [VStr " first"; VStr ""; VStr "last "; initials_fn]
            [("deps", VArr [VStr "first"; VStr "last"] [])]
  /\ trimmed_names [VStr "first"; VStr " last"] <> [VStr "first"; VStr " last"]
  /\ trimmed_names [VStr " first"; VStr ""; VStr "last "]
     <> [VStr " first"; VStr ""; VStr "last "].
Proof. repeat split; by vm_compute. Qed.

(** The text that the pattern captures lies between the first opening
    parenthesis after [function] and the next closing one; that need not
    be the parameter list. *)
Example capture_is_not_parameter_list :
  match_params "function /* (x, y) */ (a, b) { return a + b; }" = Some "x, y"
  /\ match_params "function (a, b = f(1), c) { return a; }" = Some "a, b = f(1"
  /\ prop (prop (VObj noted_def) "computed") "sum"
     = VArr [VStr "x"; VStr " y"; noted_fn] [("deps", VArr [VStr "x"; VStr "y"] [])].
Proof. repeat split; by vm_compute. Qed.

(** ** [getEndpoint] *)

Lemma default_options_ready oo : ready (default_options (VObj oo)).
Proof.
  unfold default_options, ready. cbn [prop_deleted delete_prop truthy set_prop].
  eexists _, _. split; [done|]. rewrite own_get_set_eq. split; [done|].
  unfold js_or. by case_match.
Qed.

Lemma get_prop_truthy v k : truthy v = true -> get_prop v k = Ret (prop v k).
Proof. unfold prop. by destruct v. Qed.

Lemma params_get_ready options key :
  ready options -> params_get options key = Ret (prop (prop options "params") key).
Proof.
  intros (oo & p & -> & Hp & Ht). unfold params_get, prop at 2.
  cbn [get_prop mbind outcome_bind]. rewrite Hp. cbn [default from_option id].
  by apply get_prop_truthy.
Qed.

Lemma params_delete_ready options key :
  ready options -> exists options', params_delete options key = Ret options' /\ ready options'.
Proof.
  intros (oo & p & -> & Hp & Ht). unfold params_delete.
  cbn [get_prop mbind outcome_bind]. rewrite Hp. cbn [default from_option id].
  assert (exists p', delete_prop p key = Ret p' /\ truthy p' = true) as (p' & -> & Ht').
  { destruct p; try done; simpl; eauto. }
  cbn [mbind outcome_bind set_prop]. eexists. split; [done|].
  eexists _, _. split; [done|]. by rewrite own_get_set_eq.
Qed.

Lemma finish_endpoint_ready thisEndpoint key endpoint options :
  ready options ->
  exists options',
    finish_endpoint thisEndpoint key endpoint options
    = (Ret (js_or endpoint thisEndpoint), options')
    /\ ready options'.
Proof.
  intros Hr. unfold finish_endpoint. rewrite params_get_ready by done.
  destruct (is_false _); [|eauto].
  destruct (params_delete_ready options key Hr) as (o' & -> & Hr'). eauto.
Qed.




Lemma getEndpoint_unfold `{Collaborators} fuel s ref this attrs oo :
  getEndpoint (S fuel) s ref this attrs (VObj oo)
  = let options := default_options (VObj oo) in
    let thisEndpoint :=
      js_or (prop (VObj oo) "endpoint") (proto_get this (defaults s) "endpoint") in
    let parent := to_string (proto_get this (defaults s) "parent") in
    let key := to_string (proto_get this (defaults s) "parentKey") in
    match parent_of s this with
    | None =>
        if truthy (proto_get this (defaults s) "parent")
           && truthy (proto_get this (defaults s) "parentKey")
           && inherited parent
        then with_parent s (String.eqb (pascalCase ref) "DS") this attrs
               thisEndpoint key options (fun options1 => Some (Throw TypeError, options1))
        else Some (finish_endpoint thisEndpoint key VUndefined options)
    | Some parentDef =>
        match params_get options key with
        | Throw e => Some (Throw e, options)
        | Ret pv =>
            if is_false pv
            then Some (finish_endpoint thisEndpoint key VUndefined options)
            else if String.eqb (pascalCase ref) "DS"
            then Some (Throw TypeError, options)
            else
              match (if isObject attrs then has_prop key attrs else Ret false) with
              | Throw e => Some (Throw e, options)
              | Ret true =>
                  match params_delete options key with
                  | Throw e => Some (Throw e, options)
                  | Ret options1 =>
                      compose_endpoint thisEndpoint key
                        (getEndpoint fuel s parent parentDef attrs options1)
                        (fun _ => get_prop attrs key) Ret
                  end
              | Ret false =>
                  match (if truthy (record_of s this attrs)
                         then has_prop key (record_of s this attrs)
                         else Ret false) with
                  | Throw e => Some (Throw e, options)
                  | Ret true =>
                      match params_delete options key with
                      | Throw e => Some (Throw e, options)
                      | Ret options1 =>
                          compose_endpoint thisEndpoint key
                            (getEndpoint fuel s parent parentDef attrs options1)
                            (fun _ => get_prop (record_of s this attrs) key) Ret
                      end
                  | Ret false =>
                      if truthy options && truthy pv
                      then compose_endpoint thisEndpoint key
                             (getEndpoint fuel s parent parentDef attrs options)
                             (fun o => params_get o key)
                             (fun o => params_delete o key)
                      else Some (finish_endpoint thisEndpoint key VUndefined options)
                  end
              end
        end
    end.
Proof.
  cbn [getEndpoint get_prop]. unfold parent_of, record_of, prop. cbn [get_prop].
  cbv zeta. unfold registry_has.
  destruct (truthy (proto_get this (defaults s) "parent")
            && truthy (proto_get this (defaults s) "parentKey")); [|done].
  cbn [andb].
  destruct (definitions s !! to_string (proto_get this (defaults s) "parent")) eqn:Hd.
  - rewrite bool_decide_eq_true_2 by eauto. cbn [orb]. by unfold with_parent.
  - rewrite bool_decide_eq_false_2 by (by intros [? ?]). by cbn [orb].
Qed.


Lemma compose_endpoint_mono `{Collaborators} thisEndpoint key r r' keyValue after x :
  (forall y, r = Some y -> r' = Some y) ->
  compose_endpoint thisEndpoint key r keyValue after = Some x ->
  compose_endpoint thisEndpoint key r' keyValue after = Some x.
Proof.
  intros Hr. destruct r as [y|]; [|done]. by rewrite (Hr y eq_refl).
Qed.

(** More fuel does not change a result. *)
Lemma getEndpoint_fuel `{Collaborators} s fuel : forall ref this attrs options x,
  getEndpoint fuel s ref this attrs options = Some x ->
  getEndpoint (S fuel) s ref this attrs options = Some x.
Proof.
  induction fuel as [|fuel IH]; intros ref this attrs options x; [done|].
  remember (S fuel) as fuel1 eqn:Hfuel1.
  rewrite Hfuel1 at 1. cbn [getEndpoint]. unfold with_parent. cbv beta.
  repeat case_match; try done;
    apply compose_endpoint_mono; intros y Hy; subst fuel1;
    first [by apply IH | done].
Qed.



Example comment_endpoint :
  getEndpoint 2 blog_store "comment" comment_def (VObj [("postId", VNum 3)]) (VObj [])
  = Some (Ret (VStr "post/3/comments"), VObj [("params", VObj [])])
  /\ getEndpoint 2 blog_store "comment" comment_def (VNum 9)
       (VObj [("params", VObj [("postId", VBool false)])])
     = Some (Ret (VStr "comments"), VObj [("params", VObj [])]).
Proof. split; by vm_compute. Qed.

(** A parent named after an inherited member of the registry is found
    there although no such resource is registered; what is found has no
    [getEndpoint], and the call raises a [TypeError]. *)
Example inherited_parent_raises :
  parent_of widget_store widget_def = None
  /\ getEndpoint 2 widget_store "widget" widget_def (VObj [("ownerId", VNum 1)]) (VObj [])
     = Some (Throw TypeError, VObj [("params", VObj [])]).
Proof. split; by vm_compute. Qed.

(** The definition that the failed registration of a resource of class
    [DS] leaves behind has a closure in which the data store is gone:
    with a registered parent, its [getEndpoint] raises a [TypeError]. *)
Example clobbered_closure_raises :
  parent_of dS_store dS_def = Some user_def
  /\ getEndpoint 2 dS_store "dS" dS_def (VObj [("userId", VNum 1)]) (VObj [])
     = Some (Throw TypeError, VObj [("params", VObj [])]).
Proof. split; by vm_compute. Qed.


(** ** The registries after a registration *)

Lemma name_of_object o name :
  prop (VObj o) "name" = VStr name -> own_get "name" o = Some (VStr name).
Proof.
  unfold prop. cbn [get_prop].
  destruct (own_get "name" o) as [v|]; cbn [default from_option id]; [by intros ->|done].
Qed.

(** The [try] block on a definition that is an object, step by step. *)
Lemma try_block_object `{Collaborators} s o name def cacheId dflt cs :
  nodup_keys o = true ->
  own_get "name" o = Some (VStr name) ->
  try_block s (VObj o) name = (Done def cacheId, dflt, cs) ->
  exists this dflt0 def1 def2,
    fold_left copyProp o ([], defaults s) = (this, dflt0)
    /\ own_get "name" this = Some (VStr name)
    /\ setup_parent
         (own_set "endpoint"
            (match own_get "endpoint" o with Some e => e | None => VStr name end) this)
         dflt0 = Ret def1
    /\ own_get "name" def1 = Some (VStr name)
    /\ cacheId = "DS." +:+ name
    /\ cacheFactory cacheId (cache_options_for (before_cache name def1 dflt0) dflt0 name)
         (caches s) = Ret cs
    /\ is_identifier (pascalCase name) = true
    /\ pascalCase name <> "DS"
    /\ prepare_computed
         (apply_methods (pascalCase name)
            (wrapper_class (pascalCase name) (before_cache name def1 dflt0)) dflt0) dflt0
       = (Ret tt, def2, dflt)
    /\ def = finish_definition name (pascalCase name)
               (proto_get (apply_methods (pascalCase name)
                             (wrapper_class (pascalCase name) (before_cache name def1 dflt0))
                             dflt0) dflt0 "computed")
               def2.
Proof.
  intros Hnodup Hname
    (def0 & dflt0 & def1 & def2 & HR & Hpar & -> & Hc & Hid & Hds & HC & ->)%try_block_done.
  apply Resource_object in HR as (this & Hfold & ->).
  assert (Hthis : own_get "name" this = Some (VStr name)).
  { eapply copyProps_assigned; eauto. by left. }
  assert (Hdef1 : own_get "name" def1 = Some (VStr name)).
  { pose proof (setup_parent_last _ _ _ Hpar) as [Hframe _].
    rewrite Hframe by done. by rewrite own_get_set_ne. }
  assert (Hn : proto_get (before_cache name def1 dflt0) dflt0 "name" = VStr name).
  { unfold proto_get. by rewrite own_get_before_cache, Hdef1. }
  rewrite Hn in *. cbn [to_string] in *.
  assert (He : proto_get this dflt0 "name" = VStr name).
  { unfold proto_get. by rewrite Hthis. }
  rewrite He in Hpar.
  exists this, dflt0, def1, def2. by repeat split.
Qed.

Lemma registered_name `{Collaborators} s definition name def cacheId dflt cs o :
  named definition = VObj o ->
  nodup_keys o = true ->
  prop (named definition) "name" = VStr name ->
  try_block s (named definition) name = (Done def cacheId, dflt, cs) ->
  own_get "name" o = Some (VStr name)
  /\ own_get "name" def = Some (VStr name)
  /\ cacheId = "DS." +:+ name.
Proof.
  intros Hobj Hnodup Hname Htry. rewrite Hobj in *.
  apply name_of_object in Hname.
  pose proof Htry as (def0 & dflt0 & def1 & _ & _ & Hkept & _)%registration_keeps.
  apply try_block_object in Htry
    as (this & dflt1 & def1' & def2 & _ & _ & _ & Hdef1 & -> & _ & _ & _ & HC & ->);
    [|done|done].
  repeat split; try done.
  assert (Hcls : "name" <> pascalCase name) by by apply lower_not_class.
  rewrite own_get_finish_definition; [|done|by vm_compute; intuition discriminate].
  destruct (prepare_computed_frame _ _ _ _ _ HC "name") as [-> _]; [done|].
  unfold apply_methods. rewrite own_get_on_prototype by done.
  rewrite own_get_wrapper_class by done.
  by rewrite own_get_before_cache.
Qed.

(** X1.  A registration that succeeds adds one definition, one store entry
    and one cache, under the name of the definition and, for the cache,
    under [DS.] followed by the name; the store entry is the initial one
    and the cache is empty.  The name had no store entry and the cache id
    was free.  Nothing else in the three registries changes. *)
Theorem registration_adds_one `{Collaborators}
    (s : DS) (definition : value) (o : obj) (def : obj) (s' : DS)
    (Hobj : named definition = VObj o)
    (Hnodup : nodup_keys o = true)
    (Hreg : defineResource s definition = (Ret def, s')) :
  exists name c,
    own_get "name" o = Some (VStr name)
    /\ definitions s' = <[name := def]> (definitions s)
    /\ store s !! name = None
    /\ store s' = <[name := new_store_entry ("DS." +:+ name)]> (store s)
    /\ caches s !! ("DS." +:+ name) = None
    /\ caches s' = <["DS." +:+ name := c]> (caches s)
    /\ cache_data c = ∅.
Proof.
  apply defineResource_ret in Hreg
    as (name & cacheId & dflt & cs & Hname & _ & Hfree & Htry & ->).
  destruct (registered_name _ _ _ _ _ _ _ _ Hobj Hnodup Hname Htry) as (Hn & Hdef & ->).
  apply try_block_done in Htry as (? & ? & ? & ? & _ & _ & _ & Hc & _).
  unfold cacheFactory in Hc.
  destruct (caches s !! ("DS." +:+ name)) eqn:Hcache; [done|].
  destruct (cache_accepts _); [|done]. simplify_eq.
  eexists name, _. cbn [definitions store caches].
  unfold proto_get. rewrite Hdef. cbn [to_string].
  by repeat split.
Qed.

Lemma registration_adds_one_witness :
  exists name c,
    own_get "name" [("name", VStr "user")] = Some (VStr name)
    /\ definitions user_store = <[name := user_def]> (definitions empty_store)
    /\ store empty_store !! name = None
    /\ store user_store = <[name := new_store_entry ("DS." +:+ name)]> (store empty_store)
    /\ caches empty_store !! ("DS." +:+ name) = None
    /\ caches user_store = <["DS." +:+ name := c]> (caches empty_store)
    /\ cache_data c = ∅.
Proof.
  apply (registration_adds_one empty_store (VStr "user") [("name", VStr "user")]
           user_def user_store).
  - reflexivity.
  - reflexivity.
  - vm_compute. reflexivity.
Defined.

Lemma try_block_caches `{Collaborators} s definition name r dflt cs :
  try_block s definition name = (r, dflt, cs) ->
  cs = caches s
  \/ exists cacheId c,
       caches s !! cacheId = None /\ cs = <[cacheId := c]> (caches s) /\ cache_data c = ∅.
Proof.
  unfold try_block.
  destruct (Resource (defaults s) definition) as [[def dflt0]|]; [|intros; simplify_eq; by left].
  destruct (setup_parent def dflt0) as [def1|]; [|intros; simplify_eq; by left].
  destruct (cacheFactory _ _ (caches s)) as [cs1|] eqn:Hc; [|intros; simplify_eq; by left].
  assert (Hcs : exists cacheId c,
             caches s !! cacheId = None /\ cs1 = <[cacheId := c]> (caches s)
             /\ cache_data c = ∅).
  { unfold cacheFactory in Hc. repeat case_match; simplify_eq. eauto. }
  repeat case_match; intros; simplify_eq; by right.
Qed.

(** X2.  The [catch] block: a registration that raises leaves
    [DS.definitions] and [DS.store] as they were, for a name that had no
    definition and whose wrapper class is not named [DS].  The cache
    registry is as it was, or has gained one empty cache. *)
Theorem failed_registration_restores `{Collaborators}
    (s : DS) (definition : value) (name : string) (e : error) (s' : DS)
    (Hname : prop (named definition) "name" = VStr name)
    (Hcls : pascalCase name <> "DS")
    (Hfresh : definitions s !! name = None)
    (Hfail : defineResource s definition = (Throw e, s')) :
  definitions s' = definitions s
  /\ store s' = store s
  /\ (caches s' = caches s
      \/ exists cacheId c,
           caches s !! cacheId = None /\ caches s' = <[cacheId := c]> (caches s)
           /\ cache_data c = ∅).
Proof.
  destruct (rollback_restores_registry _ _ _ _ _ Hname Hcls Hfresh Hfail) as [Hd Hs].
  split; [done|]. split; [done|].
  revert Hfail. unfold defineResource. rewrite Hname.
  repeat (case_match; try congruence); intros; simplify_eq; cbn [caches];
    try (by left); eauto using try_block_caches.
Qed.

Lemma failed_registration_restores_witness :
  let definition := VObj [("name", VStr "user"); ("computed", VObj [("fullName", VNum 5)])] in
  let s' := snd (defineResource empty_store definition) in
  definitions s' = definitions empty_store
  /\ store s' = store empty_store
  /\ (caches s' = caches empty_store
      \/ exists cacheId c,
           caches empty_store !! cacheId = None
           /\ caches s' = <[cacheId := c]> (caches empty_store)
           /\ cache_data c = ∅).
Proof.
  apply (failed_registration_restores empty_store
           (VObj [("name", VStr "user"); ("computed", VObj [("fullName", VNum 5)])])
           "user" TypeError).
  - reflexivity.
  - vm_compute. discriminate.
  - reflexivity.
  - vm_compute. reflexivity.
Defined.

Lemma cache_options_for_ext def dflt def' dflt' ref :
  (forall k, In k ["maxAge"; "recycleFreq"; "cacheFlushInterval"; "deleteOnExpire"; "name"] ->
             proto_get def dflt k = proto_get def' dflt' k) ->
  cache_options_for def dflt ref = cache_options_for def' dflt' ref.
Proof.
  intros Hk. unfold cache_options_for.
  rewrite !(Hk "maxAge"), !(Hk "recycleFreq"), !(Hk "cacheFlushInterval"),
    !(Hk "deleteOnExpire"), !(Hk "name") by (simpl; tauto).
  reflexivity.
Qed.

(** X3.  After a registration the store entry of the resource holds the
    cache [DS.<name>] for index, and the options of that cache are the ones
    that the returned definition gives: [maxAge], [recycleFreq],
    [cacheFlushInterval] and [deleteOnExpire] as the definition has or
    inherits them, with [null], [1000], [null] and ['none'] in place of a
    falsy value, an unbounded capacity, the memory storage mode, and the
    expiry handler of this definition. *)
Theorem cache_follows_definition `{Collaborators}
    (s : DS) (definition : value) (def : obj) (s' : DS)
    (Hreg : defineResource s definition = (Ret def, s')) :
  exists ref c,
    definitions s' !! ref = Some def
    /\ store s' !! to_string (proto_get def (defaults s') "name")
       = Some (new_store_entry ("DS." +:+ to_string (proto_get def (defaults s') "name")))
    /\ caches s' !! ("DS." +:+ to_string (proto_get def (defaults s') "name")) = Some c
    /\ cache_options c
       = {| maxAge := js_or (proto_get def (defaults s') "maxAge") VNull;
            recycleFreq := js_or (proto_get def (defaults s') "recycleFreq") (VNum 1000);
            cacheFlushInterval :=
              js_or (proto_get def (defaults s') "cacheFlushInterval") VNull;
            deleteOnExpire :=
              js_or (proto_get def (defaults s') "deleteOnExpire") (VStr "none");
            onExpire := NOnExpire ref;
            capacity := MAX_VALUE;
            storageMode := "memory";
            storageImpl := VNull;
            disabled := false;
            storagePrefix := "DS." +:+ to_string (proto_get def (defaults s') "name") |}.
Proof.
  apply defineResource_ret in Hreg
    as (name & cacheId & dflt & cs & _ & _ & _ & Htry & ->).
  pose proof Htry as (def0 & dflt0 & def1 & HR & Hpar & Hkept & Hdflt)%registration_keeps.
  apply try_block_done in Htry
    as (def0' & dflt0' & def1' & def2 & HR' & Hpar' & -> & Hc & _).
  rewrite HR in HR'. simplify_eq. rewrite Hpar in Hpar'. simplify_eq.
  assert (Hsame : forall k,
             In k ["maxAge"; "recycleFreq"; "cacheFlushInterval"; "deleteOnExpire"; "name"] ->
             proto_get (before_cache name def1' dflt0') dflt0' k
             = proto_get def dflt k).
  { intros k Hk. unfold proto_get.
    assert (kept k = true /\ k <> "computed"
            /\ k <> "getEndpoint" /\ k <> "defaultFilter" /\ k <> "filter") as (Hkk & ? & ? & ? & ?).
    { simpl in Hk. destruct Hk as [<-|[<-|[<-|[<-|[<-|[]]]]]]; by vm_compute. }
    by rewrite Hkept, Hdflt, own_get_before_cache. }
  rewrite (cache_options_for_ext _ _ _ _ name Hsame) in Hc.
  rewrite (Hsame "name") in Hc by (simpl; tauto).
  cbn [defaults definitions store caches].
  rewrite (Hsame "name") by (simpl; tauto).
  unfold cacheFactory in Hc.
  destruct (caches s !! _); [done|]. destruct (cache_accepts _); [|done]. simplify_eq.
  eexists name, _. rewrite !lookup_insert_eq. by repeat split.
Qed.

Lemma cache_follows_definition_witness :
  exists ref c,
    definitions session_store !! ref = Some session_def
    /\ store session_store !! to_string (proto_get session_def (defaults session_store) "name")
       = Some (new_store_entry
                 ("DS." +:+ to_string (proto_get session_def (defaults session_store) "name")))
    /\ caches session_store
         !! ("DS." +:+ to_string (proto_get session_def (defaults session_store) "name"))
       = Some c
    /\ cache_options c
       = {| maxAge := js_or (proto_get session_def (defaults session_store) "maxAge") VNull;
            recycleFreq :=
              js_or (proto_get session_def (defaults session_store) "recycleFreq") (VNum 1000);
            cacheFlushInterval :=
              js_or (proto_get session_def (defaults session_store) "cacheFlushInterval") VNull;
            deleteOnExpire :=
              js_or (proto_get session_def (defaults session_store) "deleteOnExpire")
                    (VStr "none");
            onExpire := NOnExpire ref;
            capacity := MAX_VALUE;
            storageMode := "memory";
            storageImpl := VNull;
            disabled := false;
            storagePrefix :=
              "DS." +:+ to_string (proto_get session_def (defaults session_store) "name") |}.
Proof.
  apply (cache_follows_definition empty_store session_definition session_def session_store).
  vm_compute. reflexivity.
Defined.

(** ** The errors of a registration *)

Lemma bind_throw {A B} (m : outcome A) (k : A -> outcome B) e :
  (x ← m; k x) = Throw e -> m = Throw e \/ exists a, m = Ret a /\ k a = Throw e.
Proof. destruct m as [a|e']; simpl; [eauto | intros [= ->]; by left]. Qed.

Lemma get_prop_error v k e : get_prop v k = Throw e -> e = TypeError.
Proof. destruct v; simpl; congruence. Qed.

Lemma has_prop_error v k e : has_prop k v = Throw e -> e = TypeError.
Proof. destruct v; simpl; congruence. Qed.

Lemma Resource_error dflt options e : Resource dflt options = Throw e -> e = TypeError.
Proof.
  unfold Resource. destruct (fold_left copyProp _ _) as [this dflt'].
  intros [Hh|(given & _ & Hk)]%bind_throw; [by eapply has_prop_error|].
  destruct given; [|done].
  apply bind_throw in Hk as [Hg|(? & _ & ?)]; [by eapply get_prop_error|done].
Qed.

Lemma foldM_error {A B} (f : A -> B -> outcome A) (P : error -> Prop) l : forall a e,
  (forall a b e, f a b = Throw e -> P e) -> foldM f a l = Throw e -> P e.
Proof.
  induction l as [|b l IH]; intros a e Hf; [done|]. cbn [foldM].
  intros [Hb|(a' & _ & Hl)]%bind_throw; eauto.
Qed.

Lemma relation_step_error modelName def relation e :
  relation_step modelName def relation = Throw e -> e = TypeError.
Proof.
  unfold relation_step.
  intros [Hp|(p & _ & Hk)]%bind_throw; [by eapply get_prop_error|].
  destruct (truthy p); [|done].
  apply bind_throw in Hk as [Hg|(? & _ & ?)]; [by eapply get_prop_error|done].
Qed.

Lemma setup_parent_error def dflt e : setup_parent def dflt = Throw e -> e = TypeError.
Proof.
  unfold setup_parent. destruct (truthy _); [|done].
  intros [Hp|(b & _ & Hk)]%bind_throw; [by eapply get_prop_error|].
  destruct (truthy b); [|done].
  revert Hk. apply (foldM_error _ (fun e => e = TypeError)).
  intros a kv e'. unfold belongsTo_step.
  apply (foldM_error _ (fun e => e = TypeError)).
  intros ? ? ?. apply relation_step_error.
Qed.

Lemma mapM_trim_error l e : mapM trim_value l = Throw e -> e = TypeError.
Proof.
  induction l as [|v l IH]; [done|]. cbn [mapM].
  intros [Hv|(b & _ & Hk)]%bind_throw; [destruct v; simpl in Hv; congruence|].
  apply bind_throw in Hk as [Hl|(? & _ & ?)]; [by apply IH|done].
Qed.

Lemma parameter_names_error x e : parameter_names x = Throw e -> e = TypeError.
Proof. unfold parameter_names. repeat case_match; congruence. Qed.

Lemma expand_single_error c field fn e :
  expand_single c field fn = Throw e -> e = TypeError.
Proof.
  unfold expand_single.
  intros [Hl|(len & _ & Hk)]%bind_throw; [by eapply get_prop_error|].
  destruct (is_number len 1); [|done].
  apply bind_throw in Hk as [Hx|(x & _ & Hk)]; [by eapply get_prop_error|].
  apply bind_throw in Hk as [Hd|(? & _ & ?)]; [by eapply parameter_names_error|done].
Qed.

Lemma record_deps_error c field fn e :
  record_deps c field fn = Throw e -> e = TypeError.
Proof.
  unfold record_deps. destruct fn; try congruence.
  intros [Hd|(? & _ & ?)]%bind_throw; [by eapply mapM_trim_error|done].
Qed.

Lemma computed_field_error methods c field e c' :
  computed_field methods c field = (Throw e, c') -> e = TypeError.
Proof.
  unfold computed_field.
  destruct (get_prop c field) as [fn0|e0] eqn:Hg;
    [|intros; simplify_eq; by eapply get_prop_error].
  destruct (wrap_function c field fn0) as [c1 fn1].
  destruct (if truthy methods then has_prop field methods else Ret false) as [b|e0] eqn:Hm.
  - destruct (expand_single c1 field fn1) as [[c2 fn2]|e0] eqn:He;
      [|intros; simplify_eq; by eapply expand_single_error].
    destruct (record_deps c2 field fn2) as [c3|e0] eqn:Hr;
      [done|intros; simplify_eq; by eapply record_deps_error].
  - intros; simplify_eq. destruct (truthy methods); [by eapply has_prop_error|done].
Qed.

Lemma computed_fields_error methods fields : forall c e c',
  computed_fields methods c fields = (Throw e, c') -> e = TypeError.
Proof.
  induction fields as [|f fields IH]; intros c e c'; cbn [computed_fields]; [done|].
  destruct (computed_field methods c f) as [[[]|e0] c1] eqn:Hf.
  - apply IH.
  - intros; simplify_eq. by eapply computed_field_error.
Qed.

Lemma prepare_computed_error def dflt e def' dflt' :
  prepare_computed def dflt = (Throw e, def', dflt') -> e = TypeError.
Proof.
  unfold prepare_computed. destruct (truthy _); [|done].
  destruct (computed_fields _ _ _) as [r c'] eqn:Hc.
  destruct (own_has "computed" def); intros; simplify_eq;
    by eapply computed_fields_error.
Qed.

Lemma try_block_error `{Collaborators} s definition name e dflt cs :
  try_block s definition name = (Failed e, dflt, cs) -> raised_by_setup e = true.
Proof.
  unfold try_block.
  destruct (Resource (defaults s) definition) as [[def dflt0]|e0] eqn:HR;
    [|intros; simplify_eq; by rewrite (Resource_error _ _ _ HR)].
  destruct (setup_parent def dflt0) as [def1|e0] eqn:HP;
    [|intros; simplify_eq; by rewrite (setup_parent_error _ _ _ HP)].
  destruct (cacheFactory _ _ (caches s)) as [cs1|e0] eqn:Hc.
  - destruct (negb (is_identifier (pascalCase name))); [by intros; simplify_eq|].
    destruct (String.eqb (pascalCase name) "DS"); [done|].
    destruct (prepare_computed _ _) as [[[[]|e0] def2] dflt2] eqn:HC; [done|].
    intros; simplify_eq. by rewrite (prepare_computed_error _ _ _ _ _ HC).
  - intros; simplify_eq. unfold cacheFactory in Hc. by repeat case_match; simplify_eq.
Qed.

(** X4.  The errors of [defineResource].  An IllegalArgumentError or a
    RuntimeError comes from the checks at its head, and then the store is
    untouched.  Any other error is raised once the definition has passed
    those checks and its name has no store entry; it is a TypeError, a
    SyntaxError (from the [eval] of the wrapper class) or the error of the
    cache factory. *)
Theorem defineResource_errors `{Collaborators}
    (s : DS) (definition : value) (e : error) (s' : DS)
    (Hfail : defineResource s definition = (Throw e, s')) :
  (raised_by_validation e = true /\ s' = s)
  \/ (raised_by_setup e = true
      /\ well_formed definition = true
      /\ exists name, prop (named definition) "name" = VStr name
                      /\ store s !! name = None).
Proof.
  revert Hfail. unfold defineResource.
  destruct (negb (isObject (named definition))) eqn:Hobj;
    [intros; simplify_eq; by left|].
  destruct (prop (named definition) "name") as [| | | |name| | | | |] eqn:Hname;
    try (intros; simplify_eq; by left).
  destruct (truthy (prop (named definition) "idAttribute") && _) eqn:Hid;
    [intros; simplify_eq; by left|].
  destruct (truthy (prop (named definition) "endpoint") && _) eqn:Hep;
    [intros; simplify_eq; by left|].
  destruct (registry_has (store s) name) eqn:Hreg; [intros; simplify_eq; by left|].
  assert (Hwf : well_formed definition = true).
  { unfold well_formed. apply negb_false_iff in Hobj. by rewrite Hobj, Hname, Hid, Hep. }
  assert (Hfree : store s !! name = None).
  { by apply registry_has_false in Hreg as [? _]. }
  destruct (try_block s (named definition) name) as [[[def cacheId|e0|def] dflt] cs] eqn:Htry;
    intros; simplify_eq; right; (split; [|split; [done|by exists name]]).
  - by eapply try_block_error.
  - done.
Qed.

Lemma defineResource_errors_witness :
  let r := defineResource empty_store (VObj [("name", VStr "1st")]) in
  (raised_by_validation SyntaxError = true /\ snd r = empty_store)
  \/ (raised_by_setup SyntaxError = true
      /\ well_formed (VObj [("name", VStr "1st")]) = true
      /\ exists name, prop (named (VObj [("name", VStr "1st")])) "name" = VStr name
                      /\ store empty_store !! name = None).
Proof.
  apply (defineResource_errors empty_store (VObj [("name", VStr "1st")]) SyntaxError).
  vm_compute. reflexivity.
Defined.

(** ** What the definition gives and what it inherits *)

Lemma copyProp_defaults k v this dflt this' dflt' :
  isPlainObject v = false ->
  copyProp (this, dflt) (k, v) = (this', dflt') -> dflt' = dflt.
Proof. unfold copyProp. destruct v; try done; by intros _ [= _ ->]. Qed.

Lemma copyProps_copied o : forall this dflt this' dflt' k,
  nodup_keys o = true ->
  (forall v, own_get k o = Some v -> isPlainObject v = false) ->
  fold_left copyProp o (this, dflt) = (this', dflt') ->
  own_get k this' = match own_get k o with Some v => Some v | None => own_get k this end
  /\ own_get k dflt' = own_get k dflt.
Proof.
  induction o as [|[k0 v0] o IH]; intros this dflt this' dflt' k Hnd Hplain Hfold.
  { simpl in Hfold. by simplify_eq. }
  cbn [fold_left nodup_keys own_get] in *.
  apply andb_prop in Hnd as [Hfresh Hnd]. apply negb_true_iff in Hfresh.
  destruct (copyProp (this, dflt) (k0, v0)) as [this1 dflt1] eqn:Hstep.
  destruct (String.eqb k k0) eqn:E.
  - apply String.eqb_eq in E as ->.
    pose proof (copyProp_defaults _ _ _ _ _ _ (Hplain v0 eq_refl) Hstep) as ->.
    rewrite copyProp_assigned in Hstep by (left; by apply Hplain). simplify_eq.
    apply (copyProps_other _ _ _ _ _ k0) in Hfold as [-> ->]; [|done].
    by rewrite own_get_set_eq.
  - apply String.eqb_neq in E.
    apply (copyProp_other k) in Hstep as [H1 H2]; [|done].
    rewrite <- H1, <- H2. by apply IH.
Qed.

(** The definition of an object, after the constructor and the parent
    configuration, at a property that neither of them sets. *)
Lemma taken_over `{Collaborators} s o name def cacheId dflt cs k :
  nodup_keys o = true ->
  own_get "name" o = Some (VStr name) ->
  try_block s (VObj o) name = (Done def cacheId, dflt, cs) ->
  untouched k = true ->
  (forall v, own_get k o = Some v -> isPlainObject v = false) ->
  own_get k def = own_get k o /\ own_get k dflt = own_get k (defaults s).
Proof.
  intros Hnodup Hname Htry Hk Hplain.
  apply andb_prop in Hk as [Hkept Hk]. apply negb_true_iff in Hk.
  pose proof (existsb_eqb_false _ _ Hk) as Hne.
  pose proof Htry as (def0 & dflt0 & def1 & HR & Hpar & Hkeeps & Hdflt)%registration_keeps.
  apply Resource_object in HR as (this & Hfold & ->).
  apply setup_parent_last in Hpar as [Hframe _].
  destruct (copyProps_copied _ _ _ _ _ k Hnodup Hplain Hfold) as [Hthis Hd].
  apply kept_elim in Hkept as Hk'. destruct Hk' as (_ & _ & _ & _ & _ & Hc & _).
  split.
  - rewrite Hkeeps, Hframe by (try done; apply Hne; simpl; tauto).
    rewrite own_get_set_ne by (apply Hne; simpl; tauto).
    rewrite Hthis. by destruct (own_get k o).
  - by rewrite Hdflt, Hd.
Qed.

(** X5.  A property of the definition that is not a plain object, and
    that the registration does not manage itself (the endpoint, the parent
    configuration, the renamed filter, the class, the computed properties,
    the shorthand methods), is on the registered definition as it was
    given, and absent from it when it was not given; the global default of
    that name is unchanged, so what the definition does not give it
    inherits. *)
Theorem definition_overrides_defaults `{Collaborators}
    (s : DS) (definition : value) (o : obj) (def : obj) (s' : DS) (k : string)
    (Hobj : named definition = VObj o)
    (Hnodup : nodup_keys o = true)
    (Hk : untouched k = true)
    (Hplain : from_option isPlainObject false (own_get k o) = false)
    (Hreg : defineResource s definition = (Ret def, s')) :
  own_get k def = own_get k o
  /\ own_get k (defaults s') = own_get k (defaults s)
  /\ proto_get def (defaults s') k
     = match own_get k o with
       | Some v => v
       | None => default VUndefined (own_get k (defaults s))
       end.
Proof.
  apply defineResource_ret in Hreg
    as (name & cacheId & dflt & cs & Hname & _ & _ & Htry & ->).
  rewrite Hobj in *. apply name_of_object in Hname.
  assert (Hplain' : forall v, own_get k o = Some v -> isPlainObject v = false).
  { intros v Hv. by rewrite Hv in Hplain. }
  destruct (taken_over _ _ _ _ _ _ _ k Hnodup Hname Htry Hk Hplain') as [Hdef Hd].
  cbn [defaults]. unfold proto_get. by rewrite Hdef, Hd.
Qed.

Lemma definition_overrides_defaults_witness :
  own_get "maxAge" session_def
  = own_get "maxAge" [("name", VStr "session"); ("maxAge", VNum 60000);
                      ("deleteOnExpire", VStr "aggressive");
                      ("onExpire", VFun 7 "function (id, item) { }")]
  /\ own_get "maxAge" (defaults session_store) = own_get "maxAge" (defaults empty_store)
  /\ proto_get session_def (defaults session_store) "maxAge"
     = match own_get "maxAge" [("name", VStr "session"); ("maxAge", VNum 60000);
                               ("deleteOnExpire", VStr "aggressive");
                               ("onExpire", VFun 7 "function (id, item) { }")] with
       | Some v => v
       | None => default VUndefined (own_get "maxAge" (defaults empty_store))
       end.
Proof.
  apply (definition_overrides_defaults empty_store session_definition
           [("name", VStr "session"); ("maxAge", VNum 60000);
            ("deleteOnExpire", VStr "aggressive");
            ("onExpire", VFun 7 "function (id, item) { }")]
           session_def session_store "maxAge").
  - reflexivity.
  - reflexivity.
  - reflexivity.
  - reflexivity.
  - vm_compute. reflexivity.
Defined.

(** ** The renamed filter *)

(** X6.  A definition that gives a truthy [filter] option is registered
    with that value as its [defaultFilter], whatever [defaultFilter] it
    gave; its [filter] is then the shorthand for [DS.filter]. *)
Theorem filter_becomes_defaultFilter `{Collaborators}
    (s : DS) (definition : value) (o : obj) (def : obj) (s' : DS) (f : value)
    (Hobj : named definition = VObj o)
    (Hnodup : nodup_keys o = true)
    (Hfilter : own_get "filter" o = Some f)
    (Htruthy : truthy f = true)
    (Hplain : isPlainObject f = false)
    (Hreg : defineResource s definition = (Ret def, s')) :
  exists name,
    definitions s' !! name = Some def
    /\ own_get "defaultFilter" def = Some f
    /\ own_get "filter" def = Some (VNative (NProxy name "filter")).
Proof.
  apply defineResource_ret in Hreg
    as (name & cacheId & dflt & cs & Hname & _ & _ & Htry & ->).
  rewrite Hobj in *. apply name_of_object in Hname.
  apply try_block_object in Htry
    as (this & dflt0 & def1 & def2 & Hfold & _ & Hpar & _ & _ & _ & _ & _ & HC & ->);
    [|done|done].
  apply setup_parent_last in Hpar as [Hframe _].
  assert (Hthis : own_get "filter" this = Some f).
  { eapply copyProps_assigned; eauto. by left. }
  assert (Hdef1 : own_get "filter" def1 = Some f).
  { rewrite Hframe by done. by rewrite own_get_set_ne. }
  assert (Hcls : "defaultFilter" <> pascalCase name) by by apply lower_not_class.
  exists name. cbn [definitions]. rewrite lookup_insert_eq. split; [done|]. split.
  - rewrite own_get_finish_definition; [|done|by vm_compute; intuition discriminate].
    destruct (prepare_computed_frame _ _ _ _ _ HC "defaultFilter") as [-> _]; [done|].
    unfold apply_methods. rewrite own_get_on_prototype by done.
    rewrite own_get_wrapper_class by done.
    unfold before_cache, rename_filter, proto_get.
    rewrite own_get_set_ne, Hdef1, Htruthy by done.
    by rewrite own_get_delete_ne, own_get_set_eq.
  - unfold finish_definition, proxy_methods.
    rewrite own_get_proxied by (vm_compute; tauto). reflexivity.
Qed.

Lemma filter_becomes_defaultFilter_witness :
  let custom := VFun 3 "function (collection, name, params) { return collection; }" in
  let r := defineResource empty_store
             (VObj [("name", VStr "user"); ("defaultFilter", VNum 1); ("filter", custom)]) in
  exists name,
    definitions (snd r) !! name = Some (default [] (definitions (snd r) !! "user"))
    /\ own_get "defaultFilter" (default [] (definitions (snd r) !! "user")) = Some custom
    /\ own_get "filter" (default [] (definitions (snd r) !! "user"))
       = Some (VNative (NProxy name "filter")).
Proof.
  apply (filter_becomes_defaultFilter empty_store
           (VObj [("name", VStr "user"); ("defaultFilter", VNum 1);
                  ("filter", VFun 3 "function (collection, name, params) { return collection; }")])
           [("name", VStr "user"); ("defaultFilter", VNum 1);
            ("filter", VFun 3 "function (collection, name, params) { return collection; }")]).
  - reflexivity.
  - reflexivity.
  - reflexivity.
  - reflexivity.
  - reflexivity.
  - vm_compute. reflexivity.
Defined.

(** ** A definition without a parent *)

(** X7.  The parent configuration is set by the flagged relations only.
    The definition gives no [parent] and no [parentKey], or gives values
    that are not plain objects (a plain object could be merged into the
    defaults instead); the registration succeeds, and no [belongsTo]
    relation of the registered definition carries the [parent] flag.  Then
    the [parent] and [parentKey] of the definition are the ones that the
    input gave, and absent when it gave none. *)
Theorem no_flag_no_parent `{Collaborators}
    (s : DS) (definition : value) (o : obj) (def : obj) (s' : DS)
    (Hobj : named definition = VObj o)
    (Hnodup : nodup_keys o = true)
    (Hparent : from_option isPlainObject false (own_get "parent" o) = false)
    (Hkey : from_option isPlainObject false (own_get "parentKey" o) = false)
    (Hreg : defineResource s definition = (Ret def, s'))
    (Hnone : parents_declared (prop (proto_get def (defaults s') "relations") "belongsTo")
             = []) :
  own_get "parent" def = own_get "parent" o
  /\ own_get "parentKey" def = own_get "parentKey" o.
Proof.
  apply defineResource_ret in Hreg
    as (name & cacheId & dflt & cs & Hname & _ & _ & Htry & ->).
  rewrite Hobj in *. cbn [defaults] in Hnone.
  apply registration_keeps in Htry as (def0 & dflt0 & def1 & HR & Hpar & Hkept & Hdflt).
  apply Resource_object in HR as (this & Hfold & ->).
  apply setup_parent_last in Hpar as [Hframe Hlast].
  assert (Hrel : proto_get def dflt "relations"
                 = proto_get (own_set "endpoint"
                                (match own_get "endpoint" o with
                                 | Some e => e
                                 | None => proto_get this dflt0 "name"
                                 end) this) dflt0 "relations").
  { unfold proto_get. by rewrite Hkept, Hframe, Hdflt. }
  rewrite Hrel in Hnone. rewrite Hnone in Hlast. cbn [last] in Hlast. subst def1.
  assert (Hcopied : forall k, from_option isPlainObject false (own_get k o) = false ->
                              k <> "endpoint" ->
                              own_get k (own_set "endpoint"
                                           (match own_get "endpoint" o with
                                            | Some e => e
                                            | None => proto_get this dflt0 "name"
                                            end) this) = own_get k o).
  { intros k Hp Hk. rewrite own_get_set_ne by done.
    destruct (copyProps_copied _ _ _ _ _ k Hnodup ltac:(intros v Hv; by rewrite Hv in Hp)
                Hfold) as [-> _].
    by destruct (own_get k o). }
  by rewrite !Hkept, !Hcopied.
Qed.

Lemma no_flag_no_parent_witness :
  own_get "parent" user_def = own_get "parent" [("name", VStr "user")]
  /\ own_get "parentKey" user_def = own_get "parentKey" [("name", VStr "user")].
Proof.
  apply (no_flag_no_parent empty_store (VStr "user") [("name", VStr "user")]
           user_def user_store).
  - reflexivity.
  - reflexivity.
  - reflexivity.
  - reflexivity.
  - vm_compute. reflexivity.
  - vm_compute. reflexivity.
Defined.

(** ** The wrapper class *)

Lemma mixin_fresh (ms : obj) m : forall t,
  nodup_keys ms = true ->
  (forall k, own_has k ms = true -> own_get k t = None) ->
  own_get m (fold_left (fun t kv =>
                          own_set (fst kv)
                            (match snd kv, own_get (fst kv) t with
                             | VObj _, Some (VObj ex) => VObj (merge_plain ex (snd kv))
                             | _, _ => snd kv
                             end) t) ms t)
  = match own_get m ms with Some v => Some v | None => own_get m t end.
Proof.
  induction ms as [|[k0 v0] ms IH]; intros t Hnd Hfresh; [done|].
  cbn [fold_left nodup_keys fst snd] in *.
  apply andb_prop in Hnd as [Hk0 Hnd]. apply negb_true_iff in Hk0.
  assert (Ht : own_get k0 t = None).
  { apply Hfresh. unfold own_has. cbn [own_get]. by rewrite String.eqb_refl. }
  rewrite Ht.
  replace (match v0 with VObj _ => v0 | _ => v0 end) with v0 by by destruct v0.
  rewrite IH; [|done|].
  - cbn [own_get]. destruct (String.eqb m k0) eqn:E.
    + apply String.eqb_eq in E as ->. unfold own_has in Hk0.
      destruct (own_get k0 ms); [done|]. by rewrite own_get_set_eq.
    + apply String.eqb_neq in E. by rewrite own_get_set_ne.
  - intros k Hk. assert (k <> k0).
    { intros ->. by rewrite Hk in Hk0. }
    rewrite own_get_set_ne by done. apply Hfresh.
    unfold own_has in *. cbn [own_get].
    by destruct (String.eqb k k0).
Qed.

Lemma deepMixIn_fresh ms m :
  nodup_keys ms = true -> own_get m (deepMixIn [] (VObj ms)) = own_get m ms.
Proof.
  intros Hnd. unfold deepMixIn. cbn [truthy own_entries].
  rewrite mixin_fresh by done. by destruct (own_get m ms).
Qed.

(** The wrapper class on the registered definition: its prototype is the
    one that the methods were mixed into, with [DSCompute] when the
    definition has computed properties. *)
Lemma registered_wrapper `{Collaborators} s definition name def cacheId dflt cs
    def0 dflt0 def1 :
  try_block s definition name = (Done def cacheId, dflt, cs) ->
  Resource (defaults s) definition = Ret (def0, dflt0) ->
  setup_parent def0 dflt0 = Ret def1 ->
  let D := apply_methods (pascalCase name)
             (wrapper_class (pascalCase name) (before_cache name def1 dflt0)) dflt0 in
  (exists def2, prepare_computed D dflt0 = (Ret tt, def2, dflt)
                /\ own_get "computed" def = own_get "computed" def2)
  /\ own_get (pascalCase name) def
     = Some (VClass (pascalCase name)
               ((if truthy (proto_get D dflt0 "computed")
                 then own_set "DSCompute" (VNative (NDSCompute name))
                 else fun proto => proto)
                  (deepMixIn [] (proto_get (before_cache name def1 dflt0) dflt0 "methods")))).
Proof.
  intros (def0' & dflt0' & def1' & def2 & HR & Hpar & _ & _ & _ & _ & HC & ->)%try_block_done
    HR' Hpar'.
  rewrite HR in HR'. simplify_eq. rewrite Hpar in Hpar'. simplify_eq. cbv zeta.
  assert (Hne : "computed" <> pascalCase name) by by apply lower_not_class.
  assert (Hm : "methods" <> pascalCase name) by by apply lower_not_class.
  split.
  { exists def2. split; [done|].
    apply own_get_finish_definition; [done|by vm_compute; intuition discriminate]. }
  set (D := apply_methods _ _ _) in *.
  assert (HD : own_get (pascalCase name) D
               = Some (VClass (pascalCase name)
                         (deepMixIn [] (proto_get (before_cache name def1 dflt0) dflt0 "methods")))).
  { unfold D, apply_methods, on_prototype, wrapper_class.
    rewrite own_get_set_eq, own_set_set, own_get_set_eq.
    unfold proto_get. by rewrite !own_get_set_ne by (try done; by apply lower_not_class). }
  assert (H2 : own_get (pascalCase name) def2 = own_get (pascalCase name) D).
  { by destruct (prepare_computed_frame _ _ _ _ _ HC (pascalCase name)) as [-> _]. }
  unfold finish_definition, proxy_methods.
  rewrite own_get_proxy_steps.
  - destruct (truthy _); [|by rewrite H2, HD].
    unfold on_prototype. rewrite H2, HD. by rewrite own_get_set_eq.
  - intros Hin. assert (Hl : starts_lower (pascalCase name) = true).
    { revert Hin. generalize (pascalCase name). intros k Hin.
      repeat (destruct Hin as [<-|Hin]; [done|]). done. }
    by rewrite pascalCase_capital in Hl.
Qed.

(** X8.  A registration creates the wrapper class of the resource: the
    definition's [class] is the name in Pascal case, which is an identifier
    other than [DS], and the definition holds under that name a class of
    that name.  The prototype of the class has the methods of the
    definition: every property of [methods], [DSCompute] apart, is on it
    with the value given. *)
Theorem wrapper_class_has_methods `{Collaborators}
    (s : DS) (definition : value) (o ms : obj) (def : obj) (s' : DS)
    (Hobj : named definition = VObj o)
    (Hnodup : nodup_keys o = true)
    (Hmethods : own_get "methods" o = Some (VObj ms))
    (Hms : nodup_keys ms = true)
    (Hinherit : own_get "methods" (defaults s) = None)
    (Hreg : defineResource s definition = (Ret def, s')) :
  exists name proto,
    definitions s' !! name = Some def
    /\ is_identifier (pascalCase name) = true
    /\ pascalCase name <> "DS"
    /\ own_get "class" def = Some (VStr (pascalCase name))
    /\ own_get (pascalCase name) def = Some (VClass (pascalCase name) proto)
    /\ forall m, m <> "DSCompute" -> own_get m proto = own_get m ms.
Proof.
  apply defineResource_ret in Hreg
    as (name & cacheId & dflt & cs & _ & _ & _ & Htry & ->).
  rewrite Hobj in *.
  pose proof (registered_class _ _ _ _ _ _ _ Htry) as Hclass.
  pose proof Htry
    as (def0 & dflt0 & def1 & def2 & HR & Hpar & _ & _ & Hid & Hds & _)%try_block_done.
  destruct (registered_wrapper _ _ _ _ _ _ _ _ _ _ Htry HR Hpar) as [_ Hcls].
  apply Resource_object in HR as (this & Hfold & ->).
  apply setup_parent_last in Hpar as [Hframe _].
  assert (Hthis : own_get "methods" this = Some (VObj ms)).
  { apply (copyProps_assigned o [] (defaults s) this dflt0); [done|done| |done].
    right. split; [done|]. intros ex. by rewrite Hinherit. }
  assert (Hm : proto_get (before_cache name def1 dflt0) dflt0 "methods" = VObj ms).
  { unfold proto_get. rewrite own_get_before_cache, Hframe by done.
    by rewrite own_get_set_ne, Hthis. }
  rewrite Hm in Hcls.
  exists name. eexists. cbn [definitions]. rewrite lookup_insert_eq.
  split; [done|]. split; [done|]. split; [done|]. split; [done|].
  split; [exact Hcls|].
  intros m Hne. destruct (truthy _); rewrite ?own_get_set_ne by done;
    by apply deepMixIn_fresh.
Qed.

Lemma wrapper_class_has_methods_witness :
  exists name proto,
    definitions account_store !! name = Some account_def
    /\ is_identifier (pascalCase name) = true
    /\ pascalCase name <> "DS"
    /\ own_get "class" account_def = Some (VStr (pascalCase name))
    /\ own_get (pascalCase name) account_def = Some (VClass (pascalCase name) proto)
    /\ forall m, m <> "DSCompute" ->
                 own_get m proto = own_get m [("greet", greet_fn); ("rank", VNum 1)].
Proof.
  apply (wrapper_class_has_methods empty_store account_definition
           [("name", VStr "account");
            ("methods", VObj [("greet", greet_fn); ("rank", VNum 1)]);
            ("computed", VObj [("fullName", fullName_fn)])]
           [("greet", greet_fn); ("rank", VNum 1)] account_def account_store).
  - reflexivity.
  - reflexivity.
  - reflexivity.
  - reflexivity.
  - reflexivity.
  - vm_compute. reflexivity.
Defined.

Lemma truthy_set_prop c k x : truthy (set_prop c k x) = truthy c.
Proof. destruct c; try done. simpl. by destruct (array_index _ _). Qed.

Lemma computed_field_truthy methods c field r c' :
  computed_field methods c field = (r, c') -> truthy c' = truthy c.
Proof.
  unfold computed_field.
  destruct (get_prop c field) as [fn0|]; [|by intros; simplify_eq].
  destruct (wrap_function c field fn0) as [c1 fn1] eqn:Hw.
  assert (H1 : truthy c1 = truthy c).
  { unfold wrap_function in Hw. destruct (isFunction fn0); simplify_eq;
      [apply truthy_set_prop|done]. }
  destruct (if truthy methods then has_prop field methods else Ret false);
    [|by intros; simplify_eq].
  destruct (expand_single c1 field fn1) as [[c2 fn2]|] eqn:He; [|by intros; simplify_eq].
  assert (H2 : truthy c2 = truthy c).
  { rewrite <- H1. unfold expand_single in He.
    destruct (get_prop fn1 "length") as [len|]; [|done]. cbn [mbind outcome_bind] in He.
    destruct (is_number len 1); [|by simplify_eq].
    destruct (get_prop fn1 "0") as [x|]; [|done]. cbn [mbind outcome_bind] in He.
    destruct (parameter_names x) as [deps|]; [|done]. cbn [mbind outcome_bind] in He.
    simplify_eq. apply truthy_set_prop. }
  destruct (record_deps c2 field fn2) as [c3|] eqn:Hr; [|by intros; simplify_eq].
  intros; simplify_eq. rewrite <- H2. unfold record_deps in Hr.
  destruct fn2; try done; [by simplify_eq|].
  destruct (mapM trim_value (removelast elems)); [|done]. cbn [mbind outcome_bind] in Hr.
  simplify_eq. apply truthy_set_prop.
Qed.

Lemma computed_fields_truthy methods fields : forall c r c',
  computed_fields methods c fields = (r, c') -> truthy c' = truthy c.
Proof.
  induction fields as [|f fields IH]; intros c r c'; cbn [computed_fields].
  { by intros; simplify_eq. }
  destruct (computed_field methods c f) as [[[]|e] c1] eqn:Hf.
  - intros Hc. rewrite (IH _ _ _ Hc). by eapply computed_field_truthy.
  - intros; simplify_eq. by eapply computed_field_truthy.
Qed.

Lemma prepare_computed_truthy def dflt r def' dflt' :
  prepare_computed def dflt = (r, def', dflt') ->
  truthy (proto_get def' dflt' "computed") = truthy (proto_get def dflt "computed").
Proof.
  unfold prepare_computed.
  destruct (truthy (proto_get def dflt "computed")) eqn:Ht; [|by intros; simplify_eq].
  destruct (computed_fields _ _ _) as [r0 c'] eqn:Hc.
  apply computed_fields_truthy in Hc. rewrite Ht in Hc.
  unfold own_has, proto_get.
  destruct (own_get "computed" def) eqn:Hown; intros; simplify_eq.
  - by rewrite own_get_set_eq.
  - rewrite Hown. by rewrite own_get_set_eq.
Qed.

(** X9.  The wrapper class of a definition that has, or inherits,
    computed properties carries [DSCompute] on its prototype, also when the
    definition's methods bring a [DSCompute] of their own; in a store that
    holds the definition, its call on an instance is the engine's [compute]
    called with the name of the resource and the instance. *)
Theorem computed_installs_DSCompute `{Collaborators}
    (s : DS) (definition : value) (def : obj) (s' : DS)
    (Hreg : defineResource s definition = (Ret def, s'))
    (Hcomputed : truthy (proto_get def (defaults s') "computed") = true) :
  exists name proto,
    definitions s' !! name = Some def
    /\ own_get (pascalCase name) def = Some (VClass (pascalCase name) proto)
    /\ own_get "DSCompute" proto = Some (VNative (NDSCompute name))
    /\ forall (t : DS) (d : obj) (this : value),
         definitions t !! name = Some d ->
         DSCompute_call name this t
         = DS_method "compute" [proto_get d (defaults t) "name"; this] t.
Proof.
  apply defineResource_ret in Hreg
    as (name & cacheId & dflt & cs & _ & _ & _ & Htry & ->).
  cbn [defaults] in Hcomputed.
  pose proof Htry as (def0 & dflt0 & def1 & ? & HR & Hpar & _)%try_block_done.
  destruct (registered_wrapper _ _ _ _ _ _ _ _ _ _ Htry HR Hpar)
    as [(def2 & HC & Hsame) Hcls].
  apply prepare_computed_truthy in HC.
  unfold proto_get at 1 in Hcomputed. rewrite Hsame in Hcomputed.
  fold (proto_get def2 dflt "computed") in Hcomputed.
  rewrite HC in Hcomputed. rewrite Hcomputed in Hcls.
  exists name. eexists. cbn [definitions]. rewrite lookup_insert_eq.
  split; [done|]. split; [exact Hcls|]. split; [by rewrite own_get_set_eq|].
  intros t d this Hd. unfold DSCompute_call. by rewrite Hd.
Qed.

Lemma computed_installs_DSCompute_witness :
  exists name proto,
    definitions person_store !! name = Some person_def
    /\ own_get (pascalCase name) person_def = Some (VClass (pascalCase name) proto)
    /\ own_get "DSCompute" proto = Some (VNative (NDSCompute name))
    /\ forall (t : DS) (d : obj) (this : value),
         definitions t !! name = Some d ->
         DSCompute_call name this t
         = DS_method "compute" [proto_get d (defaults t) "name"; this] t.
Proof.
  apply (computed_installs_DSCompute empty_store person_definition person_def person_store).
  - vm_compute. reflexivity.
  - vm_compute. reflexivity.
Defined.

(** ** Declarations that cannot be registered *)

Lemma computed_field_no_names methods o field decl :
  own_get field o = Some decl ->
  no_names decl = true ->
  fst (computed_field methods (VObj o) field) = Throw TypeError.
Proof.
  intros Hdecl Hno. unfold computed_field. cbn [get_prop]. rewrite Hdecl.
  cbn [default from_option id]. unfold wrap_function.
  replace (isFunction decl) with false by by destruct decl.
  destruct (if truthy methods then has_prop field methods else Ret false) as [b|e] eqn:Hm.
  - by destruct decl.
  - destruct (truthy methods); [|done]. by rewrite (has_prop_error _ _ _ Hm).
Qed.

Lemma computed_fields_no_names methods fields : forall o field decl c',
  NoDup fields ->
  In field fields ->
  own_get field o = Some decl ->
  no_names decl = true ->
  computed_fields methods (VObj o) fields <> (Ret tt, c').
Proof.
  induction fields as [|f fields IH]; intros o field decl c' Hnd Hin Hdecl Hno;
    [done|].
  apply NoDup_cons in Hnd as [Hf Hnd]. cbn [computed_fields].
  destruct (computed_field methods (VObj o) f) as [[[]|e] c1] eqn:Hstep; [|done].
  destruct Hin as [->|Hin].
  - pose proof (computed_field_no_names methods o field decl Hdecl Hno) as Hthrow.
    by rewrite Hstep in Hthrow.
  - pose proof (computed_field_other _ _ _ _ _ Hstep) as (o1 & -> & Ho1).
    apply (IH o1 field decl); try done.
    rewrite Ho1; [done|]. intros ->. by apply Hf, list_elem_of_In.
Qed.

(** X10.  A definition that gives [computed] as a plain object with a
    field declared as a number, a boolean, [null] or [undefined] is not
    registered on a store whose defaults have no [computed]:
    [defineResource] raises. *)
Theorem computed_needs_names `{Collaborators}
    (s : DS) (definition : value) (o cs : obj) (field : string) (decl : value)
    (Hobj : named definition = VObj o)
    (Hnodup : nodup_keys o = true)
    (Hcomputed : own_get "computed" o = Some (VObj cs))
    (Hfields : nodup_keys cs = true)
    (Hinherit : own_get "computed" (defaults s) = None)
    (Hdecl : own_get field cs = Some decl)
    (Hno : no_names decl = true) :
  exists e, fst (defineResource s definition) = Throw e.
Proof.
  destruct (defineResource s definition) as [[def|e] s'] eqn:Hreg; [|by exists e].
  exfalso.
  apply defineResource_ret in Hreg as (name & cacheId & dflt & cs0 & _ & _ & _ & Htry & ->).
  rewrite Hobj in Htry.
  apply try_block_done in Htry
    as (def0 & dflt0 & def1 & def2 & HR & Hpar & _ & _ & _ & _ & HC & ->).
  apply setup_parent_last in Hpar as [Hframe _].
  apply Resource_object in HR as (this & Hfold & ->).
  assert (Hcls : "computed" <> pascalCase name) by by apply lower_not_class.
  assert (Hthis : own_get "computed" this = Some (VObj cs)).
  { apply (copyProps_assigned o [] (defaults s) this dflt0); [done|done| |done].
    right. split; [done|]. intros ex. by rewrite Hinherit. }
  set (D := apply_methods _ _ _) in *.
  assert (HD : own_get "computed" D = Some (VObj cs)).
  { unfold D, apply_methods. rewrite own_get_on_prototype by done.
    rewrite own_get_wrapper_class, own_get_before_cache, Hframe by done.
    by rewrite own_get_set_ne. }
  unfold prepare_computed, proto_get in HC. unfold own_has in HC. rewrite HD in HC.
  cbn [truthy own_entries] in HC.
  destruct (computed_fields _ (VObj cs) (List.map fst cs)) as [r c'] eqn:Hloop.
  simplify_eq.
  eapply computed_fields_no_names in Hloop; eauto using nodup_keys_NoDup, own_get_In.
Qed.

Lemma computed_needs_names_witness :
  exists e,
    fst (defineResource empty_store
           (VObj [("name", VStr "user"); ("computed", VObj [("fullName", VNum 5)])]))
    = Throw e.
Proof.
  apply (computed_needs_names empty_store
           (VObj [("name", VStr "user"); ("computed", VObj [("fullName", VNum 5)])])
           [("name", VStr "user"); ("computed", VObj [("fullName", VNum 5)])]
           [("fullName", VNum 5)] "fullName" (VNum 5));
    reflexivity.
Defined.

Lemma foldM_throws {A B} (f : A -> B -> outcome A) b (l : list B) : forall a,
  (forall a, exists e, f a b = Throw e) -> In b l -> exists e, foldM f a l = Throw e.
Proof.
  induction l as [|b' l IH]; intros a Hb Hin; [done|]. cbn [foldM].
  destruct Hin as [->|Hin].
  - destruct (Hb a) as [e ->]. by exists e.
  - destruct (f a b') as [a'|e]; [|by exists e]. by apply IH.
Qed.

Lemma own_get_elem {A} k (v : A) o : own_get k o = Some v -> In (k, v) o.
Proof.
  induction o as [|[k' v'] o IH]; simpl; [done|].
  destruct (String.eqb k k') eqn:E; [|by right; apply IH].
  apply String.eqb_eq in E as ->. intros [= ->]. by left.
Qed.

(** X11.  A definition that gives [relations] as a plain object whose
    [belongsTo] is a plain object with a relation that is [null] or
    [undefined], alone or in an array, is not registered on a store whose
    defaults have no [relations]: [defineResource] raises, as the parent
    configuration reads the [parent] flag of the relation. *)
Theorem relation_must_be_given `{Collaborators}
    (s : DS) (definition : value) (o rs bs : obj)
    (modelName : string) (related relation : value)
    (Hobj : named definition = VObj o)
    (Hnodup : nodup_keys o = true)
    (Hrelations : own_get "relations" o = Some (VObj rs))
    (Hinherit : own_get "relations" (defaults s) = None)
    (HbelongsTo : own_get "belongsTo" rs = Some (VObj bs))
    (Hrelated : own_get modelName bs = Some related)
    (Hin : In relation (relations_of related))
    (Hnull : nullish relation = true) :
  exists e, fst (defineResource s definition) = Throw e.
Proof.
  destruct (defineResource s definition) as [[def|e] s'] eqn:Hreg; [|by exists e].
  exfalso.
  apply defineResource_ret in Hreg as (name & cacheId & dflt & cs0 & _ & _ & _ & Htry & ->).
  rewrite Hobj in Htry.
  apply try_block_done in Htry as (def0 & dflt0 & def1 & def2 & HR & Hpar & _).
  apply Resource_object in HR as (this & Hfold & ->).
  assert (Hthis : own_get "relations" this = Some (VObj rs)).
  { apply (copyProps_assigned o [] (defaults s) this dflt0); [done|done| |done].
    right. split; [done|]. intros ex. by rewrite Hinherit. }
  revert Hpar. unfold setup_parent, proto_get.
  rewrite own_get_set_ne, Hthis by done. cbn [truthy get_prop mbind outcome_bind].
  rewrite HbelongsTo. cbn [default from_option id truthy own_entries].
  set (def0 := own_set _ _ _).
  destruct (foldM_throws belongsTo_step (modelName, related) bs def0) as [e He];
    [|by apply own_get_elem|by rewrite He].
  intros a. unfold belongsTo_step. cbn [fst snd].
  apply (foldM_throws _ relation); [|done].
  intros a'. exists TypeError. by destruct relation.
Qed.

Lemma relation_must_be_given_witness :
  exists e, fst (defineResource empty_store orphan_definition) = Throw e.
Proof.
  apply (relation_must_be_given empty_store orphan_definition
           [("name", VStr "orphan");
            ("relations",
             VObj [("belongsTo",
                    VObj [("user", VArr [VObj [("localKey", VStr "userId")]; VNull] [])])])]
           [("belongsTo",
             VObj [("user", VArr [VObj [("localKey", VStr "userId")]; VNull] [])])]
           [("user", VArr [VObj [("localKey", VStr "userId")]; VNull] [])]
           "user" (VArr [VObj [("localKey", VStr "userId")]; VNull] []) VNull);
    try reflexivity.
  simpl. tauto.
Defined.

(** ** What [getEndpoint] does to its options *)
















(** ** A resource without relations *)

Lemma parents_declared_none v : truthy v = false -> parents_declared (prop v "belongsTo") = [].
Proof. by destruct v as [| | | |[|]| | | | |]. Qed.

(** X13.  A resource whose definition gives no relations and no parent,
    on a store whose defaults give none either, has a flat endpoint: for
    any [attrs] and any options object, [getEndpoint] returns the endpoint
    of the options when that is truthy, and else the endpoint of the
    definition, which is its name unless the definition gave one. *)
Theorem unrelated_resource_has_flat_endpoint `{Collaborators}
    (s : DS) (definition : value) (o : obj) (def : obj) (s' : DS)
    (fuel : nat) (attrs : value) (oo : obj)
    (Hobj : named definition = VObj o)
    (Hnodup : nodup_keys o = true)
    (Hrelations : own_get "relations" o = None)
    (Hparent : own_get "parent" o = None)
    (Hdefaults : own_get "relations" (defaults s) = None)
    (Hinherit : own_get "parent" (defaults s) = None)
    (Hreg : defineResource s definition = (Ret def, s')) :
  exists name options',
    own_get "name" o = Some (VStr name)
    /\ getEndpoint (S fuel) s' name def attrs (VObj oo)
       = Some (Ret (js_or (prop (VObj oo) "endpoint")
                      (match own_get "endpoint" o with
                       | Some e => e
                       | None => VStr name
                       end)),
               options').
Proof.
  apply defineResource_ret in Hreg
    as (name & cacheId & dflt & cs & Hname & _ & _ & Htry & ->).
  rewrite Hobj in *. apply name_of_object in Hname.
  pose proof Htry as (def0 & dflt0 & def1 & HR & Hpar & Hkept & Hdflt)%registration_keeps.
  apply Resource_object in HR as (this & Hfold & ->).
  assert (Hcopied : forall k, own_get k o = None ->
                              own_get k this = None /\ own_get k dflt0 = own_get k (defaults s)).
  { intros k Hk.
    destruct (copyProps_copied _ _ _ _ _ k Hnodup ltac:(intros v Hv; by rewrite Hv in Hk)
                Hfold) as [-> ->].
    by rewrite Hk. }
  destruct (Hcopied "relations" Hrelations) as [Hr1 Hr2].
  destruct (Hcopied "parent" Hparent) as [Hp1 Hp2].
  assert (Hthis : own_get "name" this = Some (VStr name)).
  { eapply copyProps_assigned; eauto. by left. }
  apply setup_parent_last in Hpar as [_ Hlast].
  rewrite parents_declared_none in Hlast;
    [|unfold proto_get; by rewrite own_get_set_ne, Hr1, Hr2, Hdefaults].
  cbn [last] in Hlast. subst def1.
  assert (He : own_get "endpoint" def
               = Some (match own_get "endpoint" o with
                       | Some e => e
                       | None => VStr name
                       end)).
  { rewrite Hkept by done. rewrite own_get_set_eq. unfold proto_get. by rewrite Hthis. }
  set (s' := {| defaults := dflt |}).
  assert (Hunset : proto_get def (defaults s') "parent" = VUndefined).
  { unfold proto_get. cbn [defaults s'].
    rewrite !Hkept by done. rewrite own_get_set_ne, Hp1 by done.
    by rewrite Hdflt, Hp2, Hinherit. }
  assert (Hno : parent_of s' def = None).
  { unfold parent_of. by rewrite Hunset. }
  exists name.
  rewrite getEndpoint_unfold, Hno, Hunset. cbv zeta. cbn [truthy andb].
  destruct (finish_endpoint_ready
              (js_or (prop (VObj oo) "endpoint") (proto_get def (defaults s') "endpoint"))
              (to_string (proto_get def (defaults s') "parentKey")) VUndefined
              (default_options (VObj oo)) (default_options_ready oo))
    as (options' & -> & _).
  exists options'. split; [done|].
  cbn [defaults s']. unfold proto_get. by rewrite He.
Qed.

Lemma unrelated_resource_has_flat_endpoint_witness :
  exists name options',
    own_get "name" [("name", VStr "user")] = Some (VStr name)
    /\ getEndpoint 1 user_store name user_def (VNum 5)
         (VObj [("endpoint", VStr "people")])
       = Some (Ret (js_or (prop (VObj [("endpoint", VStr "people")]) "endpoint")
                      (match own_get "endpoint" [("name", VStr "user")] with
                       | Some e => e
                       | None => VStr name
                       end)),
               options').
Proof.
  apply (unrelated_resource_has_flat_endpoint empty_store (VStr "user")
           [("name", VStr "user")] user_def user_store 0 (VNum 5)
           [("endpoint", VStr "people")]).
  - reflexivity.
  - reflexivity.
  - reflexivity.
  - reflexivity.
  - reflexivity.
  - reflexivity.
  - vm_compute. reflexivity.
Defined.

(** ** The registration of a name *)

Lemma Resource_bare dflt n :
  Resource dflt (VObj [("name", VStr n)])
  = Ret ([("name", VStr n); ("endpoint", VStr n)], dflt).
Proof. reflexivity. Qed.

Lemma setup_parent_bare dflt n :
  own_get "relations" dflt = None ->
  setup_parent [("name", VStr n); ("endpoint", VStr n)] dflt
  = Ret [("name", VStr n); ("endpoint", VStr n)].
Proof. intros Hrel. unfold setup_parent, proto_get. cbn [own_get String.eqb Ascii.eqb Bool.eqb]. by rewrite Hrel. Qed.

Lemma before_cache_bare `{Collaborators} dflt n k :
  k <> "getEndpoint" -> k <> "defaultFilter" -> k <> "filter" ->
  proto_get (before_cache n [("name", VStr n); ("endpoint", VStr n)] dflt) dflt k
  = proto_get [("name", VStr n); ("endpoint", VStr n)] dflt k.
Proof. intros. unfold proto_get. by rewrite own_get_before_cache. Qed.

Lemma cache_options_bare `{Collaborators} dflt n :
  cache_options_for (before_cache n [("name", VStr n); ("endpoint", VStr n)] dflt) dflt n
  = cache_options_for [("name", VStr n)] dflt n.
Proof.
  apply cache_options_for_ext. intros k Hk.
  rewrite before_cache_bare
    by (simpl in Hk; destruct Hk as [<-|[<-|[<-|[<-|[<-|[]]]]]]; done).
  simpl in Hk. by destruct Hk as [<-|[<-|[<-|[<-|[<-|[]]]]]].
Qed.

(** The [try] block on a bare name, when the defaults bring no relations
    and no computed properties. *)
Lemma try_block_bare `{Collaborators} s n :
  own_get "relations" (defaults s) = None ->
  own_get "computed" (defaults s) = None ->
  let cls := pascalCase n in
  let def := wrapper_class cls
               (before_cache n [("name", VStr n); ("endpoint", VStr n)] (defaults s)) in
  try_block s (VObj [("name", VStr n)]) n
  = match cacheFactory ("DS." +:+ n) (cache_options_for [("name", VStr n)] (defaults s) n)
            (caches s) with
    | Throw e => (Failed e, defaults s, caches s)
    | Ret cs =>
        if negb (is_identifier cls) then (Failed SyntaxError, defaults s, cs)
        else if String.eqb cls "DS" then (Clobbered def, defaults s, cs)
        else (Done (proxy_methods n (apply_methods cls def (defaults s))) ("DS." +:+ n),
              defaults s, cs)
    end.
Proof.
  intros Hrel Hcomp. cbv zeta. unfold try_block.
  rewrite Resource_bare, setup_parent_bare by done.
  rewrite cache_options_bare, before_cache_bare by done.
  change (to_string (proto_get [("name", VStr n); ("endpoint", VStr n)] (defaults s) "name"))
    with n.
  destruct (cacheFactory _ _ _) as [cs|]; [|done].
  destruct (negb (is_identifier (pascalCase n))); [done|].
  destruct (String.eqb (pascalCase n) "DS"); [done|].
  set (D := apply_methods _ _ _).
  assert (HD : proto_get D (defaults s) "computed" = VUndefined).
  { assert (Hcls : "computed" <> pascalCase n) by by apply lower_not_class.
    unfold proto_get, D, apply_methods.
    rewrite own_get_on_prototype, own_get_wrapper_class, own_get_before_cache by done.
    cbn [own_get String.eqb Ascii.eqb Bool.eqb]. by rewrite Hcomp. }
  unfold prepare_computed. rewrite HD. cbn [truthy].
  unfold finish_definition. reflexivity.
Qed.

Lemma defineResource_bare `{Collaborators} s x :
  defineResource s (VStr x)
  = let n := strip_spaces x in
    if registry_has (store s) n
    then (Throw (RuntimeError (errorPrefix +:+ n +:+ " is already registered!")), s)
    else
      match try_block s (VObj [("name", VStr n)]) n with
      | (Done def cacheId, dflt, cs) =>
          (Ret def,
           {| defaults := dflt;
              definitions := <[n := def]> (definitions s);
              store := <[to_string (proto_get def dflt "name") :=
                           new_store_entry cacheId]> (store s);
              caches := cs |})
      | (Failed e, dflt, cs) =>
          (Throw e,
           {| defaults := dflt;
              definitions := delete n (definitions s);
              store := delete n (store s);
              caches := cs |})
      | (Clobbered def, dflt, cs) =>
          (Throw TypeError,
           {| defaults := dflt;
              definitions := <[n := def]> (definitions s);
              store := store s;
              caches := cs |})
      end.
Proof. reflexivity. Qed.

(** X14.  On a store whose defaults bring no relations and no computed
    properties, [defineResource] called with a string returns a definition
    exactly when the name, which is the string without its whitespace, has
    no store entry and is not the name of a member that every object
    inherits (such as [constructor]), the cache id [DS.<name>] is free and
    the cache library accepts the options, and the name in Pascal case is
    an identifier other than [DS]. *)
Theorem bare_name_registers `{Collaborators} (s : DS) (x : string)
    (Hrelations : own_get "relations" (defaults s) = None)
    (Hcomputed : own_get "computed" (defaults s) = None) :
  (exists def s', defineResource s (VStr x) = (Ret def, s'))
  <-> store s !! strip_spaces x = None
      /\ inherited (strip_spaces x) = false
      /\ caches s !! ("DS." +:+ strip_spaces x) = None
      /\ cache_accepts
           (cache_options_for [("name", VStr (strip_spaces x))] (defaults s)
              (strip_spaces x)) = true
      /\ is_identifier (pascalCase (strip_spaces x)) = true
      /\ pascalCase (strip_spaces x) <> "DS".
Proof.
  rewrite defineResource_bare. cbv zeta.
  rewrite try_block_bare by done. cbv zeta. unfold cacheFactory.
  set (n := strip_spaces x).
  split.
  - intros (def & s' & Hreg). revert Hreg.
    destruct (registry_has (store s) n) eqn:Hs; [done|].
    apply registry_has_false in Hs as [Hs Hi].
    destruct (caches s !! ("DS." +:+ n)); [done|].
    destruct (cache_accepts _); [|done].
    destruct (is_identifier (pascalCase n)); [|done]. cbn [negb].
    destruct (String.eqb (pascalCase n) "DS") eqn:Hds; [done|].
    apply String.eqb_neq in Hds. done.
  - intros (Hs & Hi & Hc & Ha & Hid & Hds).
    rewrite registry_has_free by done.
    rewrite Hc, Ha, Hid. cbn [negb].
    apply String.eqb_neq in Hds. rewrite Hds. eauto.
Qed.

Lemma bare_name_registers_witness :
  (exists def s', defineResource empty_store (VStr " us er ") = (Ret def, s'))
  <-> store empty_store !! strip_spaces " us er " = None
      /\ inherited (strip_spaces " us er ") = false
      /\ caches empty_store !! ("DS." +:+ strip_spaces " us er ") = None
      /\ cache_accepts
           (cache_options_for [("name", VStr (strip_spaces " us er "))]
              (defaults empty_store) (strip_spaces " us er ")) = true
      /\ is_identifier (pascalCase (strip_spaces " us er ")) = true
      /\ pascalCase (strip_spaces " us er ") <> "DS".
Proof.
  apply (bare_name_registers empty_store " us er ").
  - reflexivity.
  - reflexivity.
Defined.

(** A name that every object inherits is refused as already registered,
    on a store without resources. *)
Example inherited_name_is_refused :
  defineResource empty_store (VStr "constructor")
  = (Throw (RuntimeError (errorPrefix +:+ "constructor" +:+ " is already registered!")),
     empty_store).
Proof. reflexivity. Qed.

(** X15.  A name whose Pascal case is [DS]: the [eval] of the wrapper
    class redeclares the variable [DS] of [defineResource].  On a store
    whose defaults bring no relations and no computed properties, when the
    name has no store entry and is not the name of an inherited member,
    the cache id is free and the cache library accepts the options, the
    registration raises a TypeError, and the [catch] block raises in turn
    before its two [delete]s: the definition stays in [DS.definitions],
    without a store entry, and its cache stays registered. *)
Theorem class_named_DS `{Collaborators} (s : DS) (x : string)
    (Hrelations : own_get "relations" (defaults s) = None)
    (Hcomputed : own_get "computed" (defaults s) = None)
    (Hfree : store s !! strip_spaces x = None)
    (Hinherited : inherited (strip_spaces x) = false)
    (Hcache : caches s !! ("DS." +:+ strip_spaces x) = None)
    (Haccepts : cache_accepts
                  (cache_options_for [("name", VStr (strip_spaces x))] (defaults s)
                     (strip_spaces x)) = true)
    (Hclass : pascalCase (strip_spaces x) = "DS") :
  exists def s',
    defineResource s (VStr x) = (Throw TypeError, s')
    /\ definitions s' !! strip_spaces x = Some def
    /\ own_get "class" def = Some (VStr "DS")
    /\ store s' = store s
    /\ is_Some (caches s' !! ("DS." +:+ strip_spaces x)).
Proof.
  rewrite defineResource_bare. cbv zeta.
  rewrite try_block_bare by done. cbv zeta. unfold cacheFactory.
  set (n := strip_spaces x) in *.
  rewrite registry_has_free by done.
  rewrite Hcache, Haccepts, Hclass.
  change (negb (is_identifier "DS")) with false. cbv iota.
  change ("DS" =? "DS")%string with true. cbv iota.
  eexists _, _. split; [done|]. cbn [definitions store caches].
  rewrite !lookup_insert_eq. split; [done|]. split; [|split; [done|eauto]].
  unfold wrapper_class. by rewrite own_get_set_ne, own_get_set_eq.
Qed.

Lemma class_named_DS_witness :
  exists def s',
    defineResource empty_store (VStr "dS") = (Throw TypeError, s')
    /\ definitions s' !! strip_spaces "dS" = Some def
    /\ own_get "class" def = Some (VStr "DS")
    /\ store s' = store empty_store
    /\ is_Some (caches s' !! ("DS." +:+ strip_spaces "dS")).
Proof.
  apply (class_named_DS empty_store "dS"); reflexivity.
Defined.

(** ** The names that a computed field depends on *)

Lemma append_cons c x y : String c x +:+ y = String c (x +:+ y).
Proof. reflexivity. Qed.

Lemma append_empty y : "" +:+ y = y.
Proof. reflexivity. Qed.

Lemma to_open_paren_app pre r :
  all_chars before_paren pre = true -> to_open_paren (pre +:+ String "(" r) = Some r.
Proof.
  induction pre as [|c pre IH]; [done|]. rewrite append_cons.
  cbn [all_chars to_open_paren]. unfold before_paren at 1. intros [[H1 H2]%andb_prop Hpre]%andb_prop.
  apply negb_true_iff in H1, H2. rewrite H1, H2. by apply IH.
Qed.

Lemma to_close_paren_app params rest :
  all_chars in_parens params = true ->
  to_close_paren (params +:+ String ")" rest) = Some params.
Proof.
  induction params as [|c params IH]; [done|]. rewrite append_cons.
  cbn [all_chars to_close_paren]. unfold in_parens at 1. intros [H1 Hp]%andb_prop.
  apply negb_true_iff in H1. rewrite H1, IH by done. done.
Qed.

Lemma prefix_function x : String.prefix "function" ("function" +:+ x) = true.
Proof. vm_compute. by destruct x. Qed.

Lemma match_params_function pre params rest :
  all_chars before_paren pre = true ->
  all_chars in_parens params = true ->
  match_params ("function" +:+ pre +:+ "(" +:+ params +:+ ")" +:+ rest) = Some params.
Proof.
  intros Hpre Hparams.
  assert (Hhere : params_here ("function" +:+ pre +:+ "(" +:+ params +:+ ")" +:+ rest)
                  = Some params).
  { unfold params_here.
    rewrite prefix_function.
    rewrite !append_cons, !append_empty. cbn [drop_chars].
    rewrite to_open_paren_app by done. by apply to_close_paren_app. }
  revert Hhere. rewrite (append_cons "f"). cbn [match_params]. by intros ->.
Qed.

Lemma trimmed_names_strings names :
  trimmed_names (List.map VStr names)
  = List.map VStr (List.filter nonempty (List.map trim names)).
Proof.
  unfold trimmed_names. induction names as [|x names IH]; [done|].
  cbn [List.map List.filter truthy]. unfold nonempty at 1.
  destruct (negb (String.eqb (trim x) "")); cbn [List.map]; by rewrite IH.
Qed.

(** The loop over the computed fields of a registered definition. *)
Lemma registered_computed `{Collaborators} s definition o cs def s' :
  named definition = VObj o ->
  nodup_keys o = true ->
  own_get "computed" o = Some (VObj cs) ->
  nodup_keys cs = true ->
  own_get "computed" (defaults s) = None ->
  defineResource s definition = (Ret def, s') ->
  exists methods cs',
    computed_fields methods (VObj cs) (List.map fst cs) = (Ret tt, VObj cs')
    /\ own_get "computed" def = Some (VObj cs').
Proof.
  intros Hobj Hnodup Hcomputed Hfields Hinherit Hreg.
  apply defineResource_ret in Hreg as (name & cacheId & dflt & cs0 & _ & _ & _ & Htry & ->).
  rewrite Hobj in Htry.
  apply try_block_done in Htry
    as (def0 & dflt0 & def1 & def2 & HR & Hpar & _ & _ & _ & _ & HC & ->).
  apply setup_parent_last in Hpar as [Hframe _].
  apply Resource_object in HR as (this & Hfold & ->).
  assert (Hcls : "computed" <> pascalCase name) by by apply lower_not_class.
  assert (Hthis : own_get "computed" this = Some (VObj cs)).
  { apply (copyProps_assigned o [] (defaults s) this dflt0); [done|done| |done].
    right. split; [done|]. intros ex. by rewrite Hinherit. }
  set (D := apply_methods _ _ _) in *.
  assert (HD : own_get "computed" D = Some (VObj cs)).
  { unfold D, apply_methods. rewrite own_get_on_prototype by done.
    rewrite own_get_wrapper_class, own_get_before_cache, Hframe by done.
    by rewrite own_get_set_ne. }
  unfold prepare_computed, proto_get in HC. unfold own_has in HC. rewrite HD in HC.
  cbn [truthy own_entries] in HC.
  destruct (computed_fields _ (VObj cs) (List.map fst cs)) as [r c'] eqn:Hloop.
  simplify_eq.
  pose proof Hloop as (cs' & -> & _)%computed_fields_prepared;
    [|by apply nodup_keys_NoDup].
  eexists _, cs'. split; [exact Hloop|].
  rewrite own_get_finish_definition; [by rewrite own_get_set_eq|done|].
  by vm_compute; intuition discriminate.
Qed.

(** X16.  The definition gives [computed] as a plain object and the
    defaults of the store have no [computed]; the registration succeeds.
    A computed field declared as a bare function whose source text is
    [function], then a text without an opening parenthesis or a line
    break, then an opening parenthesis, a text [params] without a closing
    parenthesis, and a closing parenthesis: after the registration the
    entry is the array of the comma-separated pieces of [params], as they
    stand, followed by the function, and its [deps] are those pieces
    trimmed, the empty ones left out.  [params] is the parameter list of
    a function written without a comment before it and without a closing
    parenthesis inside it. *)
Theorem function_parameters_are_deps `{Collaborators}
    (s : DS) (definition : value) (o cs : obj) (def : obj) (s' : DS)
    (field : string) (id : nat) (pre params rest : string)
    (Hobj : named definition = VObj o)
    (Hnodup : nodup_keys o = true)
    (Hcomputed : own_get "computed" o = Some (VObj cs))
    (Hfields : nodup_keys cs = true)
    (Hinherit : own_get "computed" (defaults s) = None)
    (Hdecl : own_get field cs
             = Some (VFun id ("function" +:+ pre +:+ "(" +:+ params +:+ ")" +:+ rest)))
    (Hpre : all_chars before_paren pre = true)
    (Hparams : all_chars in_parens params = true)
    (Hreg : defineResource s definition = (Ret def, s')) :
  exists cs' p,
    own_get "computed" def = Some (VObj cs')
    /\ own_get field cs'
       = Some (VArr (List.map VStr (split_comma params)
                     ++ [VFun id ("function" +:+ pre +:+ "(" +:+ params +:+ ")" +:+ rest)])
                    p)
    /\ own_get "deps" p
       = Some (VArr (List.map VStr (List.filter nonempty
                                      (List.map trim (split_comma params)))) []).
Proof.
  destruct (registered_computed _ _ _ _ _ _ Hobj Hnodup Hcomputed Hfields Hinherit Hreg)
    as (methods & cs' & Hloop & Hdef).
  apply computed_fields_prepared in Hloop as (cs1 & [= <-] & _ & Hin);
    [|by apply nodup_keys_NoDup].
  destruct (Hin field _ (own_get_In _ _ _ Hdecl) Hdecl) as (l & p & Hentry & Hdeps & Hl);
    [by left|].
  cbv beta iota in Hl. destruct Hl as (m & Hm & ->).
  cbn [to_string] in Hm. rewrite match_params_function in Hm by done. simplify_eq.
  exists cs', p. split; [done|]. split; [done|].
  by rewrite Hdeps, removelast_last, trimmed_names_strings.
Qed.

Lemma function_parameters_are_deps_witness :
  exists cs' p,
    own_get "computed" person_def = Some (VObj cs')
    /\ own_get "fullName" cs'
       = Some (VArr (List.map VStr (split_comma "first, last")
                     ++ [VFun 1 ("function" +:+ " " +:+ "(" +:+ "first, last" +:+ ")"
                                 +:+ " { return first + ' ' + last; }")])
                    p)
    /\ own_get "deps" p
       = Some (VArr (List.map VStr (List.filter nonempty
                                      (List.map trim (split_comma "first, last")))) []).
Proof.
  apply (function_parameters_are_deps empty_store person_definition
           [("name", VStr "person");
            ("computed",
             VObj [("fullName", fullName_fn);
                   ("initials",
                    VArr [VStr " first"; VStr ""; VStr "last "; initials_fn] [])])]
           [("fullName", fullName_fn);
            ("initials", VArr [VStr " first"; VStr ""; VStr "last "; initials_fn] [])]
           person_def person_store "fullName" 1 " " "first, last"
           " { return first + ' ' + last; }").
  - reflexivity.
  - reflexivity.
  - reflexivity.
  - reflexivity.
  - reflexivity.
  - reflexivity.
  - reflexivity.
  - reflexivity.
  - vm_compute. reflexivity.
Defined.

Lemma trim_left_start x : starts_with_space (trim_left x) = false.
Proof.
  induction x as [|c x IH]; [done|]. cbn [trim_left].
  destruct (js_space c) eqn:E; [done|]. cbn [starts_with_space]. done.
Qed.

Lemma trim_right_end x : ends_with_space (trim_right x) = false.
Proof.
  induction x as [|c x IH]; [done|]. cbn [trim_right].
  destruct (trim_right x) as [|c' x'] eqn:E.
  - destruct (js_space c) eqn:Ec; [done|]. cbn [ends_with_space]. done.
  - done.
Qed.

Lemma trim_right_start x :
  starts_with_space x = false -> starts_with_space (trim_right x) = false.
Proof.
  destruct x as [|c x]; [done|]. cbn [starts_with_space trim_right]. intros Hc.
  destruct (trim_right x); rewrite ?Hc; done.
Qed.

Lemma trim_clean x : nonempty (trim x) = true -> clean_name (trim x) = true.
Proof.
  intros Hne. unfold clean_name, trim in *.
  by rewrite Hne, trim_right_start, trim_right_end by apply trim_left_start.
Qed.

Lemma trimmed_clean names :
  forallb clean_name (List.filter nonempty (List.map trim names)) = true.
Proof.
  induction names as [|x names IH]; [done|]. cbn [List.map List.filter].
  destruct (nonempty (trim x)) eqn:E; [|done].
  cbn [forallb]. by rewrite trim_clean, IH.
Qed.

Lemma mapM_trim_strings l deps :
  mapM trim_value l = Ret deps -> exists names, l = List.map VStr names.
Proof.
  revert deps. induction l as [|v l IH]; intros deps Hm; [by exists []|].
  cbn [mapM] in Hm. destruct v; try done. cbn [trim_value mbind outcome_bind] in Hm.
  destruct (mapM trim_value l) as [d|]; [|done].
  destruct (IH d eq_refl) as [names ->]. by exists (s :: names).
Qed.

(** The entry of a field after its callback, when it is an array. *)
Lemma computed_field_array methods o field o' l p :
  computed_field methods (VObj o) field = (Ret tt, VObj o') ->
  own_get field o' = Some (VArr l p) ->
  exists names,
    removelast l = List.map VStr names
    /\ own_get "deps" p
       = Some (VArr (List.map VStr (List.filter nonempty (List.map trim names))) []).
Proof.
  unfold computed_field. cbn [get_prop].
  set (fn0 := default VUndefined (own_get field o)).
  assert (H0 : exists o0, VObj o = VObj o0 /\ default VUndefined (own_get field o0) = fn0)
    by by exists o.
  revert H0. generalize (VObj o) at 1 2. intros c0 H0.
  destruct (wrap_function c0 field fn0) as [c1 fn1] eqn:Hw.
  assert (H1 : exists o1, c1 = VObj o1 /\ default VUndefined (own_get field o1) = fn1).
  { destruct H0 as (o0 & -> & H0). unfold wrap_function in Hw.
    destruct (isFunction fn0); simplify_eq; [|by exists o0].
    eexists. split; [done|]. by rewrite own_get_set_eq. }
  clear H0 Hw.
  destruct (if truthy methods then has_prop field methods else Ret false); [|done].
  destruct (expand_single c1 field fn1) as [[c2 fn2]|] eqn:He; [|done].
  assert (H2 : exists o2, c2 = VObj o2 /\ default VUndefined (own_get field o2) = fn2).
  { destruct H1 as (o1 & -> & H1). unfold expand_single in He.
    destruct (get_prop fn1 "length") as [len|]; [|done]. cbn [mbind outcome_bind] in He.
    destruct (is_number len 1); [|simplify_eq; by exists o1].
    destruct (get_prop fn1 "0") as [x|]; [|done]. cbn [mbind outcome_bind] in He.
    destruct (parameter_names x) as [deps|]; [|done].
    cbn [mbind outcome_bind set_prop] in He. simplify_eq.
    eexists. split; [done|]. by rewrite own_get_set_eq. }
  clear H1 He. destruct H2 as (o2 & -> & H2).
  destruct (record_deps (VObj o2) field fn2) as [c3|] eqn:Hr; [|done].
  intros [= ->] Hentry. unfold record_deps in Hr.
  destruct fn2 as [| | | |x| | | |l2 p2|]; try done.
  - simplify_eq. by rewrite Hentry in H2.
  - destruct (mapM trim_value (removelast l2)) as [deps|] eqn:Hm; [|done].
    cbn [mbind outcome_bind set_prop] in Hr. simplify_eq.
    rewrite own_get_set_eq in Hentry. simplify_eq.
    destruct (mapM_trim_strings _ _ Hm) as [names Hnames].
    exists names. split; [done|]. rewrite own_get_set_eq.
    apply mapM_trim in Hm. subst deps. rewrite Hnames.
    f_equal. f_equal. apply trimmed_names_strings.
Qed.

Lemma own_get_keys {A} k (o : list (string * A)) :
  ~ In k (List.map fst o) -> own_get k o = None.
Proof.
  intros Hk. destruct (own_get k o) eqn:E; [|done].
  by apply own_get_In in E.
Qed.

Lemma computed_fields_arrays methods fields : forall o o',
  NoDup fields ->
  computed_fields methods (VObj o) fields = (Ret tt, VObj o') ->
  forall k l p,
    In k fields -> own_get k o' = Some (VArr l p) ->
    exists names,
      removelast l = List.map VStr names
      /\ own_get "deps" p
         = Some (VArr (List.map VStr (List.filter nonempty (List.map trim names))) []).
Proof.
  induction fields as [|f fields IH]; intros o o' Hnd Hc k l p Hin Hentry; [done|].
  apply NoDup_cons in Hnd as [Hf Hnd]. cbn [computed_fields] in Hc.
  destruct (computed_field methods (VObj o) f) as [[[]|e] c1] eqn:Hstep; [|done].
  pose proof (computed_field_other _ _ _ _ _ Hstep) as (o1 & -> & Ho1).
  destruct (in_dec string_dec k fields) as [Hk|Hk]; [by eapply IH|].
  destruct Hin as [->|Hin]; [|done].
  apply computed_fields_prepared in Hc as (? & [= <-] & Hout & _); [|done].
  rewrite Hout in Hentry by done.
  by eapply computed_field_array.
Qed.

(** X17.  The definition gives [computed] as a plain object and the
    defaults of the store have no [computed]; the registration succeeds.
    Whatever the fields declare, a computed entry that is an array on the
    registered definition has strings before its last element, and a
    property [deps] that lists them trimmed, in order, without the empty
    ones: every name in [deps] is non-empty and has no whitespace at either
    end. *)
Theorem deps_are_clean_names `{Collaborators}
    (s : DS) (definition : value) (o cs : obj) (def : obj) (s' : DS)
    (Hobj : named definition = VObj o)
    (Hnodup : nodup_keys o = true)
    (Hcomputed : own_get "computed" o = Some (VObj cs))
    (Hfields : nodup_keys cs = true)
    (Hinherit : own_get "computed" (defaults s) = None)
    (Hreg : defineResource s definition = (Ret def, s')) :
  exists cs',
    own_get "computed" def = Some (VObj cs')
    /\ forall field l p,
         own_get field cs' = Some (VArr l p) ->
         exists names,
           removelast l = List.map VStr names
           /\ own_get "deps" p
              = Some (VArr (List.map VStr (List.filter nonempty (List.map trim names))) [])
           /\ forallb clean_name (List.filter nonempty (List.map trim names)) = true.
Proof.
  destruct (registered_computed _ _ _ _ _ _ Hobj Hnodup Hcomputed Hfields Hinherit Hreg)
    as (methods & cs' & Hloop & Hdef).
  exists cs'. split; [done|]. intros field l p Hentry.
  assert (Hin : In field (List.map fst cs)).
  { destruct (in_dec string_dec field (List.map fst cs)) as [|Hout]; [done|].
    pose proof Hloop as (? & [= <-] & Hframe & _)%computed_fields_prepared;
      [|by apply nodup_keys_NoDup].
    rewrite Hframe, own_get_keys in Hentry; done. }
  destruct (computed_fields_arrays _ _ _ _ (nodup_keys_NoDup _ Hfields) Hloop
              field l p Hin Hentry) as (names & Hl & Hdeps).
  exists names. split; [done|]. split; [done|]. apply trimmed_clean.
Qed.

Lemma deps_are_clean_names_witness :
  exists cs',
    own_get "computed" person_def = Some (VObj cs')
    /\ forall field l p,
         own_get field cs' = Some (VArr l p) ->
         exists names,
           removelast l = List.map VStr names
           /\ own_get "deps" p
              = Some (VArr (List.map VStr (List.filter nonempty (List.map trim names))) [])
           /\ forallb clean_name (List.filter nonempty (List.map trim names)) = true.
Proof.
  apply (deps_are_clean_names empty_store person_definition
           [("name", VStr "person");
            ("computed",
             VObj [("fullName", fullName_fn);
                   ("initials",
                    VArr [VStr " first"; VStr ""; VStr "last "; initials_fn] [])])]
           [("fullName", fullName_fn);
            ("initials", VArr [VStr " first"; VStr ""; VStr "last "; initials_fn] [])]
           person_def person_store).
  - reflexivity.
  - reflexivity.
  - reflexivity.
  - reflexivity.
  - reflexivity.
  - vm_compute. reflexivity.
Defined.

(** ** The other resources *)

Lemma try_block_cache_id `{Collaborators} s o name r dflt cs :
  nodup_keys o = true ->
  own_get "name" o = Some (VStr name) ->
  try_block s (VObj o) name = (r, dflt, cs) ->
  cs = caches s \/ exists c, cs = <["DS." +:+ name := c]> (caches s).
Proof.
  intros Hnodup Hname. unfold try_block.
  destruct (Resource (defaults s) (VObj o)) as [[def0 dflt0]|] eqn:HR;
    [|intros; simplify_eq; by left].
  apply Resource_object in HR as (this & Hfold & ->).
  destruct (setup_parent _ dflt0) as [def1|] eqn:Hpar; [|intros; simplify_eq; by left].
  apply setup_parent_last in Hpar as [Hframe _].
  assert (Hn : proto_get (before_cache name def1 dflt0) dflt0 "name" = VStr name).
  { unfold proto_get. rewrite own_get_before_cache, Hframe by done.
    rewrite own_get_set_ne by done.
    assert (own_get "name" this = Some (VStr name)) as ->; [|done].
    apply (copyProps_assigned o [] (defaults s) this dflt0); [done|done|by left|done]. }
  rewrite Hn. cbn [to_string].
  destruct (cacheFactory _ _ (caches s)) as [cs1|] eqn:Hc; [|intros; simplify_eq; by left].
  assert (Hcs : exists c, cs1 = <["DS." +:+ name := c]> (caches s)).
  { unfold cacheFactory in Hc.
    destruct (caches s !! ("DS." +:+ name)); [done|].
    destruct (cache_accepts _); [|done]. simplify_eq. eauto. }
  clear Hframe Hn.
  repeat case_match; intros; simplify_eq; by right.
Qed.

Lemma cache_id_inj a b : "DS." +:+ a = "DS." +:+ b -> a = b.
Proof. rewrite !append_cons, !append_empty. by intros [= ->]. Qed.

(** X18.  A call of [defineResource] for one name, however it ends,
    leaves the definition, the store entry and the cache of every other
    name as they were. *)
Theorem other_resources_untouched `{Collaborators}
    (s : DS) (definition : value) (o : obj) (name other : string)
    (r : outcome obj) (s' : DS)
    (Hobj : named definition = VObj o)
    (Hnodup : nodup_keys o = true)
    (Hname : own_get "name" o = Some (VStr name))
    (Hother : other <> name)
    (Hcall : defineResource s definition = (r, s')) :
  definitions s' !! other = definitions s !! other
  /\ store s' !! other = store s !! other
  /\ caches s' !! ("DS." +:+ other) = caches s !! ("DS." +:+ other).
Proof.
  assert (Hid : "DS." +:+ name <> "DS." +:+ other).
  { intros Heq. by apply cache_id_inj in Heq. }
  assert (Hcaches : forall r dflt cs,
             try_block s (VObj o) name = (r, dflt, cs) ->
             cs !! ("DS." +:+ other) = caches s !! ("DS." +:+ other)).
  { intros r0 dflt cs Htry.
    destruct (try_block_cache_id _ _ _ _ _ _ Hnodup Hname Htry) as [->|[c ->]]; [done|].
    by rewrite lookup_insert_ne. }
  revert Hcall. unfold defineResource. rewrite Hobj. cbn [isObject negb].
  replace (prop (VObj o) "name") with (VStr name)
    by (unfold prop; cbn [get_prop]; by rewrite Hname).
  destruct (truthy (prop (VObj o) "idAttribute") && _); [by intros; simplify_eq|].
  destruct (truthy (prop (VObj o) "endpoint") && _); [by intros; simplify_eq|].
  destruct (registry_has (store s) name); [by intros; simplify_eq|].
  destruct (try_block s (VObj o) name) as [[[def cacheId|e|def] dflt] cs] eqn:Htry;
    intros; simplify_eq; cbn [definitions store caches].
  - destruct (registered_name s definition name def cacheId dflt cs o) as (_ & Hdef & _);
      [done|done|rewrite Hobj; unfold prop; cbn [get_prop]; by rewrite Hname
      |by rewrite Hobj|].
    unfold proto_get. rewrite Hdef. cbn [to_string].
    rewrite !lookup_insert_ne by done. eauto.
  - rewrite !lookup_delete_ne by done. eauto.
  - rewrite lookup_insert_ne by done. eauto.
Qed.

Lemma other_resources_untouched_witness :
  definitions blog_store !! "comment" = definitions comment_store !! "comment"
  /\ store blog_store !! "comment" = store comment_store !! "comment"
  /\ caches blog_store !! ("DS." +:+ "comment")
     = caches comment_store !! ("DS." +:+ "comment").
Proof.
  apply (other_resources_untouched comment_store (VStr "post") [("name", VStr "post")]
           "post" "comment"
           (fst (defineResource comment_store (VStr "post"))) blog_store).
  - reflexivity.
  - reflexivity.
  - reflexivity.
  - discriminate.
  - vm_compute. reflexivity.
Defined.

(** ** Plain objects shared with the defaults *)

Lemma merge_plain_cons ex k x o :
  merge_plain ex (VObj ((k, x) :: o))
  = merge_plain (own_set k (match x, own_get k ex with
                            | VObj _, Some (VObj e) => VObj (merge_plain e x)
                            | _, _ => x
                            end) ex) (VObj o).
Proof. reflexivity. Qed.

Lemma merge_plain_get v : forall ex j,
  nodup_keys v = true ->
  own_get j (merge_plain ex (VObj v))
  = match own_get j v with
    | Some x => Some (match x, own_get j ex with
                      | VObj _, Some (VObj e) => VObj (merge_plain e x)
                      | _, _ => x
                      end)
    | None => own_get j ex
    end.
Proof.
  induction v as [|[k x] v IH]; intros ex j Hnd; [done|].
  cbn [nodup_keys] in Hnd. apply andb_prop in Hnd as [Hk Hnd].
  apply negb_true_iff in Hk. unfold own_has in Hk.
  rewrite merge_plain_cons, IH by done. cbn [own_get].
  destruct (String.eqb j k) eqn:E.
  - apply String.eqb_eq in E as ->.
    destruct (own_get k v); [done|]. by rewrite own_get_set_eq.
  - apply String.eqb_neq in E. by rewrite own_get_set_ne.
Qed.

Lemma copyProps_merged o : forall this dflt this' dflt' k v ex,
  nodup_keys o = true ->
  own_get k o = Some (VObj v) ->
  own_get k this = None ->
  own_get k dflt = Some (VObj ex) ->
  fold_left copyProp o (this, dflt) = (this', dflt') ->
  own_get k this' = None
  /\ own_get k dflt' = Some (VObj (merge_plain ex (VObj v))).
Proof.
  induction o as [|[k0 v0] o IH]; intros this dflt this' dflt' k v ex Hnd Hk Hthis Hd Hfold;
    [done|].
  cbn [fold_left nodup_keys own_get] in *.
  apply andb_prop in Hnd as [Hfresh Hnd]. apply negb_true_iff in Hfresh.
  destruct (String.eqb k k0) eqn:E.
  - apply String.eqb_eq in E as ->. simplify_eq.
    unfold copyProp in Hfold at 2. rewrite Hthis, Hd in Hfold.
    apply (copyProps_other _ _ _ _ _ k0) in Hfold as [-> ->]; [|done].
    by rewrite own_get_set_eq.
  - apply String.eqb_neq in E.
    destruct (copyProp (this, dflt) (k0, v0)) as [this1 dflt1] eqn:Hstep.
    apply (copyProp_other k) in Hstep as [H1 H2]; [|done].
    apply (IH this1 dflt1 this' dflt' k v ex); try done; congruence.
Qed.

(** X19.  The constructor mixes the definition into an object whose
    prototype is [DS.defaults], with the deep mixin of mout: a plain object
    given for a property that the defaults hold as a plain object is merged
    into the object of the defaults.  For a property that the registration
    does not manage itself ([untouched]: the name starts with a lower-case
    letter and is none of [endpoint], [parent], [parentKey], [filter],
    [defaultFilter], [getEndpoint], [class], [computed] or a shorthand
    method), after a registration that succeeds the definition has no such
    property of its own, and the global default, which every resource
    inherits, has the entries given (those that are not plain objects as
    they were given) beside the entries it had under other names. *)
Theorem plain_option_merges_into_default `{Collaborators}
    (s : DS) (definition : value) (o v ex : obj) (def : obj) (s' : DS) (k : string)
    (Hobj : named definition = VObj o)
    (Hnodup : nodup_keys o = true)
    (Hk : untouched k = true)
    (Hgiven : own_get k o = Some (VObj v))
    (Hv : nodup_keys v = true)
    (Hdefault : own_get k (defaults s) = Some (VObj ex))
    (Hreg : defineResource s definition = (Ret def, s')) :
  exists merged,
    own_get k def = None
    /\ own_get k (defaults s') = Some (VObj merged)
    /\ (forall j, own_get j v = None -> own_get j merged = own_get j ex)
    /\ (forall j x, own_get j v = Some x -> isPlainObject x = false ->
                    own_get j merged = Some x).
Proof.
  apply defineResource_ret in Hreg
    as (name & cacheId & dflt & cs & _ & _ & _ & Htry & ->).
  rewrite Hobj in *.
  apply andb_prop in Hk as [Hkept Hk]. apply negb_true_iff in Hk.
  pose proof (existsb_eqb_false _ _ Hk) as Hne.
  apply registration_keeps in Htry as (def0 & dflt0 & def1 & HR & Hpar & Hkeeps & Hdflt).
  apply Resource_object in HR as (this & Hfold & ->).
  apply setup_parent_last in Hpar as [Hframe _].
  destruct (copyProps_merged o [] (defaults s) this dflt0 k v ex Hnodup Hgiven eq_refl
              Hdefault Hfold) as [Hthis Hd].
  apply kept_elim in Hkept as Hk'. destruct Hk' as (_ & _ & _ & _ & _ & Hc & _).
  exists (merge_plain ex (VObj v)). cbn [defaults]. split; [|split; [|split]].
  - rewrite Hkeeps, Hframe by (try done; apply Hne; simpl; tauto).
    by rewrite own_get_set_ne by (apply Hne; simpl; tauto).
  - by rewrite Hdflt.
  - intros j Hj. by rewrite merge_plain_get, Hj.
  - intros j x Hj Hx. rewrite merge_plain_get, Hj by done. by destruct x.
Qed.

Lemma plain_option_merges_into_default_witness :
  let r := defineResource meta_store tagged_definition in
  exists merged,
    own_get "meta" (default [] (definitions (snd r) !! "user")) = None
    /\ own_get "meta" (defaults (snd r)) = Some (VObj merged)
    /\ (forall j, own_get j [("tier", VNum 2); ("team", VStr "a")] = None ->
                  own_get j merged
                  = own_get j [("owner", VStr "ops"); ("tier", VNum 1)])
    /\ (forall j x, own_get j [("tier", VNum 2); ("team", VStr "a")] = Some x ->
                    isPlainObject x = false -> own_get j merged = Some x).
Proof.
  apply (plain_option_merges_into_default meta_store tagged_definition
           [("name", VStr "user"); ("meta", VObj [("tier", VNum 2); ("team", VStr "a")])]
           [("tier", VNum 2); ("team", VStr "a")]
           [("owner", VStr "ops"); ("tier", VNum 1)]
           (default [] (definitions (snd (defineResource meta_store tagged_definition))
                          !! "user"))
           (snd (defineResource meta_store tagged_definition)) "meta").
  - reflexivity.
  - reflexivity.
  - reflexivity.
  - reflexivity.
  - reflexivity.
  - reflexivity.
  - vm_compute. reflexivity.
Defined.
